(** * TolimaGO: the client-side authentication session lifecycle

    A shallow embedding of the session core of the TolimaGO mobile client
    (secure token store, auth service, HTTP 401 interceptor, session
    reducer, mutation executor) and the properties its specification
    states about it.

    Conventions of the embedding.
    - JavaScript strings are [string] (code units as [ascii]).
    - JavaScript numbers are [JS.number]: an integer or [NaN]. Epoch
      milliseconds and small counters are integers below 2^53, on which
      IEEE doubles are exact. Where a result can leave that range (the
      expiry computed from a duration the backend sends) the numbers are
      [JS.double]: every operation rounds to the nearest double or
      overflows to an infinity, and the result is printed as JavaScript
      prints a double.
    - [async] functions are state transformers over an explicit [World];
      a rejected promise is the [Throw] result. *)

From Stdlib Require Import ZArith Lia Bool List Ascii String.
From Stdlib Require Import DecimalString DecimalPos DecimalN DecimalZ.
From stdpp Require Import base gmap strings list fin_maps.

Local Open Scope string_scope.
Local Open Scope list_scope.
Local Open Scope Z_scope.

(** ** The JavaScript runtime pieces the code relies on *)

Module JS.

Inductive number := NaN | Num (z : Z).

(** [Number.MAX_SAFE_INTEGER]: every integer up to it is a double, and
    sums, products and differences that stay within it are exact. *)
Definition MAX_SAFE_INTEGER : Z := 2 ^ 53 - 1.

(** The double nearest to an integer, as an integer: 53 significant
    bits, ties to the even significand. *)
Definition nearest_double (z : Z) : Z :=
  let m := Z.abs z in
  if m <? 2 ^ 53 then z
  else
    let e := Z.log2 m - 52 in
    let q := m / 2 ^ e in
    let r := m mod 2 ^ e in
    let half := 2 ^ (e - 1) in
    let q' := if (half <? r) || ((r =? half) && Z.odd q) then q + 1 else q in
    Z.sgn z * (q' * 2 ^ e).

(** The Numbers that the arithmetic of [calculateExpiryTimestamp]
    goes through: the doubles with an integer value, the two
    infinities and NaN. (The sign of a zero is not kept: nothing
    printed shows it.) *)
Inductive double :=
| Finite (z : Z)
| Infinite (negative : bool)
| NotANumber.

(** An integer value as a Number: the nearest double, and an infinity
    when that is 2^1024 or more in magnitude. *)
Definition round (z : Z) : double :=
  let r := nearest_double z in
  if 2 ^ 1024 <=? Z.abs r then Infinite (z <? 0) else Finite r.

(** [a * b] and [a + b] on Numbers. *)
Definition times (a b : double) : double :=
  match a, b with
  | Finite x, Finite y => round (x * y)
  | Finite x, Infinite s | Infinite s, Finite x =>
      if x =? 0 then NotANumber else Infinite (xorb s (x <? 0))
  | Infinite s, Infinite t => Infinite (xorb s t)
  | _, _ => NotANumber
  end.

Definition plus (a b : double) : double :=
  match a, b with
  | Finite x, Finite y => round (x + y)
  | Finite _, Infinite s | Infinite s, Finite _ => Infinite s
  | Infinite s, Infinite t => if Bool.eqb s t then Infinite s else NotANumber
  | _, _ => NotANumber
  end.

(** [a + b] and [a * b] on integers: the exact value, which is what
    JavaScript computes while the operands and the result are within
    the safe range (as timestamps are). *)
Definition add (a b : number) : number :=
  match a, b with Num x, Num y => Num (x + y) | _, _ => NaN end.

Definition mul (a b : number) : number :=
  match a, b with Num x, Num y => Num (x * y) | _, _ => NaN end.

(** [a >= b]: any comparison with NaN is false. *)
Definition ge (a b : number) : bool :=
  match a, b with Num x, Num y => x >=? y | _, _ => false end.

(** NaN or an integer written out in decimal digits. *)
Definition toString (a : number) : string :=
  match a with
  | NaN => "NaN"
  | Num z => NilEmpty.string_of_int (Z.to_int z)
  end.

(** [Number.prototype.toString] prints a double with the fewest
    significant digits that still read back as that double. Among the
    multiples of [p], [p / 10], ... nearest to [z] on either side,
    [shortest] is the first that rounds to the double [z] (the nearer
    one when both do). *)
Fixpoint shortest (fuel : nat) (p : Z) (z : Z) : Z :=
  let lo := z / p * p in
  let hi := lo + p in
  let fits (c : Z) := nearest_double c =? z in
  if fits lo && fits hi then
    if z - lo <? hi - z then lo
    else if hi - z <? z - lo then hi
    else if Z.even (z / p) then lo else hi
  else if fits lo then lo
  else if fits hi then hi
  else
    match fuel with
    | O => z
    | S fuel' => shortest fuel' (p / 10) z
    end.

(** A numeral without its trailing zeros. *)
Fixpoint drop_zeros (s : string) : string :=
  match s with
  | String c r =>
      let r' := drop_zeros r in
      if Ascii.eqb c "0" && String.eqb r' "" then "" else String c r'
  | EmptyString => ""
  end.

(** [Number.prototype.toString]: the shortest digits, written out in
    full below 10^21 and in exponent notation from there on. *)
Definition Number_toString (d : double) : string :=
  match d with
  | NotANumber => "NaN"
  | Infinite negative => if negative then "-Infinity" else "Infinity"
  | Finite z =>
      let m := Z.abs z in
      let n0 := String.length (toString (Num m)) in
      let c := shortest n0 (10 ^ (Z.of_nat n0 - 1)) m in
      let text := toString (Num c) in
      let sign := if z <? 0 then "-" else "" in
      if c <? 10 ^ 21 then (sign ++ text)%string
      else
        let exponent := toString (Num (Z.of_nat (String.length text) - 1)) in
        match drop_zeros text with
        | String d1 EmptyString => (sign ++ String d1 ("e+" ++ exponent))%string
        | String d1 rest => (sign ++ String d1 ("." ++ rest ++ "e+" ++ exponent))%string
        | EmptyString => (sign ++ text)%string
        end
  end.

(** White space skipped by [parseInt], among the code units below
    256: tab, line feed, vertical tab, form feed, carriage return,
    space and the no-break space. *)
Definition is_ws (c : ascii) : bool :=
  let n := nat_of_ascii c in
  ((9 <=? n)%nat && (n <=? 13)%nat) || (n =? 32)%nat || (n =? 160)%nat.

Fixpoint skip_ws (s : string) : string :=
  match s with
  | String c r => if is_ws c then skip_ws r else s
  | EmptyString => EmptyString
  end.

Definition digit_of (c : ascii) : option Z :=
  let n := nat_of_ascii c in
  if ((48 <=? n)%nat && (n <=? 57)%nat) then Some (Z.of_nat (n - 48)) else None.

(** The longest prefix of decimal digits, read left to right. *)
Fixpoint digits_acc (acc : Z) (s : string) : Z :=
  match s with
  | String c r =>
      match digit_of c with
      | Some d => digits_acc (10 * acc + d) r
      | None => acc
      end
  | EmptyString => acc
  end.

Definition starts_with_digit (s : string) : bool :=
  match s with
  | String c _ => match digit_of c with Some _ => true | None => false end
  | EmptyString => false
  end.

(** [parseInt(s, 10)]: leading white space, an optional sign, then the
    longest run of digits; NaN when there is no digit. *)
Definition parseInt (s : string) : number :=
  let t := skip_ws s in
  let '(neg, u) :=
    match t with
    | String "-"%char r => (true, r)
    | String "+"%char r => (false, r)
    | _ => (false, t)
    end in
  if starts_with_digit u
  then Num (if neg then - digits_acc 0 u else digits_acc 0 u)
  else NaN.

(** [s.slice(0, -1)]: all but the last code unit. *)
Definition slice_init (s : string) : string :=
  substring 0 (String.length s - 1) s.

(** [s.slice(-1)]: the last code unit, or the empty string. *)
Definition slice_last (s : string) : string :=
  substring (String.length s - 1) 1 s.

(** Truthiness of a [string | null | undefined] value. *)
Definition truthy (o : option string) : bool :=
  match o with
  | Some s => negb (String.eqb s "")
  | None => false
  end.

(** [a || d] on an optional string. *)
Definition or_str (o : option string) (d : string) : string :=
  match o with
  | Some s => if String.eqb s "" then d else s
  | None => d
  end.

(** [a || d] on an optional boolean. *)
Definition or_bool (o : option bool) (d : bool) : bool :=
  match o with
  | Some true => true
  | _ => d
  end.

End JS.


(** ** Worlds, results and the effect monad *)

(** A thrown JavaScript value, with the fields the handlers look at:
    [error.response.data], [error.message], [error.code]. *)
Record ErrorData := mkErrorData {
  ed_message : option string;
  ed_field : option string;
  ed_code : option string }.

Record Thrown := mkThrown {
  response_data : option ErrorData;
  message : option string;
  code : option string;
  field : option string }.

(** [new Error(msg)] *)
Definition Error (msg : string) : Thrown :=
  {| response_data := None; message := Some msg; code := None; field := None |}.

Inductive Result (A : Type) : Type :=
| Ok (a : A)
| Throw (e : Thrown).
Arguments Ok {A} a.
Arguments Throw {A} e.

Definition is_ok {A} (r : Result A) : bool :=
  match r with Ok _ => true | Throw _ => false end.

(** Operations on the platform's secure storage. *)
Inductive StoreOp :=
| OpGet (k : string)
| OpSet (k v : string)
| OpDelete (k : string).

Inductive Method := GET | POST | POST_PUBLIC.

(** What a run does to the outside, in order: secure-storage operations
    (with whether the platform accepted them), requests handed to the
    HTTP client, and the removal of the client's default header. *)
Inductive Event (Body : Type) :=
| EvStore (op : StoreOp) (accepted : bool)
| EvHttp (m : Method) (url : string) (body : option Body)
| EvRemoveAuthToken.
Arguments EvStore {Body} op accepted.
Arguments EvHttp {Body} m url body.
Arguments EvRemoveAuthToken {Body}.

(** The mutable world an [async] function runs in. [sops] counts the
    secure-storage operations issued so far: the platform may reject the
    n-th operation. *)
Record World := mkWorld {
  store : gmap string string;
  now : Z;
  sops : nat;
  authHeader : option string }.

(** The world after a write or delete was issued: the operation takes
    effect only if the platform accepted it. *)
Definition issue (accepted : bool) (f : gmap string string -> gmap string string)
    (w : World) : World :=
  {| store := if accepted then f (store w) else store w;
     now := now w; sops := S (sops w); authHeader := authHeader w |}.

Definition tick (w : World) : World :=
  {| store := store w; now := now w; sops := S (sops w); authHeader := authHeader w |}.

Definition set_authHeader (h : option string) (w : World) : World :=
  {| store := store w; now := now w; sops := sops w; authHeader := h |}.

(** The platform: which secure-storage operations it rejects, by the
    number of operations issued before. *)
Definition Platform := nat -> StoreOp -> bool.

Section Monad.
Context {Body : Type}.

(** A computation yields a result, the next world and the events it
    emitted. *)
Definition M (A : Type) : Type := World -> Result A * World * list (Event Body).

Definition ret {A} (a : A) : M A := fun w => (Ok a, w, []).

Definition throw {A} (e : Thrown) : M A := fun w => (Throw e, w, []).

Definition bind {A B} (m : M A) (k : A -> M B) : M B := fun w =>
  match m w with
  | (Ok a, w1, ev1) => let '(r, w2, ev2) := k a w1 in (r, w2, ev1 ++ ev2)
  | (Throw e, w1, ev1) => (Throw e, w1, ev1)
  end.

(** [try { m } catch (e) { h e }] *)
Definition try_catch {A} (m : M A) (h : Thrown -> M A) : M A := fun w =>
  match m w with
  | (Ok a, w1, ev1) => (Ok a, w1, ev1)
  | (Throw e, w1, ev1) => let '(r, w2, ev2) := h e w1 in (r, w2, ev1 ++ ev2)
  end.

(** [promise.catch(() => {})] *)
Definition swallow (m : M unit) : M unit := try_catch m (fun _ => ret tt).

(** [Promise.all]: every operation is started and runs to its end
    whatever happens to the others; the whole rejects when one of them
    does. The operations are run in the order the array lists them. *)
Fixpoint Promise_all (ms : list (M unit)) : M unit := fun w =>
  match ms with
  | [] => (Ok tt, w, [])
  | m :: rest =>
      let '(r1, w1, ev1) := m w in
      let '(r2, w2, ev2) := Promise_all rest w1 in
      (match r1 with Ok _ => r2 | Throw e => Throw e end, w2, ev1 ++ ev2)
  end.

Definition get_now : M Z := fun w => (Ok (now w), w, []).

End Monad.

Declare Scope m_scope.
Delimit Scope m_scope with m.
Notation "x <- m ;; k" := (bind m (fun x => k))
  (at level 100, m at next level, right associativity) : m_scope.
Notation "m ;;; k" := (bind m (fun _ => k))
  (at level 100, right associativity) : m_scope.

(** ** services/secure-storage.ts *)

Record TokenData := mkTokenData {
  accessToken : string;
  refreshToken : string;
  expiresIn : string }.

Record UserData := mkUserData {
  id : string;
  name : string;
  email : string;
  role : string;
  isEmailVerified : bool;
  phone : option string;
  city : option string;
  isResident : option bool;
  createdAt : string;
  lastLoginAt : option string }.

(** Library functions of the runtime that are used as black boxes. *)
Class Runtime := {
  JSON_stringify : UserData -> string;
  Date_toISOString : Z -> string }.

Module SecureStorage.

(** [TOKEN_KEYS] *)
Definition ACCESS_TOKEN : string := "tolimaGO_access_token".
Definition REFRESH_TOKEN : string := "tolimaGO_refresh_token".
Definition TOKEN_EXPIRY : string := "tolimaGO_token_expiry".
Definition USER_DATA : string := "tolimaGO_user_data".

Definition TOKEN_KEYS : list string :=
  [ACCESS_TOKEN; REFRESH_TOKEN; TOKEN_EXPIRY; USER_DATA].

(** What the platform rejects with; the code never inspects it. *)
Definition platform_error : Thrown := Error "SecureStore operation failed".

(** Convierte el formato "15m" a timestamp de expiración. Every
    product and the sum are Numbers: the exact results rounded to
    doubles, one operation at a time. *)
Definition calculateExpiryTimestamp (now : Z) (expiresIn : string) : string :=
  let timeValue :=
    match JS.parseInt (JS.slice_init expiresIn) with
    | JS.Num z => JS.round z
    | JS.NaN => JS.NotANumber
    end in
  let timeUnit := JS.slice_last expiresIn in
  let times (a : JS.double) (k : Z) := JS.times a (JS.Finite k) in
  let milliseconds :=
    if String.eqb timeUnit "s" then times timeValue 1000
    else if String.eqb timeUnit "m" then times (times timeValue 60) 1000
    else if String.eqb timeUnit "h" then times (times (times timeValue 60) 60) 1000
    else if String.eqb timeUnit "d" then
      times (times (times (times timeValue 24) 60) 60) 1000
    else JS.Finite (15 * 60 * 1000) in
  JS.Number_toString (JS.plus (JS.round now) milliseconds).

Section WithPlatform.
Context {Body : Type} (rejects : Platform) {rt : Runtime}.
Local Open Scope m_scope.
Local Abbreviation M := (@M Body).

(** [SecureStore.getItemAsync] *)
Definition getItemAsync (k : string) : M (option string) := fun w =>
  let ok := negb (rejects (sops w) (OpGet k)) in
  (if ok then Ok (store w !! k) else Throw platform_error,
   tick w, [EvStore (OpGet k) ok]).

(** [SecureStore.setItemAsync] *)
Definition setItemAsync (k v : string) : M unit := fun w =>
  let ok := negb (rejects (sops w) (OpSet k v)) in
  (if ok then Ok tt else Throw platform_error,
   issue ok (insert k v) w,
   [EvStore (OpSet k v) ok]).

(** [SecureStore.deleteItemAsync] *)
Definition deleteItemAsync (k : string) : M unit := fun w =>
  let ok := negb (rejects (sops w) (OpDelete k)) in
  (if ok then Ok tt else Throw platform_error,
   issue ok (delete k) w,
   [EvStore (OpDelete k) ok]).

Definition setTokens (tokenData : TokenData) : M unit :=
  try_catch
    (t <- get_now ;;
     Promise_all
       [ setItemAsync ACCESS_TOKEN (accessToken tokenData);
         setItemAsync REFRESH_TOKEN (refreshToken tokenData);
         setItemAsync TOKEN_EXPIRY
           (calculateExpiryTimestamp t (expiresIn tokenData)) ])
    (fun _ => throw (Error "Failed to store authentication tokens")).

Definition getAccessToken : M (option string) :=
  try_catch (getItemAsync ACCESS_TOKEN) (fun _ => ret None).

Definition getRefreshToken : M (option string) :=
  try_catch (getItemAsync REFRESH_TOKEN) (fun _ => ret None).

Definition isTokenExpired : M bool :=
  try_catch
    (expiryTimestamp <- getItemAsync TOKEN_EXPIRY ;;
     if negb (JS.truthy expiryTimestamp) then ret true
     else
       t <- get_now ;;
       let expiry := JS.parseInt (default "" expiryTimestamp) in
       let bufferTime := 60 * 1000 in
       ret (JS.ge (JS.add (JS.Num t) (JS.Num bufferTime)) expiry))
    (fun _ => ret true).

Definition setUserData (userData : UserData) : M unit :=
  try_catch
    (setItemAsync USER_DATA (JSON_stringify userData))
    (fun _ => throw (Error "Failed to store user data")).

Definition clearAll : M unit :=
  try_catch
    (Promise_all
       [ swallow (deleteItemAsync ACCESS_TOKEN);
         swallow (deleteItemAsync REFRESH_TOKEN);
         swallow (deleteItemAsync TOKEN_EXPIRY);
         swallow (deleteItemAsync USER_DATA) ])
    (fun _ => ret tt).

Definition hasStoredTokens : M bool :=
  try_catch
    (accessToken <- getAccessToken ;;
     refreshToken <- getRefreshToken ;;
     ret (JS.truthy accessToken && JS.truthy refreshToken))
    (fun _ => ret false).

End WithPlatform.

End SecureStorage.

(** The decimal numeral of a natural number, as the backend writes the
    [n] of an [expiresIn] duration. *)
Definition decimal (n : N) : string := NilEmpty.string_of_uint (N.to_uint n).

(** ** services/auth-service.ts *)

Record LoginCredentials := mkLoginCredentials {
  lc_email : string;
  lc_password : string }.

Record RegisterData := mkRegisterData {
  rd_name : string;
  rd_email : string;
  rd_password : string;
  rd_phone : option string;
  rd_city : option string;
  rd_isResident : option bool;
  rd_role : option string }.

(** The request body [register] builds ([requestData]). *)
Record RegisterRequest := mkRegisterRequest {
  rq_name : string;
  rq_email : string;
  rq_password : string;
  rq_phone : string;
  rq_city : string;
  rq_isResident : bool;
  rq_role : string }.

Inductive Body :=
| RegisterBody (requestData : RegisterRequest)
| LoginBody (credentials : LoginCredentials)
| RefreshBody (refreshToken : string).

(** The user object of the register and login responses. *)
Record AuthUser := mkAuthUser {
  au_id : string;
  au_name : string;
  au_email : string;
  au_role : string;
  au_isEmailVerified : bool;
  au_createdAt : option string;
  au_lastLoginAt : option string }.

Record AuthPayload := mkAuthPayload {
  ap_user : AuthUser;
  ap_tokens : TokenData }.

(** [ApiResponse<T>] *)
Record ApiResponse (T : Type) := mkApiResponse {
  success : bool;
  api_message : string;
  data : option T }.
Arguments mkApiResponse {T}.
Arguments success {T}.
Arguments api_message {T}.
Arguments data {T}.

Record AuthResponse := mkAuthResponse {
  user : UserData;
  tokens : TokenData }.

(** The request methods of [httpClient] the service calls, one field per
    response type. Each is an arbitrary state transformer: the service is
    verified against every behaviour of the client and of the backend
    behind it (the interceptors of the real client store and clear
    tokens themselves). *)
Record HttpClient := mkHttpClient {
  postPublic_auth : string -> Body -> World -> Result (ApiResponse AuthPayload) * World;
  postPublic_tokens : string -> Body -> World -> Result (ApiResponse (option TokenData)) * World;
  get_user : string -> World -> Result (ApiResponse (option UserData)) * World;
  post_void : string -> World -> Result (ApiResponse unit) * World }.

Module AuthService.
Import SecureStorage.

(** The request body of [register], lines 66-74. *)
Definition requestData (registerData : RegisterData) : RegisterRequest :=
  {| rq_name := rd_name registerData;
     rq_email := rd_email registerData;
     rq_password := rd_password registerData;
     rq_phone := JS.or_str (rd_phone registerData) "";
     rq_city := JS.or_str (rd_city registerData) "";
     rq_isResident := JS.or_bool (rd_isResident registerData) true;
     rq_role := JS.or_str (rd_role registerData) "user" |}.

Definition handleAuthError (error : Thrown) : Thrown :=
  match response_data error with
  | Some errorData =>
      {| response_data := None;
         message := Some (JS.or_str (ed_message errorData) "Authentication error occurred");
         field := ed_field errorData;
         code := ed_code errorData |}
  | None =>
      if JS.truthy (message error) then
        {| response_data := None; message := message error;
           code := code error; field := None |}
      else
        {| response_data := None;
           message := Some "An unexpected authentication error occurred";
           code := Some "UNKNOWN_AUTH_ERROR"; field := None |}
  end.

Section WithClient.
Context (rejects : Platform) {rt : Runtime} (httpClient : HttpClient).
Local Open Scope m_scope.
Local Abbreviation M := (@M Body).

(** A request handed to the client: logged, then run by the client. *)
Definition request {A} (m : Method) (url : string) (body : option Body)
    (run : World -> Result A * World) : M A := fun w =>
  let '(r, w') := run w in (r, w', [EvHttp m url body]).

(** [httpClient.removeAuthToken]: deletes the default header. *)
Definition removeAuthToken : M unit := fun w =>
  (Ok tt, set_authHeader None w, [EvRemoveAuthToken]).

Definition register (registerData : RegisterData) : M AuthResponse :=
  try_catch
    (let requestData := requestData registerData in
     response <- request POST_PUBLIC "/auth/register" (Some (RegisterBody requestData))
                   (postPublic_auth httpClient "/auth/register" (RegisterBody requestData)) ;;
     match success response, data response with
     | true, Some d =>
         t <- get_now ;;
         let authResponse :=
           {| user :=
                {| id := au_id (ap_user d);
                   email := au_email (ap_user d);
                   name := au_name (ap_user d);
                   phone := Some (rq_phone requestData);
                   city := Some (rq_city requestData);
                   isResident := Some (rq_isResident requestData);
                   role := au_role (ap_user d);
                   isEmailVerified := au_isEmailVerified (ap_user d);
                   createdAt := JS.or_str (au_createdAt (ap_user d)) (Date_toISOString t);
                   lastLoginAt := None |};
              tokens :=
                {| accessToken := accessToken (ap_tokens d);
                   refreshToken := refreshToken (ap_tokens d);
                   expiresIn := expiresIn (ap_tokens d) |} |} in
         Promise_all [ setTokens rejects (tokens authResponse);
                       setUserData rejects (user authResponse) ] ;;;
         ret authResponse
     | _, _ =>
         throw (Error (JS.or_str (Some (api_message response)) "Registration failed"))
     end)
    (fun error => throw (handleAuthError error)).

Definition login (credentials : LoginCredentials) : M AuthResponse :=
  try_catch
    (response <- request POST_PUBLIC "/auth/login" (Some (LoginBody credentials))
                   (postPublic_auth httpClient "/auth/login" (LoginBody credentials)) ;;
     match success response, data response with
     | true, Some d =>
         t <- get_now ;;
         let authResponse :=
           {| user :=
                {| id := au_id (ap_user d);
                   email := au_email (ap_user d);
                   name := au_name (ap_user d);
                   role := au_role (ap_user d);
                   isEmailVerified := au_isEmailVerified (ap_user d);
                   createdAt := Date_toISOString t;
                   lastLoginAt :=
                     Some (JS.or_str (au_lastLoginAt (ap_user d)) (Date_toISOString t));
                   phone := None; city := None; isResident := None |};
              tokens :=
                {| accessToken := accessToken (ap_tokens d);
                   refreshToken := refreshToken (ap_tokens d);
                   expiresIn := expiresIn (ap_tokens d) |} |} in
         Promise_all [ setTokens rejects (tokens authResponse);
                       setUserData rejects (user authResponse) ] ;;;
         ret authResponse
     | _, _ =>
         throw (Error (JS.or_str (Some (api_message response)) "Login failed"))
     end)
    (fun error => throw (handleAuthError error)).

Definition logout : M unit :=
  try_catch
    (try_catch
       (_ <- request POST "/auth/logout" None (post_void httpClient "/auth/logout") ;;
        ret tt)
       (fun serverError => ret tt) ;;;
     clearAll rejects ;;;
     removeAuthToken)
    (fun error =>
       clearAll rejects ;;;
       removeAuthToken ;;;
       throw (handleAuthError error)).

Definition refreshTokens : M TokenData :=
  try_catch
    (refreshToken <- getRefreshToken rejects ;;
     if negb (JS.truthy refreshToken) then
       throw (Error "No refresh token available")
     else
       let body := RefreshBody (default "" refreshToken) in
       response <- request POST_PUBLIC "/auth/refresh" (Some body)
                     (postPublic_tokens httpClient "/auth/refresh" body) ;;
       match success response, data response with
       | true, Some (Some newTokens) =>
           setTokens rejects newTokens ;;;
           ret newTokens
       | _, _ =>
           throw (Error (JS.or_str (Some (api_message response)) "Token refresh failed"))
       end)
    (fun error =>
       clearAll rejects ;;;
       throw (handleAuthError error)).

Definition getCurrentUser : M UserData :=
  try_catch
    (response <- request GET "/auth/me" None (get_user httpClient "/auth/me") ;;
     match success response, data response with
     | true, Some (Some u) =>
         setUserData rejects u ;;;
         ret u
     | _, _ =>
         throw (Error (JS.or_str (Some (api_message response)) "Failed to get user profile"))
     end)
    (fun error => throw (handleAuthError error)).

Definition verifySession : M bool :=
  try_catch
    (hasTokens <- hasStoredTokens rejects ;;
     if negb hasTokens then ret false
     else
       isExpired <- isTokenExpired rejects ;;
       if isExpired then
         try_catch (_ <- refreshTokens ;; ret true) (fun _ => ret false)
       else
         try_catch (_ <- getCurrentUser ;; ret true) (fun _ => ret false))
    (fun _ => ret false).

End WithClient.

End AuthService.

(** The HTTP requests among a run's events. *)
Definition is_http {B} (e : Event B) : bool :=
  match e with EvHttp _ _ _ => true | _ => false end.

Definition http_calls {B} (evs : list (Event B)) : list (Event B) :=
  List.filter is_http evs.

(** A platform that accepts every write. *)
Definition writes_accepted (rejects : Platform) : Prop :=
  forall n k v, rejects n (OpSet k v) = false.

(** A platform that accepts every delete. *)
Definition deletes_accepted (rejects : Platform) : Prop :=
  forall n k, rejects n (OpDelete k) = false.

(** The four keys of the persisted record are absent. *)
Definition record_cleared (w : World) : Prop :=
  forall k, In k SecureStorage.TOKEN_KEYS -> store w !! k = None.

(** ** Test doubles, to run the service on concrete inputs *)

(** A client that answers every request with a fixed result and leaves
    the world alone. *)
Definition fixed_client
    (auth : Result (ApiResponse AuthPayload))
    (refreshed : Result (ApiResponse (option TokenData)))
    (me : Result (ApiResponse (option UserData)))
    (out : Result (ApiResponse unit)) : HttpClient :=
  {| postPublic_auth := fun _ _ w => (auth, w);
     postPublic_tokens := fun _ _ w => (refreshed, w);
     get_user := fun _ w => (me, w);
     post_void := fun _ w => (out, w) |}.

(** What axios rejects with when the backend cannot be reached. *)
Definition network_error : Thrown :=
  {| response_data := None; message := Some "Network Error";
     code := Some "ERR_NETWORK"; field := None |}.

Definition offline_client : HttpClient :=
  fixed_client (Throw network_error) (Throw network_error)
               (Throw network_error) (Throw network_error).

(** A stand-in for the runtime's serialisers. *)
Definition demo_runtime : Runtime :=
  {| JSON_stringify := fun u => (id u ++ "/" ++ email u ++ "/" ++
        match isResident u with Some true => "resident" | Some false => "visitor" | None => "" end)%string;
     Date_toISOString := fun t => JS.toString (JS.Num t) |}.

Definition reliable : Platform := fun _ _ => false.

Definition demo_tokens : TokenData :=
  {| accessToken := "temp_access_1"; refreshToken := "temp_refresh_1"; expiresIn := "15d" |}.

Definition logged_in_store : gmap string string :=
  <[SecureStorage.ACCESS_TOKEN := "temp_access_0"]>
  (<[SecureStorage.REFRESH_TOKEN := "temp_refresh_0"]>
  (<[SecureStorage.TOKEN_EXPIRY := "1700000900000"]>
  (<[SecureStorage.USER_DATA := "u1/felipe@gmail.com/"]> ∅))).

Definition logged_in (t : Z) : World :=
  {| store := logged_in_store; now := t; sops := 0; authHeader := Some "Bearer temp_access_0" |}.

Definition fresh_install (t : Z) : World :=
  {| store := ∅; now := t; sops := 0; authHeader := None |}.

(** All four keys of the persisted record hold the session [t], [u] (the
    expiry computed at time [at_time]). *)
Definition record_holds (t : TokenData) (u : string) (at_time : Z) (w : World) : Prop :=
  store w !! SecureStorage.ACCESS_TOKEN = Some (accessToken t)
  /\ store w !! SecureStorage.REFRESH_TOKEN = Some (refreshToken t)
  /\ store w !! SecureStorage.TOKEN_EXPIRY
     = Some (SecureStorage.calculateExpiryTimestamp at_time (expiresIn t))
  /\ store w !! SecureStorage.USER_DATA = Some u.

Definition demo_user : UserData :=
  {| id := "u1"; name := "Felipe Sanchez"; email := "felipe@gmail.com"; role := "user";
     isEmailVerified := false; phone := None; city := None; isResident := None;
     createdAt := "2025-09-14T22:44:41.754Z"; lastLoginAt := None |}.

(** A backend that is up: it registers and logs in [u1], refreshes to
    [demo_tokens] and serves the profile. *)
Definition online_client : HttpClient :=
  fixed_client
    (Ok {| success := true; api_message := "ok";
           data := Some {| ap_user := {| au_id := "u1"; au_name := "Felipe Sanchez";
                                         au_email := "felipe@gmail.com"; au_role := "user";
                                         au_isEmailVerified := false;
                                         au_createdAt := None; au_lastLoginAt := None |};
                           ap_tokens := demo_tokens |} |})
    (Ok {| success := true; api_message := "ok"; data := Some (Some demo_tokens) |})
    (Ok {| success := true; api_message := "ok"; data := Some (Some demo_user) |})
    (Ok {| success := true; api_message := "ok"; data := Some tt |}).

(** A platform that rejects every write of the expiry key. *)
Definition expiry_write_fails : Platform := fun _ op =>
  match op with
  | OpSet k _ => String.eqb k SecureStorage.TOKEN_EXPIRY
  | _ => false
  end.

Definition visitor : RegisterData :=
  {| rd_name := "Felipe Sanchez"; rd_email := "felipe@gmail.com"; rd_password := "123456789";
     rd_phone := None; rd_city := Some "Bogota"; rd_isResident := Some false;
     rd_role := None |}.

(** A backend that rejects the refresh token. *)
Definition rejecting_client : HttpClient :=
  fixed_client
    (Ok {| success := false; api_message := "Invalid credentials"; data := None |})
    (Ok {| success := false; api_message := "Invalid refresh token"; data := None |})
    (Ok {| success := false; api_message := "Unauthorized"; data := None |})
    (Ok {| success := false; api_message := "Unauthorized"; data := None |}).

Definition demo_credentials : LoginCredentials :=
  {| lc_email := "felipe@gmail.com"; lc_password := "123456789" |}.

(** ** context/auth-context.tsx: the session reducer *)

Module AuthContext.

(** [enum AuthState] of the auth service. *)
Inductive AuthState := IDLE | LOADING | AUTHENTICATED | UNAUTHENTICATED | ERROR.

Record AuthContextState := mkState {
  state : AuthState;
  isLoading : bool;
  isAuthenticated : bool;
  user : option UserData;
  error : option string;
  isInitialized : bool }.

Inductive AuthAction :=
| SET_LOADING (payload : bool)
| SET_ERROR (payload : option string)
| SET_AUTHENTICATED (user : UserData)
| SET_UNAUTHENTICATED
| SET_INITIALIZED (payload : bool)
| CLEAR_ERROR
| UPDATE_USER (payload : UserData).

Definition initialState : AuthContextState :=
  {| state := IDLE;
     isLoading := true;
     isAuthenticated := false;
     user := None;
     error := None;
     isInitialized := false |}.

Definition authReducer (s : AuthContextState) (action : AuthAction) : AuthContextState :=
  match action with
  | SET_LOADING payload =>
      {| state := if payload then LOADING else state s;
         isLoading := payload;
         isAuthenticated := isAuthenticated s; user := user s; error := error s;
         isInitialized := isInitialized s |}
  | SET_ERROR payload =>
      {| state := if JS.truthy payload then ERROR else state s;
         isLoading := false;
         error := payload;
         isAuthenticated := isAuthenticated s; user := user s;
         isInitialized := isInitialized s |}
  | SET_AUTHENTICATED u =>
      {| state := AUTHENTICATED;
         isLoading := false;
         isAuthenticated := true;
         user := Some u;
         error := None;
         isInitialized := true |}
  | SET_UNAUTHENTICATED =>
      {| state := UNAUTHENTICATED;
         isLoading := false;
         isAuthenticated := false;
         user := None;
         error := None;
         isInitialized := true |}
  | SET_INITIALIZED payload =>
      {| isInitialized := payload;
         isLoading := if payload then isLoading s else false;
         state := state s; isAuthenticated := isAuthenticated s; user := user s;
         error := error s |}
  | CLEAR_ERROR =>
      {| error := None;
         state := if isAuthenticated s then AUTHENTICATED else UNAUTHENTICATED;
         isLoading := isLoading s; isAuthenticated := isAuthenticated s; user := user s;
         isInitialized := isInitialized s |}
  | UPDATE_USER payload =>
      {| user := Some payload;
         state := state s; isLoading := isLoading s; isAuthenticated := isAuthenticated s;
         error := error s; isInitialized := isInitialized s |}
  end.

(** The states the reducer reaches from the initial state. *)
Inductive reachable : AuthContextState -> Prop :=
| reach_init : reachable initialState
| reach_step s action : reachable s -> reachable (authReducer s action).

(** The actions [refreshSession] dispatches before its first [await],
    applied to the state a successful [login] leaves: the session is
    still the logged-in user's, the status is [LOADING]. *)
Definition refreshing (u : UserData) : AuthContextState :=
  authReducer
    (authReducer (authReducer (authReducer initialState (SET_LOADING true)) CLEAR_ERROR)
                 (SET_AUTHENTICATED u))
    (SET_LOADING true).

End AuthContext.

(** ** hooks/use-api-mutation.ts: the mutation executor *)

Module Mutation.
Section Executor.
Context {TData TVariables E : Type}.

(** What the executor can throw: a value [mutationFn] rejected with, or
    its own [new Error('Mutation was cancelled')]. *)
Inductive MError := FnError (e : E) | Cancelled.

Inductive Settled := Resolved (result : TData) | Rejected (e : E).

(** [MutationState<TData>] *)
Record MutationState := mkState {
  data : option TData;
  error : option MError;
  isLoading : bool;
  isError : bool;
  isSuccess : bool;
  isIdle : bool;
  attemptCount : Z }.

(** [retry?: number | boolean] *)
Inductive Retry := RetryBool (b : bool) | RetryNum (n : Z).

(** [retryDelay?: number | ((attemptIndex: number) => number)] *)
Inductive RetryDelay := DelayMs (ms : Z) | DelayFn (f : Z -> Z).

(** The options other than [mutationFn]; a callback is represented by
    whether it is configured, its calls are logged. *)
Record Options := mkOptions {
  retry : Retry;
  retryDelay : RetryDelay;
  showErrorAlert : bool;
  optimisticUpdate : bool;
  revertOptimisticUpdate : bool;
  onSuccess : bool;
  onError : bool;
  onSettled : bool }.

(** Calls the executor makes to the outside, in order. *)
Inductive Call :=
| CallMutationFn (variables : TVariables)
| CallOptimisticUpdate (variables : TVariables)
| CallRevertOptimisticUpdate
| CallAlert
| CallOnSuccess (d : TData) (variables : TVariables)
| CallOnError (e : MError) (variables : TVariables)
| CallOnSettled (d : option TData) (e : option MError) (variables : TVariables)
| CallSetTimeout (delay : Z).

(** One instance of the hook: the live React state, the two refs, and
    the log of calls. *)
Record Hook := mkHook {
  state : MutationState;
  cancelRef : bool;
  currentVariablesRef : option TVariables;
  calls : list Call }.

(** What happens while the executor is suspended: how the i-th
    invocation of [mutationFn] settles, and whether [cancel()] is
    called while it is pending or during the delay that follows it. *)
Record Env := mkEnv {
  settles : nat -> Settled;
  cancel_during_call : nat -> bool;
  cancel_during_delay : nat -> bool }.

Definition idle : MutationState :=
  {| data := None; error := None; isLoading := false; isError := false;
     isSuccess := false; isIdle := true; attemptCount := 0 |}.

(** The hook as [useState] and [useRef] initialise it. *)
Definition mounted : Hook :=
  {| state := idle; cancelRef := false; currentVariablesRef := None; calls := [] |}.

Definition setState (f : MutationState -> MutationState) (h : Hook) : Hook :=
  {| state := f (state h); cancelRef := cancelRef h;
     currentVariablesRef := currentVariablesRef h; calls := calls h |}.

Definition log (c : Call) (h : Hook) : Hook :=
  {| state := state h; cancelRef := cancelRef h;
     currentVariablesRef := currentVariablesRef h; calls := calls h ++ [c] |}.

Definition log_if (b : bool) (c : Call) (h : Hook) : Hook := if b then log c h else h.

(** The number of invocations of [mutationFn] so far. *)
Definition invocations (h : Hook) : nat :=
  List.length (List.filter (fun c => match c with CallMutationFn _ => true | _ => false end)
                           (calls h)).

(** [cancel()] *)
Definition cancel (h : Hook) : Hook :=
  setState (fun prev =>
    {| isLoading := false;
       data := data prev; error := error prev; isError := isError prev;
       isSuccess := isSuccess prev; isIdle := isIdle prev;
       attemptCount := attemptCount prev |})
    {| state := state h; cancelRef := true;
       currentVariablesRef := currentVariablesRef h; calls := calls h |}.

Definition cancel_if (b : bool) (h : Hook) : Hook := if b then cancel h else h.

Section Run.
Context (options : Options) (env : Env).

(** [executeWithRetry] up to its first suspension (lines 92-104):
    the cancellation check, the attempt counter, and the call of
    [mutationFn]. [None] when it throws the cancellation error. *)
Definition invoke (variables : TVariables) (currentAttempt : Z) (h : Hook) : option Hook :=
  if cancelRef h then None
  else
    Some (log (CallMutationFn variables)
           (setState (fun prev =>
              {| attemptCount := currentAttempt;
                 data := data prev; error := error prev; isLoading := isLoading prev;
                 isError := isError prev; isSuccess := isSuccess prev;
                 isIdle := isIdle prev |}) h)).

(** [executeWithRetry]; [None] when the fuel runs out (with
    [retry: true] and an operation that always fails the recursion
    does not end). *)
Fixpoint executeWithRetry (fuel : nat) (variables : TVariables) (currentAttempt : Z)
    (h : Hook) : option ((TData + MError) * Hook) :=
  match fuel with
  | O => None
  | S fuel' =>
      match invoke variables currentAttempt h with
      | None => Some (inr Cancelled, h)
      | Some h1 =>
          let i := invocations h in
          (* await mutationFn(variables) *)
          let h2 := cancel_if (cancel_during_call env i) h1 in
          let caught (error : MError) :=
            let shouldRetry :=
              match retry options with
              | RetryBool b => b
              | RetryNum n => currentAttempt <=? n
              end in
            if shouldRetry && negb (cancelRef h2) then
              let delay :=
                match retryDelay options with
                | DelayFn f => f (currentAttempt - 1)
                | DelayMs ms => ms
                end in
              (* await new Promise(resolve => setTimeout(resolve, delay)) *)
              let h3 := cancel_if (cancel_during_delay env i) (log (CallSetTimeout delay) h2) in
              executeWithRetry fuel' variables (currentAttempt + 1) h3
            else Some (inr error, h2) in
          match settles env i with
          | Resolved result =>
              if cancelRef h2 then caught Cancelled else Some (inl result, h2)
          | Rejected e => caught (FnError e)
          end
      end
  end.

(** [mutate], lines 138-157: what it does before calling
    [executeWithRetry] when the guard lets it through. *)
Definition prepare (variables : TVariables) (h : Hook) : Hook :=
  log_if (optimisticUpdate options) (CallOptimisticUpdate variables)
    (setState (fun prev =>
       {| isLoading := true; isError := false; isSuccess := false; isIdle := false;
          error := None;
          data := data prev; attemptCount := attemptCount prev |})
       {| state := state h; cancelRef := false;
          currentVariablesRef := Some variables; calls := calls h |}).

(** [mutate], lines 159-231: what it does with the outcome of
    [executeWithRetry]. [rendered] is the state the callback closed
    over. *)
Definition settle (rendered : MutationState) (variables : TVariables)
    (r : TData + MError) (h : Hook) : Hook :=
  let h1 :=
    match r with
    | inl d =>
        if negb (cancelRef h) then
          log_if (onSuccess options) (CallOnSuccess d variables)
            (setState (fun prev =>
               {| data := Some d; isLoading := false; isSuccess := true; error := None;
                  isError := isError prev; isIdle := isIdle prev;
                  attemptCount := attemptCount prev |}) h)
        else h
    | inr finalError =>
        if negb (cancelRef h) then
          log_if (onError options) (CallOnError finalError variables)
            (log_if (showErrorAlert options) CallAlert
              (log_if (revertOptimisticUpdate options) CallRevertOptimisticUpdate
                (setState (fun prev =>
                   {| error := Some finalError; isLoading := false; isError := true;
                      data := data prev; isSuccess := isSuccess prev; isIdle := isIdle prev;
                      attemptCount := attemptCount prev |}) h)))
        else h
    end in
  log_if (negb (cancelRef h1) && onSettled options)
         (CallOnSettled (data rendered) (error rendered) variables) h1.

(** [mutate], run to the end. The guard reads [state.isLoading] of
    the render the callback was created in ([useCallback] lists
    [state] among its dependencies), not the live state. *)
Definition mutate (fuel : nat) (rendered : MutationState) (variables : TVariables)
    (h : Hook) : option Hook :=
  if isLoading rendered then Some h
  else
    match executeWithRetry fuel variables 1 (prepare variables h) with
    | None => None
    | Some (r, h') => Some (settle rendered variables r h')
    end.

(** [mutate] up to its first suspension: the hook as it is when the
    call returns its pending promise to the caller. *)
Definition mutate_pending (rendered : MutationState) (variables : TVariables)
    (h : Hook) : Hook :=
  if isLoading rendered then h
  else
    match invoke variables 1 (prepare variables h) with
    | Some h' => h'
    | None => prepare variables h
    end.

End Run.

(** The options [useAuthMutation] passes. *)
Definition useAuthMutation_options : Options :=
  {| retry := RetryNum 2;
     retryDelay := DelayFn (fun attemptIndex => Z.min (1000 * 2 ^ attemptIndex) 5000);
     showErrorAlert := false;
     optimisticUpdate := false; revertOptimisticUpdate := false;
     onSuccess := false; onError := false; onSettled := false |}.

(** No [cancel()] during the run. *)
Definition undisturbed (env : Env) : Prop :=
  forall i, cancel_during_call env i = false /\ cancel_during_delay env i = false.

End Executor.
Arguments MError : clear implicits.
Arguments Settled : clear implicits.
Arguments MutationState : clear implicits.
Arguments Call : clear implicits.
Arguments Hook : clear implicits.
Arguments Env : clear implicits.
End Mutation.

(** An operation that fails twice and then succeeds, and one that always
    fails, with nobody cancelling. *)
Definition flaky : Mutation.Env string string :=
  {| Mutation.settles := fun i =>
       match i with
       | O => Mutation.Rejected "timeout"
       | S O => Mutation.Rejected "503"
       | _ => Mutation.Resolved "ok"
       end;
     Mutation.cancel_during_call := fun _ => false;
     Mutation.cancel_during_delay := fun _ => false |}.

Definition attempt_error (i : nat) : string :=
  ("attempt " ++ NilEmpty.string_of_uint (Nat.to_uint (S i)) ++ " failed")%string.

Definition broken : Mutation.Env string string :=
  {| Mutation.settles := fun i => Mutation.Rejected (attempt_error i);
     Mutation.cancel_during_call := fun _ => false;
     Mutation.cancel_during_delay := fun _ => false |}.

(** ** services/http-client.ts: the 401 interceptor

    The response interceptor is [async]: between two [await]s it runs
    without interruption, and at each [await] other responses may be
    handled. The client is modelled as a transition system whose events
    are the completions the event loop delivers: a response arriving for
    a request in flight, and the settling of each [await] of the request
    that runs the refresh. The request interceptor, which re-attaches
    the stored access token to a request being sent, is left out: a
    request is re-sent with the header its handler wrote. *)

Module HttpClient.

(** Why the refresh failed ([refreshError]). *)
Inductive RefreshError :=
| NoRefreshToken        (* new Error("No refresh token available") *)
| RefreshRejected       (* the refresh request failed or was refused *)
| StoreFailed.          (* setTokens threw *)

Inductive Failure :=
| HttpError (status : Z)              (* handleError of a server response *)
| NetworkError                        (* no response received *)
| RefreshFailed (e : RefreshError).

(** Where the request that runs the refresh is suspended. *)
Inductive Stage :=
| ReadingToken                        (* await secureTokenStorage.getRefreshToken() *)
| Refreshing                          (* await this.refreshTokens(refreshToken) *)
| Storing (newTokens : TokenData)     (* await secureTokenStorage.setTokens(newTokens) *)
| Clearing (e : RefreshError).        (* await secureTokenStorage.clearAll() *)

Inductive Phase :=
| InFlight                            (* sent, no response yet *)
| Queued                              (* its promise waits in failedQueue *)
| Refresher (stage : Stage)           (* its handler runs the refresh *)
| Fulfilled
| Failed (f : Failure).

(** [originalRequest] with the two fields the interceptor writes. *)
Record Request := mkRequest {
  _retry : bool;
  Authorization : option string;
  phase : Phase }.

Record Client := mkClient {
  isRefreshing : bool;
  failedQueue : list nat;
  requests : list Request;
  refreshCalls : nat        (* POST /auth/refresh requests made so far *) }.

(** The client as its constructor leaves it. *)
Definition created : Client :=
  {| isRefreshing := false; failedQueue := []; requests := []; refreshCalls := 0 |}.

Inductive Reply := Status (code : Z) | NoResponse.

Inductive Event :=
| Send (authorization : option string)
| Response (r : nat) (reply : Reply)
| TokenRead (r : nat) (refreshToken : option string)
| RefreshResponse (r : nat) (newTokens : option TokenData)
| TokensStored (r : nat) (ok : bool)
| Cleared (r : nat).

Definition set_phase (p : Phase) (q : Request) : Request :=
  {| _retry := _retry q; Authorization := Authorization q; phase := p |}.

Definition resend (token : string) (q : Request) : Request :=
  {| _retry := _retry q; Authorization := Some ("Bearer " ++ token)%string; phase := InFlight |}.

Definition update (r : nat) (f : Request -> Request) (c : Client) : Client :=
  {| isRefreshing := isRefreshing c; failedQueue := failedQueue c;
     requests := alter f r (requests c); refreshCalls := refreshCalls c |}.

(** [processQueue(token, error)], together with the continuation each
    queued promise carries (lines 87-93): on an error the request is
    rejected with it; on a token it is re-sent with it; on an empty
    token it is rejected with its own 401. *)
Definition processQueue (token : option string) (error : option RefreshError)
    (c : Client) : Client :=
  let settle (q : Request) : Request :=
    match error with
    | Some e => set_phase (Failed (RefreshFailed e)) q
    | None =>
        if JS.truthy token then resend (default "" token) q
        else set_phase (Failed (HttpError 401)) q
    end in
  {| isRefreshing := isRefreshing c;
     failedQueue := [];
     requests := foldl (fun reqs r => alter settle r reqs) (requests c) (failedQueue c);
     refreshCalls := refreshCalls c |}.

(** The [catch] block up to its [await]. *)
Definition fail_refresh (r : nat) (e : RefreshError) (c : Client) : Client :=
  update r (set_phase (Refresher (Clearing e))) (processQueue None (Some e) c).

Definition phase_of (c : Client) (r : nat) : option Phase :=
  phase <$> requests c !! r.

(** The error handler of the response interceptor, up to its first
    [await] (lines 78-100). *)
Definition on_response (r : nat) (reply : Reply) (c : Client) : Client :=
  match requests c !! r with
  | Some originalRequest =>
      match phase originalRequest, reply with
      | InFlight, Status code =>
          if (200 <=? code) && (code <? 300) then update r (set_phase Fulfilled) c
          else if (code =? 401) && negb (_retry originalRequest) then
            if isRefreshing c then
              {| isRefreshing := isRefreshing c;
                 failedQueue := failedQueue c ++ [r];
                 requests := alter (set_phase Queued) r (requests c);
                 refreshCalls := refreshCalls c |}
            else
              {| isRefreshing := true;
                 failedQueue := failedQueue c;
                 requests :=
                   alter (fun q => {| _retry := true; Authorization := Authorization q;
                                      phase := Refresher ReadingToken |}) r (requests c);
                 refreshCalls := refreshCalls c |}
          else update r (set_phase (Failed (HttpError code))) c
      | InFlight, NoResponse => update r (set_phase (Failed NetworkError)) c
      | _, _ => c
      end
  | None => c
  end.

(** One event. The code a completion resumes runs to its next
    [await] (or to the end of the handler) without interruption, and
    the continuations of the promises it settles run before the next
    completion is delivered: when [setTokens] settles, the queue is
    processed, the refresher is re-sent, the flag is lowered and the
    queued requests are re-sent, all in one step. An event that
    matches no suspended code changes nothing. *)
Definition step (c : Client) (ev : Event) : Client :=
  match ev with
  | Send authorization =>
      {| isRefreshing := isRefreshing c; failedQueue := failedQueue c;
         requests := requests c ++
           [ {| _retry := false; Authorization := authorization; phase := InFlight |} ];
         refreshCalls := refreshCalls c |}
  | Response r reply => on_response r reply c
  | TokenRead r refreshToken =>
      match phase_of c r with
      | Some (Refresher ReadingToken) =>
          if JS.truthy refreshToken then
            {| isRefreshing := isRefreshing c; failedQueue := failedQueue c;
               requests := alter (set_phase (Refresher Refreshing)) r (requests c);
               refreshCalls := S (refreshCalls c) |}
          else fail_refresh r NoRefreshToken c
      | _ => c
      end
  | RefreshResponse r newTokens =>
      match phase_of c r with
      | Some (Refresher Refreshing) =>
          match newTokens with
          | Some t => update r (set_phase (Refresher (Storing t))) c
          | None => fail_refresh r RefreshRejected c
          end
      | _ => c
      end
  | TokensStored r ok =>
      match phase_of c r with
      | Some (Refresher (Storing newTokens)) =>
          if ok then
            let c1 := processQueue (Some (accessToken newTokens)) None c in
            {| isRefreshing := false;
               failedQueue := failedQueue c1;
               requests := alter (resend (accessToken newTokens)) r (requests c1);
               refreshCalls := refreshCalls c1 |}
          else fail_refresh r StoreFailed c
      | _ => c
      end
  | Cleared r =>
      match phase_of c r with
      | Some (Refresher (Clearing e)) =>
          {| isRefreshing := false;
             failedQueue := failedQueue c;
             requests := alter (set_phase (Failed (RefreshFailed e))) r (requests c);
             refreshCalls := refreshCalls c |}
      | _ => c
      end
  end.

Definition run (c : Client) (evs : list Event) : Client := foldl step c evs.

Inductive reachable : Client -> Prop :=
| reach_created : reachable created
| reach_step c ev : reachable c -> reachable (step c ev).

Definition is_refresher (q : Request) : bool :=
  match phase q with Refresher _ => true | _ => false end.

(** The events of the request [r] that runs the refresh, up to and
    including the one that settles the queue, for the answers the
    store and the backend give; and the event left after it. *)
Definition refresh_script (r : nat) (refreshToken : option string)
    (newTokens : option TokenData) (stored : bool) : list Event :=
  TokenRead r refreshToken ::
  (if JS.truthy refreshToken then
     RefreshResponse r newTokens ::
     match newTokens with
     | Some _ => [TokensStored r stored]
     | None => []
     end
   else []).

Definition refresh_succeeds (refreshToken : option string)
    (newTokens : option TokenData) (stored : bool) : option TokenData :=
  if JS.truthy refreshToken && stored then newTokens else None.

Definition refresh_tail (r : nat) (refreshToken : option string)
    (newTokens : option TokenData) (stored : bool) : list Event :=
  match refresh_succeeds refreshToken newTokens stored with
  | Some _ => []
  | None => [Cleared r]
  end.

(** At most one request runs a refresh, and none when the flag is
    down. *)
Definition exclusive (c : Client) : Prop :=
  (isRefreshing c = false ->
   forall r q, requests c !! r = Some q -> is_refresher q = false)
  /\ (forall r1 r2 q1 q2,
        requests c !! r1 = Some q1 -> requests c !! r2 = Some q2 ->
        is_refresher q1 = true -> is_refresher q2 = true -> r1 = r2).

(** Two requests sent with the same stale token. *)
Definition two_in_flight (authorization : option string) : Client :=
  run created [Send authorization; Send authorization].

End HttpClient.

(** * The rest of the session core *)

(** ** More of the runtime *)

Module JSMath.

Definition sub (a b : JS.number) : JS.number :=
  match a, b with JS.Num x, JS.Num y => JS.Num (x - y) | _, _ => JS.NaN end.

(** [Math.floor(a / d)] for an integer constant [d > 0]. *)
Definition floor_div (a : JS.number) (d : Z) : JS.number :=
  match a with JS.Num x => JS.Num (x / d) | JS.NaN => JS.NaN end.

(** [Math.max(a, b)]: NaN when either is. *)
Definition max (a b : JS.number) : JS.number :=
  match a, b with JS.Num x, JS.Num y => JS.Num (Z.max x y) | _, _ => JS.NaN end.

(** [a < b]: false when either is NaN. *)
Definition lt (a b : JS.number) : bool :=
  match a, b with JS.Num x, JS.Num y => x <? y | _, _ => false end.

End JSMath.

(** The milliseconds of the unit suffixes, as the [switch] of
    [calculateExpiryTimestamp] has them. *)
Definition unit_millis (u : ascii) : option Z :=
  if Ascii.eqb u "s" then Some 1000
  else if Ascii.eqb u "m" then Some (60 * 1000)
  else if Ascii.eqb u "h" then Some (60 * 60 * 1000)
  else if Ascii.eqb u "d" then Some (24 * 60 * 60 * 1000)
  else None.

(** ** services/secure-storage.ts and services/auth-service.ts, continued *)

Module SessionExpiry.
Import SecureStorage.

Section WithPlatform.
Context {B : Type} (rejects : Platform).
Local Open Scope m_scope.
Local Abbreviation M := (@M B).

(** Obtiene el tiempo restante de expiración en minutos *)
Definition getTimeUntilExpiry : M JS.number :=
  try_catch
    (expiryTimestamp <- getItemAsync rejects TOKEN_EXPIRY ;;
     if negb (JS.truthy expiryTimestamp) then ret (JS.Num 0)
     else
       t <- get_now ;;
       let expiry := JS.parseInt (default "" expiryTimestamp) in
       let diffMs := JSMath.sub expiry (JS.Num t) in
       ret (JSMath.max (JS.Num 0) (JSMath.floor_div diffMs (60 * 1000))))
    (fun _ => ret (JS.Num 0)).

(** [AuthService.shouldRefreshToken] *)
Definition shouldRefreshToken : M bool :=
  try_catch
    (timeUntilExpiry <- getTimeUntilExpiry ;;
     ret (JSMath.lt timeUntilExpiry (JS.Num 5)))
    (fun _ => ret false).

End WithPlatform.

(** [AuthService.clearLocalSession] *)
Definition clearLocalSession (rejects : Platform) : @M Body unit :=
  bind (clearAll rejects) (fun _ => AuthService.removeAuthToken).

End SessionExpiry.

(** The world at a later time, the store as it is. *)
Definition at_time (t : Z) (w : World) : World :=
  {| store := store w; now := t; sops := sops w; authHeader := authHeader w |}.

(** ** context/auth-context.tsx: the provider's actions

    Each action runs the service in the world and dispatches to the
    reducer; [router.replace] is logged. The state is threaded through
    the dispatches in the order the code makes them. *)

Module AuthProvider.

(** What an action leaves behind: how its promise settles, the reducer
    state after its dispatches, the world, the events of the service and
    the routes it replaced the screen with. *)
Record Outcome := mkOutcome {
  settled : Result unit;
  context : AuthContext.AuthContextState;
  world : World;
  events : list (Event Body);
  navigations : list string }.

Section WithService.
Context (rejects : Platform) {rt : Runtime} (httpClient : HttpClient).

Definition dispatch (s : AuthContext.AuthContextState) (action : AuthContext.AuthAction)
    : AuthContext.AuthContextState :=
  AuthContext.authReducer s action.

Definition initializeAuth (s : AuthContext.AuthContextState) (w : World) : Outcome :=
  let s := dispatch s (AuthContext.SET_LOADING true) in
  match AuthService.verifySession rejects httpClient w with
  | (Ok true, w1, ev1) =>
      match AuthService.getCurrentUser rejects httpClient w1 with
      | (Ok user, w2, ev2) =>
          mkOutcome (Ok tt) (dispatch s (AuthContext.SET_AUTHENTICATED user)) w2 (ev1 ++ ev2) []
      | (Throw _, w2, ev2) =>
          mkOutcome (Ok tt) (dispatch s AuthContext.SET_UNAUTHENTICATED) w2 (ev1 ++ ev2) []
      end
  | (Ok false, w1, ev1) => mkOutcome (Ok tt) (dispatch s AuthContext.SET_UNAUTHENTICATED) w1 ev1 []
  | (Throw _, w1, ev1) => mkOutcome (Ok tt) (dispatch s AuthContext.SET_UNAUTHENTICATED) w1 ev1 []
  end.

Definition login (credentials : LoginCredentials) (s : AuthContext.AuthContextState)
    (w : World) : Outcome :=
  let s := dispatch (dispatch s (AuthContext.SET_LOADING true)) AuthContext.CLEAR_ERROR in
  match AuthService.login rejects httpClient credentials w with
  | (Ok authResponse, w1, ev1) =>
      mkOutcome (Ok tt) (dispatch s (AuthContext.SET_AUTHENTICATED (user authResponse))) w1 ev1 []
  | (Throw error, w1, ev1) =>
      let errorMessage := JS.or_str (message error) "Error al iniciar sesión" in
      mkOutcome (Throw error) (dispatch s (AuthContext.SET_ERROR (Some errorMessage))) w1 ev1 []
  end.

Definition logout (s : AuthContext.AuthContextState) (w : World) : Outcome :=
  let s := dispatch s (AuthContext.SET_LOADING true) in
  match AuthService.logout rejects httpClient w with
  | (Ok _, w1, ev1) =>
      mkOutcome (Ok tt) (dispatch s AuthContext.SET_UNAUTHENTICATED) w1 ev1 ["/auth/login"]
  | (Throw _, w1, ev1) =>
      mkOutcome (Ok tt) (dispatch s AuthContext.SET_UNAUTHENTICATED) w1 ev1 []
  end.

Definition refreshSession (s : AuthContext.AuthContextState) (w : World) : Outcome :=
  let s := dispatch s (AuthContext.SET_LOADING true) in
  match AuthService.refreshTokens rejects httpClient w with
  | (Ok _, w1, ev1) =>
      match AuthService.getCurrentUser rejects httpClient w1 with
      | (Ok user, w2, ev2) =>
          mkOutcome (Ok tt) (dispatch s (AuthContext.SET_AUTHENTICATED user)) w2 (ev1 ++ ev2) []
      | (Throw _, w2, ev2) =>
          mkOutcome (Ok tt) (dispatch s AuthContext.SET_UNAUTHENTICATED) w2 (ev1 ++ ev2) []
      end
  | (Throw _, w1, ev1) => mkOutcome (Ok tt) (dispatch s AuthContext.SET_UNAUTHENTICATED) w1 ev1 []
  end.

(** [checkTokenRefresh], the body of the five-minute timer. *)
Definition checkTokenRefresh (s : AuthContext.AuthContextState) (w : World) : Outcome :=
  match SessionExpiry.shouldRefreshToken rejects w with
  | (Ok shouldRefresh, w1, ev1) =>
      if shouldRefresh then
        let o := refreshSession s w1 in
        mkOutcome (settled o) (context o) (world o) (ev1 ++ events o) (navigations o)
      else mkOutcome (Ok tt) s w1 ev1 []
  | (Throw _, w1, ev1) => mkOutcome (Ok tt) s w1 ev1 []
  end.

End WithService.

(** The session is over: what [SET_UNAUTHENTICATED] leaves. *)
Definition signed_out : AuthContext.AuthContextState :=
  {| AuthContext.state := AuthContext.UNAUTHENTICATED; AuthContext.isLoading := false;
     AuthContext.isAuthenticated := false; AuthContext.user := None;
     AuthContext.error := None; AuthContext.isInitialized := true |}.

(** A session is on for the user [u]: what [SET_AUTHENTICATED] leaves. *)
Definition signed_in (u : UserData) : AuthContext.AuthContextState :=
  {| AuthContext.state := AuthContext.AUTHENTICATED; AuthContext.isLoading := false;
     AuthContext.isAuthenticated := true; AuthContext.user := Some u;
     AuthContext.error := None; AuthContext.isInitialized := true |}.

End AuthProvider.

(** ** The root navigator's route guard *)

Module AuthNavigator.

(** The first segment of a route ([useSegments()[0]] once the router
    shows it): the text between the leading slash and the next one. *)
Fixpoint upto_slash (s : string) : string :=
  match s with
  | String c r => if Ascii.eqb c "/" then "" else String c (upto_slash r)
  | EmptyString => ""
  end.

Definition segment0 (href : string) : option string :=
  match href with
  | String "/"%char r => if String.eqb (upto_slash r) "" then None else Some (upto_slash r)
  | _ => if String.eqb (upto_slash href) "" then None else Some (upto_slash href)
  end.

Definition is_segment (segment : option string) (name : string) : bool :=
  match segment with
  | Some s => String.eqb s name
  | None => false
  end.

(** The effect of [AuthNavigator]: the route it replaces the screen with,
    if any, given [user], [isLoading] and [segments[0]]. *)
Definition redirect (user : option UserData) (isLoading : bool)
    (segment : option string) : option string :=
  if isLoading then None
  else
    let inAuthGroup := is_segment segment "auth" in
    let inTabsGroup := is_segment segment "(tabs)" in
    let signedIn := match user with Some _ => true | None => false end in
    if signedIn && inAuthGroup then Some "/(tabs)"
    else if negb signedIn && inTabsGroup then Some "/auth/login"
    else if negb signedIn && negb inAuthGroup && negb (is_segment segment "splash")
    then Some "/auth/login"
    else None.

End AuthNavigator.

(** ** The interceptor's queue and marks *)

Module RefreshQueue.
Import HttpClient.

(** [failedQueue] lists exactly the requests whose promise waits for
    the refresh, each once. *)
Definition queue_sound (c : Client) : Prop :=
  NoDup (failedQueue c)
  /\ forall r, r ∈ failedQueue c <-> phase_of c r = Some Queued.

(** The promise of the request has settled. *)
Definition is_settled (p : Phase) : bool :=
  match p with Fulfilled | Failed _ => true | _ => false end.

(** The number of requests that carry the [_retry] mark. *)
Definition marked (c : Client) : nat :=
  length (List.filter _retry (requests c)).

(** The request is about to read the refresh token: its refresh call
    has not been made yet. *)
Definition is_reading (q : Request) : bool :=
  match phase q with Refresher ReadingToken => true | _ => false end.

End RefreshQueue.

(** ** hooks/use-api-mutation.ts: [mutateAsync] *)

Module MutationAsync.
Import Mutation.

Section Async.
Context {TData TVariables E : Type}.

(** Truthiness of a result value ([if (state.data)]). *)
Context (truthy : TData -> bool).

(** What becomes of the promise [mutateAsync] returns. *)
Inductive Promise :=
| Pending
| Resolves (d : TData)
| Rejects (error : MError E).

(** [mutateAsync], lines 236-250: after [mutate] is over the promise is
    settled from [state] as the callback closed over it ([rendered]);
    when neither branch applies it is never settled. *)
Definition mutateAsync (options : Options) (env : Env TData E) (fuel : nat)
    (rendered : MutationState TData E) (variables : TVariables)
    (h : Hook TData TVariables E) : option (Promise * Hook TData TVariables E) :=
  let h0 := {| state := state h; cancelRef := cancelRef h;
               currentVariablesRef := Some variables; calls := calls h |} in
  match mutate options env fuel rendered variables h0 with
  | None => None
  | Some h' =>
      Some (match isError rendered, error rendered with
            | true, Some e => Rejects e
            | _, _ =>
                match data rendered with
                | Some d => if truthy d then Resolves d else Pending
                | None => Pending
                end
            end, h')
  end.

End Async.
Arguments Promise : clear implicits.

End MutationAsync.

(** An operation that succeeds at once. *)
Definition healthy : Mutation.Env string string :=
  {| Mutation.settles := fun _ => Mutation.Resolved "ok";
     Mutation.cancel_during_call := fun _ => false;
     Mutation.cancel_during_delay := fun _ => false |}.

(** The user cancels while the first invocation is pending. *)
Definition impatient : Mutation.Env string string :=
  {| Mutation.settles := fun _ => Mutation.Resolved "ok";
     Mutation.cancel_during_call := fun i => Nat.eqb i 0;
     Mutation.cancel_during_delay := fun _ => false |}.

(** ** The validation helpers of the forms *)

Module Validation.

Definition in_range (lo hi : nat) (c : ascii) : bool :=
  let n := nat_of_ascii c in ((lo <=? n) && (n <=? hi))%nat.

(** The character classes [a-z], [A-Z], [0-9] and [^A-Za-z0-9]. *)
Definition is_lower : ascii -> bool := in_range 97 122.
Definition is_upper : ascii -> bool := in_range 65 90.
Definition is_digit : ascii -> bool := in_range 48 57.
Definition is_special (c : ascii) : bool := negb (is_upper c || is_lower c || is_digit c).

(** [/[class]/.test(s)]: some code unit of [s] is in the class. *)
Fixpoint test (class : ascii -> bool) (s : string) : bool :=
  match s with
  | String c r => class c || test class r
  | EmptyString => false
  end.

Record Checks := mkChecks {
  length_ok : bool;
  lowercase : bool;
  uppercase : bool;
  number : bool;
  special : bool }.

Inductive Strength := weak | medium | strong.

Record PasswordStrength := mkPasswordStrength {
  score : nat;
  checks : Checks;
  strength : Strength;
  isValid : bool }.

(** Valida fortaleza de contraseña *)
Definition validatePasswordStrength (password : string) : PasswordStrength :=
  let score :=
    {| length_ok := (8 <=? String.length password)%nat;
       lowercase := test is_lower password;
       uppercase := test is_upper password;
       number := test is_digit password;
       special := test is_special password |} in
  let strength :=
    List.length (List.filter (fun b : bool => b)
      [length_ok score; lowercase score; uppercase score; number score; special score]) in
  {| score := strength;
     checks := score;
     strength := if (strength <? 2)%nat then weak
                 else if (strength <? 4)%nat then medium else strong;
     isValid := (3 <=? strength)%nat |}.

(** White space for [trim] and [\s], among the code units below 256:
    tab, line feed, vertical tab, form feed, carriage return, space and
    the no-break space. *)
Definition is_space (c : ascii) : bool :=
  let n := nat_of_ascii c in
  ((9 <=? n)%nat && (n <=? 13)%nat) || (n =? 32)%nat || (n =? 160)%nat.

Fixpoint trimStart (s : string) : string :=
  match s with
  | String c r => if is_space c then trimStart r else s
  | EmptyString => EmptyString
  end.

Fixpoint trimEnd (s : string) : string :=
  match s with
  | String c r =>
      let r' := trimEnd r in
      if is_space c && String.eqb r' "" then EmptyString else String c r'
  | EmptyString => EmptyString
  end.

Definition trim (s : string) : string := trimEnd (trimStart s).

(** [s.replace(/\s+/g, " ")]: every maximal run of white space becomes
    one space; [in_run] tells that the run has been replaced already. *)
Fixpoint collapse (in_run : bool) (s : string) : string :=
  match s with
  | String c r =>
      if is_space c then
        if in_run then collapse true r else String " " (collapse true r)
      else String c (collapse false r)
  | EmptyString => EmptyString
  end.

(** Sanitiza input de texto *)
Definition sanitizeTextInput (input : string) : string :=
  collapse false (trim input).

(** A text in the form [sanitizeTextInput] produces: no white space at
    either end, and between words one space each. [after_word] tells
    that the previous code unit was not white space. *)
Fixpoint tidy_from (after_word : bool) (s : string) : bool :=
  match s with
  | String c r =>
      if is_space c then after_word && Ascii.eqb c " " && tidy_from false r
      else tidy_from true r
  | EmptyString => after_word
  end.

Definition tidy (s : string) : bool :=
  match s with
  | EmptyString => true
  | _ => tidy_from false s
  end.

(** [s.replace(/[^class]/g, "")]: the code units in the class. *)
Fixpoint keep (class : ascii -> bool) (s : string) : string :=
  match s with
  | String c r => if class c then String c (keep class r) else keep class r
  | EmptyString => EmptyString
  end.

Definition is_phone_char (c : ascii) : bool := is_digit c || Ascii.eqb c "+".

(** [s.startsWith(prefix)] *)
Fixpoint startsWith (prefix s : string) : bool :=
  match prefix, s with
  | EmptyString, _ => true
  | String a p, String b r => Ascii.eqb a b && startsWith p r
  | String _ _, EmptyString => false
  end.

(** Formatea número de teléfono colombiano *)
Definition formatColombianPhone (phone : string) : string :=
  let cleaned := keep is_phone_char phone in
  let number := substring 3 (String.length cleaned - 3) cleaned in
  if startsWith "+57" cleaned && (10 <=? String.length number)%nat then
    ("+57 " ++ substring 0 3 number ++ " " ++ substring 3 7 number)%string
  else if (String.length cleaned =? 10)%nat && startsWith "3" cleaned then
    ("+57 " ++ substring 0 3 cleaned ++ " "
       ++ substring 3 (String.length cleaned - 3) cleaned)%string
  else phone.

End Validation.

(** ** services/http-client.ts: [postPublic] *)

Module PublicRequest.

Definition is_code (c : option string) (name : string) : bool :=
  match c with
  | Some s => String.eqb s name
  | None => false
  end.

(** The [catch] block of [postPublic]: what it throws for what axios
    threw. The body of an error response is thrown as it is: the thrown
    object has the body's [message], [field] and [code] and no
    [response]. *)
Definition rethrown (error : Thrown) : Thrown :=
  if is_code (code error) "ERR_NETWORK" || is_code (code error) "ECONNREFUSED" then
    {| response_data := None;
       message := Some "No se puede conectar al servidor. Verifica que el backend esté funcionando.";
       code := Some "ERR_NETWORK"; field := None |}
  else
    match response_data error with
    | Some data =>
        {| response_data := None; message := ed_message data;
           code := ed_code data; field := ed_field data |}
    | None => error
    end.

(** [postPublic] over what [axios.post] does. *)
Definition postPublic {T : Type}
    (axios_post : string -> Body -> World -> Result (ApiResponse T) * World)
    (url : string) (data : Body) (w : World) : Result (ApiResponse T) * World :=
  match axios_post url data w with
  | (Ok response, w1) => (Ok response, w1)
  | (Throw error, w1) => (Throw (rethrown error), w1)
  end.

(** The client of the service, with its public requests made through
    [postPublic]. *)
Definition over_axios
    (axios_auth : string -> Body -> World -> Result (ApiResponse AuthPayload) * World)
    (axios_tokens : string -> Body -> World -> Result (ApiResponse (option TokenData)) * World)
    (httpClient : HttpClient) : HttpClient :=
  {| postPublic_auth := postPublic axios_auth;
     postPublic_tokens := postPublic axios_tokens;
     get_user := get_user httpClient;
     post_void := post_void httpClient |}.

End PublicRequest.

(** The backend refuses a registration because of one field. *)
Definition email_taken : Thrown :=
  {| response_data :=
       Some {| ed_message := Some "Ya existe una cuenta con este email";
               ed_field := Some "email"; ed_code := Some "USER_EXISTS" |};
     message := Some "Request failed with status code 409";
     code := Some "ERR_BAD_REQUEST"; field := None |}.

(** ** More test doubles *)

(** Tokens whose duration has a unit but no number. *)
Definition vague_tokens : TokenData :=
  {| accessToken := "temp_access_2"; refreshToken := "temp_refresh_2"; expiresIn := "soonm" |}.

(** The options [useCriticalMutation] passes (the delay is the default
    of [useApiMutation]). *)
Definition useCriticalMutation_options : Mutation.Options :=
  {| Mutation.retry := Mutation.RetryBool false;
     Mutation.retryDelay := Mutation.DelayMs 1000;
     Mutation.showErrorAlert := true;
     Mutation.optimisticUpdate := false; Mutation.revertOptimisticUpdate := false;
     Mutation.onSuccess := false; Mutation.onError := false; Mutation.onSettled := false |}.

(** [retry: true], with an optimistic update and every callback
    configured. *)
Definition stubborn_options : Mutation.Options :=
  {| Mutation.retry := Mutation.RetryBool true;
     Mutation.retryDelay := Mutation.DelayMs 1000;
     Mutation.showErrorAlert := true;
     Mutation.optimisticUpdate := true; Mutation.revertOptimisticUpdate := true;
     Mutation.onSuccess := true; Mutation.onError := true; Mutation.onSettled := true |}.

(** An [axios.post] that always gets the refusal [email_taken]. *)
Definition refusing_axios {T : Type} (url : string) (data : Body) (w : World)
    : Result (ApiResponse T) * World :=
  (Throw email_taken, w).
(** * Properties *)

(** ** Sanity checks of the runtime model *)

Example parseInt_15 : JS.parseInt "15" = JS.Num 15. Proof. reflexivity. Qed.
Example parseInt_neg : JS.parseInt " -7x" = JS.Num (-7). Proof. reflexivity. Qed.
Example parseInt_nan : JS.parseInt "abc" = JS.NaN. Proof. reflexivity. Qed.
Example parseInt_empty : JS.parseInt "" = JS.NaN. Proof. reflexivity. Qed.
Example toString_0 : JS.toString (JS.Num 0) = "0". Proof. reflexivity. Qed.
Example toString_neg : JS.toString (JS.Num (-120)) = "-120". Proof. reflexivity. Qed.
Example slice_ex : JS.slice_init "15m" = "15" /\ JS.slice_last "15m" = "m"
  /\ JS.slice_init "" = "" /\ JS.slice_last "" = "" /\ JS.slice_last "d" = "d".
Proof. repeat split. Qed.

(** ** Decimal numerals: [parseInt] reads back what [toString] prints *)

Lemma digit_of_cases (c : ascii) (d : Z) :
  JS.digit_of c = Some d -> JS.is_ws c = false /\ c <> "-"%char /\ c <> "+"%char.
Proof.
  unfold JS.digit_of, JS.is_ws.
  destruct ((48 <=? nat_of_ascii c)%nat && (nat_of_ascii c <=? 57)%nat) eqn:E; [|discriminate].
  intros _. apply andb_prop in E as [E1 E2].
  apply Nat.leb_le in E1. apply Nat.leb_le in E2.
  repeat split.
  - apply orb_false_intro; [apply orb_false_intro|].
    + apply andb_false_intro2. apply Nat.leb_gt. lia.
    + apply Nat.eqb_neq. lia.
    + apply Nat.eqb_neq. lia.
  - intros ->. vm_compute in E1. lia.
  - intros ->. vm_compute in E1. lia.
Qed.

Lemma digits_acc_uint (d d' : Decimal.uint) :
  JS.digits_acc (Z.of_N (Unsigned.of_lu d')) (NilEmpty.string_of_uint d)
  = Z.of_N (Unsigned.of_lu (Decimal.revapp d d')).
Proof.
  revert d'. induction d; intros d'; simpl; try reflexivity;
    match goal with
    | |- JS.digits_acc ?a _ = Z.of_N (Unsigned.of_lu (Decimal.revapp _ ?x)) =>
        rewrite <- IHd; f_equal; simpl Unsigned.of_lu; lia
    end.
Qed.

Lemma digits_acc_decimal (n : N) : JS.digits_acc 0 (decimal n) = Z.of_N n.
Proof.
  unfold decimal.
  change 0 with (Z.of_N (Unsigned.of_lu Decimal.Nil)).
  rewrite digits_acc_uint.
  change (Decimal.revapp (N.to_uint n) Decimal.Nil) with (Decimal.rev (N.to_uint n)).
  rewrite <- Unsigned.of_uint_alt.
  f_equal. apply DecimalN.Unsigned.of_to.
Qed.

Lemma string_of_uint_head (d : Decimal.uint) :
  d <> Decimal.Nil ->
  exists c r v, NilEmpty.string_of_uint d = String c r /\ JS.digit_of c = Some v.
Proof.
  destruct d; intros H; [congruence|..]; simpl; eauto.
Qed.

Lemma N_to_uint_nonnil (n : N) : N.to_uint n <> Decimal.Nil.
Proof.
  destruct n; simpl; [discriminate|]. apply Unsigned.to_uint_nonnil.
Qed.

Lemma parseInt_unsigned (s : string) (c : ascii) (r : string) (v : Z) :
  s = String c r -> JS.digit_of c = Some v ->
  JS.parseInt s = JS.Num (JS.digits_acc 0 s).
Proof.
  intros -> Hd. destruct (digit_of_cases _ _ Hd) as (Hws & Hm & Hp).
  unfold JS.parseInt. simpl JS.skip_ws. rewrite Hws.
  assert (Hsign :
    match String c r with
    | String "-"%char r0 => (true, r0)
    | String "+"%char r0 => (false, r0)
    | _ => (false, String c r)
    end = (false, String c r)).
  { destruct c as [[] [] [] [] [] [] [] []]; try reflexivity; congruence. }
  rewrite Hsign. simpl JS.starts_with_digit. rewrite Hd. reflexivity.
Qed.

Lemma parseInt_decimal (n : N) : JS.parseInt (decimal n) = JS.Num (Z.of_N n).
Proof.
  destruct (string_of_uint_head (N.to_uint n) (N_to_uint_nonnil n)) as (c & r & v & Hs & Hd).
  rewrite (parseInt_unsigned (decimal n) c r v Hs Hd).
  now rewrite digits_acc_decimal.
Qed.

(** What [isTokenExpired] parses is the number [setTokens] printed. *)
Lemma parseInt_toString (z : Z) : JS.parseInt (JS.toString (JS.Num z)) = JS.Num z.
Proof.
  destruct z as [|p|p].
  - reflexivity.
  - change (JS.toString (JS.Num (Z.pos p))) with (decimal (N.pos p)).
    apply parseInt_decimal.
  - change (JS.toString (JS.Num (Z.neg p)))
      with (String "-"%char (decimal (N.pos p))).
    destruct (string_of_uint_head (N.to_uint (N.pos p)) (N_to_uint_nonnil _))
      as (c & r & v & Hs & Hd).
    unfold JS.parseInt. simpl JS.skip_ws.
    change (JS.is_ws "-") with false. cbv iota.
    fold (decimal (N.pos p)) in Hs.
    rewrite Hs. simpl JS.starts_with_digit. rewrite Hd. rewrite <- Hs.
    now rewrite digits_acc_decimal.
Qed.

(** ** Slicing off the unit suffix *)

Lemma slice_init_snoc (s : string) (u : ascii) :
  JS.slice_init (s ++ String u "")%string = s.
Proof.
  unfold JS.slice_init.
  induction s as [|c s IH]; [reflexivity|].
  simpl String.length in *. simpl append.
  replace (S (String.length (s ++ String u "")%string) - 1)%nat
    with (S (String.length (s ++ String u "")%string - 1))%nat.
  - simpl. now rewrite IH.
  - destruct s; simpl; lia.
Qed.

Lemma slice_last_snoc (s : string) (u : ascii) :
  JS.slice_last (s ++ String u "")%string = String u "".
Proof.
  unfold JS.slice_last.
  induction s as [|c s IH]; [reflexivity|].
  simpl String.length in *. simpl append.
  replace (S (String.length (s ++ String u "")%string) - 1)%nat
    with (S (String.length (s ++ String u "")%string - 1))%nat.
  - simpl. exact IH.
  - destruct s; simpl; lia.
Qed.

(** ** C5: the expiry timestamp computed from [expiresIn] *)

Lemma expiry_with_unit (now : Z) (n : N) (u : ascii) :
  JS.parseInt (JS.slice_init (decimal n ++ String u "")%string) = JS.Num (Z.of_N n)
  /\ JS.slice_last (decimal n ++ String u "")%string = String u "".
Proof.
  rewrite slice_init_snoc, slice_last_snoc, parseInt_decimal. split; reflexivity.
Qed.

Lemma pow_2_53 : 2 ^ 53 = 9007199254740992.
Proof. reflexivity. Qed.

(** Integers below 2^53 in magnitude are doubles, and no larger integer
    rounds to one of them. *)
Lemma nearest_double_small (z : Z) :
  Z.abs z < 2 ^ 53 -> JS.nearest_double z = z.
Proof.
  intros Hz. unfold JS.nearest_double.
  now replace (Z.abs z <? 2 ^ 53) with true by (symmetry; apply Z.ltb_lt; exact Hz).
Qed.

Lemma nearest_double_big (c : Z) :
  2 ^ 53 <= Z.abs c -> 2 ^ 53 <= Z.abs (JS.nearest_double c).
Proof.
  intros Hc. unfold JS.nearest_double.
  replace (Z.abs c <? 2 ^ 53) with false by (symmetry; apply Z.ltb_ge; exact Hc).
  cbv zeta.
  set (m := Z.abs c) in *.
  assert (Hm : 0 < m) by (rewrite pow_2_53 in Hc; lia).
  assert (Hlog : 53 <= Z.log2 m).
  { apply Z.log2_le_pow2; [exact Hm | exact Hc]. }
  set (e := Z.log2 m - 52).
  assert (He : 1 <= e) by (unfold e; lia).
  assert (Hpow : 2 ^ (52 + e) <= m).
  { replace (52 + e) with (Z.log2 m) by (unfold e; lia).
    apply Z.log2_spec. exact Hm. }
  assert (Hpe : 2 <= 2 ^ e).
  { change 2 with (2 ^ 1) at 1. apply Z.pow_le_mono_r; lia. }
  assert (Hq : 2 ^ 52 <= m / 2 ^ e).
  { apply Z.div_le_lower_bound; [lia|].
    rewrite <- Z.pow_add_r by lia. now rewrite Z.add_comm. }
  set (q := m / 2 ^ e) in *.
  match goal with
  | |- context [if ?b then q + 1 else q] => set (q' := if b then q + 1 else q)
  end.
  assert (Hq' : q <= q') by (unfold q'; destruct (_ || _); lia).
  rewrite Z.abs_mul.
  assert (Hc0 : c <> 0) by (unfold m in Hm; lia).
  replace (Z.abs (Z.sgn c)) with 1 by lia.
  assert (H52 : 2 ^ 53 = 2 ^ 52 * 2) by reflexivity.
  assert (H0 : 0 < 2 ^ 52) by reflexivity.
  rewrite Z.abs_eq by nia. nia.
Qed.

Lemma round_safe (z : Z) :
  0 <= z <= JS.MAX_SAFE_INTEGER -> JS.round z = JS.Finite z.
Proof.
  unfold JS.MAX_SAFE_INTEGER. intros Hz. unfold JS.round.
  rewrite nearest_double_small by (rewrite Z.abs_eq; lia).
  replace (2 ^ 1024 <=? Z.abs z) with false; [reflexivity|].
  symmetry. apply Z.leb_gt. rewrite Z.abs_eq by lia.
  assert (2 ^ 53 <= 2 ^ 1024) by (apply Z.pow_le_mono_r; lia). lia.
Qed.

(** A product with a positive constant that stays in the safe range is
    exact. *)
Lemma times_safe (z k : Z) :
  0 <= z -> 0 < k -> z * k <= JS.MAX_SAFE_INTEGER ->
  JS.times (JS.Finite z) (JS.Finite k) = JS.Finite (z * k).
Proof. intros Hz Hk Hb. cbn [JS.times]. apply round_safe. nia. Qed.

Lemma plus_safe (x y : Z) :
  0 <= x -> 0 <= y -> x + y <= JS.MAX_SAFE_INTEGER ->
  JS.plus (JS.round x) (JS.Finite y) = JS.Finite (x + y).
Proof.
  intros Hx Hy Hb. rewrite (round_safe x) by lia. cbn [JS.plus]. apply round_safe. lia.
Qed.

Lemma plus_NotANumber (a : JS.double) : JS.plus a JS.NotANumber = JS.NotANumber.
Proof. now destruct a. Qed.

(** What [shortest] picks reads back as the double it was picked
    for. *)
Lemma shortest_fits (fuel : nat) (p z : Z) :
  JS.nearest_double z = z ->
  JS.nearest_double (JS.shortest fuel p z) = z.
Proof.
  intros Hz. revert p. induction fuel as [|fuel IH]; intros p; cbn [JS.shortest]; cbv zeta;
    destruct (JS.nearest_double (z / p * p) =? z) eqn:Hlo;
    destruct (JS.nearest_double (z / p * p + p) =? z) eqn:Hhi;
    cbn [andb];
    repeat match goal with
    | |- context [if ?b then _ else _] => destruct b
    end;
    try (apply Z.eqb_eq; assumption); try exact Hz; apply IH.
Qed.

(** A safe integer is printed with all its digits. *)
Lemma Number_toString_safe (z : Z) :
  0 <= z <= JS.MAX_SAFE_INTEGER ->
  JS.Number_toString (JS.Finite z) = JS.toString (JS.Num z).
Proof.
  unfold JS.MAX_SAFE_INTEGER. intros Hz. unfold JS.Number_toString.
  rewrite Z.abs_eq by lia.
  set (c := JS.shortest _ _ z).
  assert (Hc : c = z).
  { pose proof (shortest_fits (String.length (JS.toString (JS.Num z)))
                  (10 ^ (Z.of_nat (String.length (JS.toString (JS.Num z))) - 1)) z
                  (nearest_double_small z ltac:(rewrite Z.abs_eq; lia))) as Hfit.
    fold c in Hfit.
    destruct (Z.lt_ge_cases (Z.abs c) (2 ^ 53)) as [Hsmall|Hbig].
    - now rewrite nearest_double_small in Hfit.
    - apply nearest_double_big in Hbig. rewrite Hfit, Z.abs_eq in Hbig; lia. }
  rewrite Hc.
  replace (z <? 0) with false by (symmetry; apply Z.ltb_ge; lia).
  replace (z <? 10 ^ 21) with true; [reflexivity|].
  symmetry. apply Z.ltb_lt.
  assert (2 ^ 53 < 10 ^ 21) by reflexivity. lia.
Qed.

(** The four units, within the safe range. *)
Lemma expiry_in_unit (now : Z) (n : N) (u : ascii) (k : Z) :
  unit_millis u = Some k ->
  0 <= now -> now + Z.of_N n * k <= JS.MAX_SAFE_INTEGER ->
  SecureStorage.calculateExpiryTimestamp now (decimal n ++ String u "")%string
  = JS.toString (JS.Num (now + Z.of_N n * k)).
Proof.
  intros Hu Hnow Hb. unfold SecureStorage.calculateExpiryTimestamp.
  destruct (expiry_with_unit now n u) as [-> ->].
  assert (Hn : 0 <= Z.of_N n) by lia.
  rewrite (round_safe (Z.of_N n)).
  2: { unfold unit_millis in Hu.
       destruct (Ascii.eqb u "s"); [injection Hu as <-; nia|].
       destruct (Ascii.eqb u "m"); [injection Hu as <-; nia|].
       destruct (Ascii.eqb u "h"); [injection Hu as <-; nia|].
       destruct (Ascii.eqb u "d"); [injection Hu as <-; nia|discriminate]. }
  unfold unit_millis in Hu.
  destruct (Ascii.eqb u "s") eqn:Es.
  { apply Ascii.eqb_eq in Es. subst u. injection Hu as <-. cbn [String.eqb Ascii.eqb Bool.eqb].
    rewrite times_safe by lia. rewrite plus_safe by lia.
    apply Number_toString_safe. lia. }
  destruct (Ascii.eqb u "m") eqn:Em.
  { apply Ascii.eqb_eq in Em. subst u. injection Hu as <-. cbn [String.eqb Ascii.eqb Bool.eqb].
    rewrite !times_safe by lia. rewrite plus_safe by lia.
    rewrite Number_toString_safe by lia. do 2 f_equal. lia. }
  destruct (Ascii.eqb u "h") eqn:Eh.
  { apply Ascii.eqb_eq in Eh. subst u. injection Hu as <-. cbn [String.eqb Ascii.eqb Bool.eqb].
    rewrite !times_safe by lia. rewrite plus_safe by lia.
    rewrite Number_toString_safe by lia. do 2 f_equal. lia. }
  destruct (Ascii.eqb u "d") eqn:Ed; [|discriminate].
  apply Ascii.eqb_eq in Ed. subst u. injection Hu as <-. cbn [String.eqb Ascii.eqb Bool.eqb].
  rewrite !times_safe by lia. rewrite plus_safe by lia.
  rewrite Number_toString_safe by lia. do 2 f_equal. lia.
Qed.

(** Beyond the safe range the expiry is a rounded double, printed with
    its shortest digits, in exponent notation from 10^21 on; [parseInt]
    then reads only the digits before the point. *)
Example expiry_beyond_safe_range :
  SecureStorage.calculateExpiryTimestamp 1700000000000 "1000000000000000000d"
  = "8.64000000000017e+25"
  /\ JS.parseInt "8.64000000000017e+25" = JS.Num 8
  /\ SecureStorage.calculateExpiryTimestamp 0 "1152921504606846976s"
     = "1.152921504606847e+21".
Proof. repeat split; vm_compute; reflexivity. Qed.

(** The claim as the specification states it, for every [n], fails on
    the code: the numbers of the code are doubles. For the duration
    [9007199254740993s] (2^53 + 1 seconds) received at time 0,
    [parseInt] already gives 2^53, and the stored expiry is
    9007199254740992000, not 9007199254740993000. *)
Lemma C5_counterexample :
  SecureStorage.calculateExpiryTimestamp 0 (decimal 9007199254740993 ++ "s")%string
  = "9007199254740992000"
  /\ SecureStorage.calculateExpiryTimestamp 0 (decimal 9007199254740993 ++ "s")%string
     <> JS.toString (JS.Num (0 + Z.of_N 9007199254740993 * 1000)).
Proof. split; [vm_compute; reflexivity | vm_compute; discriminate]. Qed.

(** C5 (amended). For every [expiresIn] of the form [{n}{s|m|h|d}]
    received at a time [now >= 0], if [now + n * unitMillis] (1000,
    60000, 3600000 and 86400000 milliseconds for seconds, minutes, hours
    and days) is at most [Number.MAX_SAFE_INTEGER], the computed expiry
    is that timestamp, printed; for every input whose last character is
    none of [s], [m], [h], [d] it is [now + 15 minutes], when that is at
    most [Number.MAX_SAFE_INTEGER]. *)
Theorem C5_calculateExpiryTimestamp (now : Z) :
  0 <= now ->
  (forall n : N,
      (now + Z.of_N n * 1000 <= JS.MAX_SAFE_INTEGER ->
       SecureStorage.calculateExpiryTimestamp now (decimal n ++ "s")%string
       = JS.toString (JS.Num (now + Z.of_N n * 1000)))
   /\ (now + Z.of_N n * 60000 <= JS.MAX_SAFE_INTEGER ->
       SecureStorage.calculateExpiryTimestamp now (decimal n ++ "m")%string
       = JS.toString (JS.Num (now + Z.of_N n * 60000)))
   /\ (now + Z.of_N n * 3600000 <= JS.MAX_SAFE_INTEGER ->
       SecureStorage.calculateExpiryTimestamp now (decimal n ++ "h")%string
       = JS.toString (JS.Num (now + Z.of_N n * 3600000)))
   /\ (now + Z.of_N n * 86400000 <= JS.MAX_SAFE_INTEGER ->
       SecureStorage.calculateExpiryTimestamp now (decimal n ++ "d")%string
       = JS.toString (JS.Num (now + Z.of_N n * 86400000))))
  /\ (now + 900000 <= JS.MAX_SAFE_INTEGER ->
      forall expiresIn : string,
        JS.slice_last expiresIn <> "s" -> JS.slice_last expiresIn <> "m" ->
        JS.slice_last expiresIn <> "h" -> JS.slice_last expiresIn <> "d" ->
        SecureStorage.calculateExpiryTimestamp now expiresIn
        = JS.toString (JS.Num (now + 900000))).
Proof.
  intros Hnow. split.
  - intros n. repeat split; intros Hb.
    + now apply (expiry_in_unit now n "s" 1000).
    + now apply (expiry_in_unit now n "m" 60000).
    + now apply (expiry_in_unit now n "h" 3600000).
    + now apply (expiry_in_unit now n "d" 86400000).
  - intros Hb s Hs Hm Hh Hd. unfold SecureStorage.calculateExpiryTimestamp.
    apply String.eqb_neq in Hs, Hm, Hh, Hd.
    rewrite Hs, Hm, Hh, Hd.
    change (15 * 60 * 1000) with 900000. rewrite plus_safe by lia.
    apply Number_toString_safe. lia.
Qed.

Lemma C5_witness :
  SecureStorage.calculateExpiryTimestamp 1700000000000 "15d" = "1701296000000"
  /\ SecureStorage.calculateExpiryTimestamp 1700000000000 "15m" = "1700000900000"
  /\ SecureStorage.calculateExpiryTimestamp 1700000000000 "15x" = "1700000900000"
  /\ SecureStorage.calculateExpiryTimestamp 1700000000000 "" = "1700000900000".
Proof.
  assert (Hnow : 0 <= 1700000000000) by lia.
  pose proof (C5_calculateExpiryTimestamp 1700000000000 Hnow) as [Hn Hx].
  destruct (Hn 15%N) as (_ & Hm & _ & Hd).
  assert (Hd' : 1700000000000 + Z.of_N 15 * 86400000 <= JS.MAX_SAFE_INTEGER)
    by (vm_compute; discriminate).
  assert (Hm' : 1700000000000 + Z.of_N 15 * 60000 <= JS.MAX_SAFE_INTEGER)
    by (vm_compute; discriminate).
  assert (Hx' : 1700000000000 + 900000 <= JS.MAX_SAFE_INTEGER)
    by (vm_compute; discriminate).
  split; [exact (Hd Hd')|]. split; [exact (Hm Hm')|].
  split; apply (Hx Hx'); vm_compute; discriminate.
Defined.

(** ** The secure token store *)

Ltac keep_keys :=
  cbn -[SecureStorage.ACCESS_TOKEN SecureStorage.REFRESH_TOKEN
        SecureStorage.TOKEN_EXPIRY SecureStorage.USER_DATA].

Section StorageFacts.
Context {Body : Type} (rejects : Platform) {rt : Runtime}.
Import SecureStorage.

Lemma keys_distinct :
  ACCESS_TOKEN <> REFRESH_TOKEN /\ ACCESS_TOKEN <> TOKEN_EXPIRY /\
  ACCESS_TOKEN <> USER_DATA /\ REFRESH_TOKEN <> TOKEN_EXPIRY /\
  REFRESH_TOKEN <> USER_DATA /\ TOKEN_EXPIRY <> USER_DATA.
Proof. repeat split; discriminate. Qed.

(** [clearAll] never throws; it issues the four deletes in the order of
    the source and removes every key whose delete the platform
    accepts. *)
Lemma clearAll_run (w : World) :
  exists w' a1 a2 a3 a4,
    clearAll (Body:=Body) rejects w =
      (Ok tt, w',
       [ EvStore (OpDelete ACCESS_TOKEN) a1; EvStore (OpDelete REFRESH_TOKEN) a2;
         EvStore (OpDelete TOKEN_EXPIRY) a3; EvStore (OpDelete USER_DATA) a4 ])
    /\ a1 = negb (rejects (sops w) (OpDelete ACCESS_TOKEN))
    /\ a2 = negb (rejects (S (sops w)) (OpDelete REFRESH_TOKEN))
    /\ a3 = negb (rejects (S (S (sops w))) (OpDelete TOKEN_EXPIRY))
    /\ a4 = negb (rejects (S (S (S (sops w)))) (OpDelete USER_DATA))
    /\ (a1 = true -> store w' !! ACCESS_TOKEN = None)
    /\ (a2 = true -> store w' !! REFRESH_TOKEN = None)
    /\ (a3 = true -> store w' !! TOKEN_EXPIRY = None)
    /\ (a4 = true -> store w' !! USER_DATA = None)
    /\ now w' = now w /\ authHeader w' = authHeader w.
Proof.
  destruct keys_distinct as (H1 & H2 & H3 & H4 & H5 & H6).
  unfold clearAll, try_catch, swallow, try_catch, Promise_all, deleteItemAsync, ret.
  repeat (cbn -[ACCESS_TOKEN REFRESH_TOKEN TOKEN_EXPIRY USER_DATA];
          match goal with
          | |- context [rejects ?n ?o] => destruct (rejects n o) eqn:?
          end).
  all: cbn -[ACCESS_TOKEN REFRESH_TOKEN TOKEN_EXPIRY USER_DATA];
    do 5 eexists; (split; [reflexivity|]);
    cbn -[ACCESS_TOKEN REFRESH_TOKEN TOKEN_EXPIRY USER_DATA];
    repeat split; try discriminate; intros _;
    repeat (rewrite ?lookup_delete_eq; try reflexivity; rewrite lookup_delete_ne by congruence).
Qed.

(** [setTokens] issues the three writes in the order of the source and
    succeeds exactly when the platform accepted all of them; a key
    changes exactly when its own write was accepted. *)
Lemma setTokens_run (tokenData : TokenData) (w : World) :
  exists r w' a1 a2 a3,
    setTokens (Body:=Body) rejects tokenData w =
      (r, w',
       [ EvStore (OpSet ACCESS_TOKEN (accessToken tokenData)) a1;
         EvStore (OpSet REFRESH_TOKEN (refreshToken tokenData)) a2;
         EvStore (OpSet TOKEN_EXPIRY
                    (calculateExpiryTimestamp (now w) (expiresIn tokenData))) a3 ])
    /\ is_ok r = a1 && a2 && a3
    /\ store w' !! ACCESS_TOKEN
       = (if a1 then Some (accessToken tokenData) else store w !! ACCESS_TOKEN)
    /\ store w' !! REFRESH_TOKEN
       = (if a2 then Some (refreshToken tokenData) else store w !! REFRESH_TOKEN)
    /\ store w' !! TOKEN_EXPIRY
       = (if a3 then Some (calculateExpiryTimestamp (now w) (expiresIn tokenData))
          else store w !! TOKEN_EXPIRY)
    /\ store w' !! USER_DATA = store w !! USER_DATA
    /\ now w' = now w /\ authHeader w' = authHeader w.
Proof.
  destruct keys_distinct as (H1 & H2 & H3 & H4 & H5 & H6).
  unfold setTokens, try_catch, bind, get_now, Promise_all, setItemAsync, throw.
  repeat (keep_keys;
          match goal with
          | |- context [rejects ?n ?o] => destruct (rejects n o) eqn:?
          end).
  all: keep_keys; do 5 eexists; (split; [reflexivity|]); keep_keys;
    repeat split;
    repeat (rewrite ?lookup_insert_eq; try reflexivity; rewrite lookup_insert_ne by congruence).
Qed.

Lemma setUserData_run (userData : UserData) (w : World) :
  exists r w' a,
    setUserData (Body:=Body) rejects userData w =
      (r, w', [ EvStore (OpSet USER_DATA (JSON_stringify userData)) a ])
    /\ is_ok r = a
    /\ store w' !! USER_DATA
       = (if a then Some (JSON_stringify userData) else store w !! USER_DATA)
    /\ store w' !! ACCESS_TOKEN = store w !! ACCESS_TOKEN
    /\ store w' !! REFRESH_TOKEN = store w !! REFRESH_TOKEN
    /\ store w' !! TOKEN_EXPIRY = store w !! TOKEN_EXPIRY
    /\ now w' = now w /\ authHeader w' = authHeader w.
Proof.
  destruct keys_distinct as (H1 & H2 & H3 & H4 & H5 & H6).
  unfold setUserData, try_catch, setItemAsync, throw.
  destruct (rejects (sops w) (OpSet USER_DATA (JSON_stringify userData)));
    keep_keys; do 3 eexists; (split; [reflexivity|]); keep_keys;
    repeat split;
    repeat (rewrite ?lookup_insert_eq; try reflexivity; rewrite lookup_insert_ne by congruence).
Qed.

(** [hasStoredTokens] never throws and only reads. *)
Lemma hasStoredTokens_run (w : World) :
  exists b a1 a2,
    hasStoredTokens (Body:=Body) rejects w =
      (Ok b, tick (tick w),
       [ EvStore (OpGet ACCESS_TOKEN) a1; EvStore (OpGet REFRESH_TOKEN) a2 ])
    /\ b = (a1 && JS.truthy (store w !! ACCESS_TOKEN))
           && (a2 && JS.truthy (store w !! REFRESH_TOKEN)).
Proof.
  unfold hasStoredTokens, getAccessToken, getRefreshToken, try_catch, bind,
    getItemAsync, ret.
  repeat (keep_keys;
          match goal with
          | |- context [rejects ?n ?o] => destruct (rejects n o) eqn:?
          end).
  all: keep_keys; do 3 eexists; (split; [reflexivity|]); keep_keys;
    rewrite ?andb_false_r; reflexivity.
Qed.

(** [isTokenExpired] never throws, only reads, and answers [true]
    whenever no expiry can be read; otherwise it compares the stored
    number with [now + 60000]. *)
Lemma isTokenExpired_run (w : World) :
  exists b a,
    isTokenExpired (Body:=Body) rejects w =
      (Ok b, tick w, [ EvStore (OpGet TOKEN_EXPIRY) a ])
    /\ b = (if a && JS.truthy (store w !! TOKEN_EXPIRY)
            then JS.ge (JS.Num (now w + 60000))
                       (JS.parseInt (default "" (store w !! TOKEN_EXPIRY)))
            else true).
Proof.
  unfold isTokenExpired, try_catch, bind, getItemAsync, get_now, ret.
  destruct (rejects (sops w) (OpGet TOKEN_EXPIRY)); keep_keys.
  - do 2 eexists. split; reflexivity.
  - destruct (JS.truthy (store w !! TOKEN_EXPIRY)) eqn:E;
      do 2 eexists; (split; [reflexivity|]); reflexivity.
Qed.

Lemma toString_truthy (z : Z) : JS.truthy (Some (JS.toString (JS.Num z))) = true.
Proof.
  destruct z as [|p|p]; try reflexivity.
  change (JS.toString (JS.Num (Z.pos p))) with (decimal (N.pos p)).
  destruct (string_of_uint_head (N.to_uint (N.pos p)) (N_to_uint_nonnil _))
    as (c & r & v & Hs & _).
  unfold decimal. now rewrite Hs.
Qed.

(** An expiry written by [setTokens] is read back as the number it
    was computed from: the token counts as expired from 60 seconds
    before that instant on. *)
Lemma isTokenExpired_of_stored (w : World) (expiry : Z) :
  store w !! TOKEN_EXPIRY = Some (JS.toString (JS.Num expiry)) ->
  rejects (sops w) (OpGet TOKEN_EXPIRY) = false ->
  exists w' evs,
    isTokenExpired (Body:=Body) rejects w = (Ok (now w + 60000 >=? expiry), w', evs).
Proof.
  intros Hstored Hread.
  destruct (isTokenExpired_run w) as (b & a & Hrun & Hb).
  assert (a = true) as ->.
  { unfold isTokenExpired, try_catch, bind, getItemAsync in Hrun.
    rewrite Hread in Hrun. cbn in Hrun.
    destruct (JS.truthy (store w !! TOKEN_EXPIRY)); cbn in Hrun; now injection Hrun as _ <-. }
  rewrite Hstored, toString_truthy in Hb. cbn [andb from_option] in Hb.
  unfold Datatypes.id in Hb. rewrite parseInt_toString in Hb. cbn [JS.ge] in Hb. subst b. eauto.
Qed.

(** Persisting a session: when the group of writes succeeds, all four
    keys hold the new values. *)
Lemma persist_session_run (tokenData : TokenData) (userData : UserData) (w : World) :
  exists r w' evs,
    Promise_all [ setTokens (Body:=Body) rejects tokenData;
                  setUserData rejects userData ] w = (r, w', evs)
    /\ http_calls evs = []
    /\ now w' = now w
    /\ (is_ok r = true ->
        store w' !! ACCESS_TOKEN = Some (accessToken tokenData)
        /\ store w' !! REFRESH_TOKEN = Some (refreshToken tokenData)
        /\ store w' !! TOKEN_EXPIRY
           = Some (calculateExpiryTimestamp (now w) (expiresIn tokenData))
        /\ store w' !! USER_DATA = Some (JSON_stringify userData)).
Proof.
  destruct (setTokens_run tokenData w)
    as (r1 & w1 & a1 & a2 & a3 & Hset & Hok1 & S1 & S2 & S3 & S4 & Hnow1 & _).
  destruct (setUserData_run userData w1)
    as (r2 & w2 & a4 & Husr & Hok2 & U4 & U1 & U2 & U3 & Hnow2 & _).
  unfold Promise_all. rewrite Hset, Husr.
  do 3 eexists. split; [reflexivity|].
  split; [reflexivity|]. split; [congruence|].
  destruct r1 as [[]|e1]; [|discriminate]. destruct r2 as [[]|e2]; [|discriminate].
  intros _. cbn in Hok1, Hok2. subst a4.
  symmetry in Hok1. apply andb_prop in Hok1 as [Hok1 ->].
  apply andb_prop in Hok1 as [-> ->].
  rewrite U1, U2, U3, U4, S1, S2, S3. repeat split.
Qed.

End StorageFacts.

(** ** The auth service *)

Section ServiceFacts.
Context (rejects : Platform) {rt : Runtime} (httpClient : HttpClient).
Import SecureStorage AuthService.

(** What [logout] does, for every behaviour of the client. *)
Lemma logout_run (w : World) :
  exists w' a1 a2 a3 a4,
    logout rejects httpClient w =
      (Ok tt, w',
       [ EvHttp POST "/auth/logout" None;
         EvStore (OpDelete ACCESS_TOKEN) a1; EvStore (OpDelete REFRESH_TOKEN) a2;
         EvStore (OpDelete TOKEN_EXPIRY) a3; EvStore (OpDelete USER_DATA) a4;
         EvRemoveAuthToken ])
    /\ authHeader w' = None
    /\ (a1 = true -> store w' !! ACCESS_TOKEN = None)
    /\ (a2 = true -> store w' !! REFRESH_TOKEN = None)
    /\ (a3 = true -> store w' !! TOKEN_EXPIRY = None)
    /\ (a4 = true -> store w' !! USER_DATA = None)
    /\ (deletes_accepted rejects -> record_cleared w').
Proof.
  unfold logout, try_catch, bind, request, removeAuthToken, ret.
  destruct (post_void httpClient "/auth/logout" w) as [r w1].
  destruct (clearAll_run (Body:=Body) rejects w1)
    as (w2 & a1 & a2 & a3 & a4 & Hrun & E1 & E2 & E3 & E4 & K1 & K2 & K3 & K4 & _ & _).
  exists (set_authHeader None w2), a1, a2, a3, a4.
  split.
  - destruct r; rewrite Hrun; reflexivity.
  - repeat split; try assumption.
    intros Hacc k Hk.
    rewrite (Hacc _ _) in E1. rewrite (Hacc _ _) in E2.
    rewrite (Hacc _ _) in E3. rewrite (Hacc _ _) in E4.
    destruct Hk as [<-|[<-|[<-|[<-|[]]]]]; cbn [store set_authHeader]; auto.
Qed.

(** C4. Whatever the server logout call does (also when it throws),
    [logout] completes without throwing: after the request it issues
    the delete of all four keys and then strips the client's
    Authorization header, in that order. Every key whose delete the
    platform accepted is gone, so on a platform that accepts deletes
    the record is cleared. *)
Theorem C4_logout_clears_then_strips (w : World) :
  exists w' a1 a2 a3 a4,
    logout rejects httpClient w =
      (Ok tt, w',
       [ EvHttp POST "/auth/logout" None;
         EvStore (OpDelete ACCESS_TOKEN) a1; EvStore (OpDelete REFRESH_TOKEN) a2;
         EvStore (OpDelete TOKEN_EXPIRY) a3; EvStore (OpDelete USER_DATA) a4;
         EvRemoveAuthToken ])
    /\ authHeader w' = None
    /\ (a1 = true -> store w' !! ACCESS_TOKEN = None)
    /\ (a2 = true -> store w' !! REFRESH_TOKEN = None)
    /\ (a3 = true -> store w' !! TOKEN_EXPIRY = None)
    /\ (a4 = true -> store w' !! USER_DATA = None)
    /\ (deletes_accepted rejects -> record_cleared w').
Proof. exact (logout_run w). Qed.

(** The error [refreshTokens] throws when nothing is stored. *)
Example handleAuthError_no_token :
  message (handleAuthError (Error "No refresh token available"))
  = Some "No refresh token available".
Proof. reflexivity. Qed.

Lemma getRefreshToken_run (w : World) :
  exists v a,
    getRefreshToken (Body:=Body) rejects w = (Ok v, tick w, [EvStore (OpGet REFRESH_TOKEN) a])
    /\ (v = None \/ v = store w !! REFRESH_TOKEN).
Proof.
  unfold getRefreshToken, try_catch, getItemAsync, ret.
  destruct (rejects (sops w) (OpGet REFRESH_TOKEN)); keep_keys; eauto.
Qed.

(** Whenever [refreshTokens] throws, [clearAll] ran last. *)
Lemma refreshTokens_failure_run (w : World) (e : Thrown) (w' : World) (evs : list (Event Body)) :
  refreshTokens rejects httpClient w = (Throw e, w', evs) ->
  exists pre a1 a2 a3 a4,
    evs = pre ++
      [ EvStore (OpDelete ACCESS_TOKEN) a1; EvStore (OpDelete REFRESH_TOKEN) a2;
        EvStore (OpDelete TOKEN_EXPIRY) a3; EvStore (OpDelete USER_DATA) a4 ]
    /\ (a1 = true -> store w' !! ACCESS_TOKEN = None)
    /\ (a2 = true -> store w' !! REFRESH_TOKEN = None)
    /\ (a3 = true -> store w' !! TOKEN_EXPIRY = None)
    /\ (a4 = true -> store w' !! USER_DATA = None)
    /\ (deletes_accepted rejects -> record_cleared w').
Proof.
  unfold refreshTokens, try_catch at 1.
  match goal with
  | |- match ?x with _ => _ end = _ -> _ => destruct x as [[r w1] ev1]
  end.
  destruct r as [t|e0]; [discriminate|].
  destruct (clearAll_run (Body:=Body) rejects w1)
    as (w2 & a1 & a2 & a3 & a4 & Hrun & E1 & E2 & E3 & E4 & K1 & K2 & K3 & K4 & _ & _).
  unfold bind, throw. rewrite Hrun.
  intros [= <- <- <-].
  exists ev1, a1, a2, a3, a4.
  split; [reflexivity|].
  repeat split; try assumption.
  intros Hacc k Hk.
  rewrite (Hacc _ _) in E1. rewrite (Hacc _ _) in E2.
  rewrite (Hacc _ _) in E3. rewrite (Hacc _ _) in E4.
  destruct Hk as [<-|[<-|[<-|[<-|[]]]]]; auto.
Qed.

(** When [refreshTokens] succeeds the three token keys hold the new
    values. *)
Lemma refreshTokens_success_run (w : World) (t : TokenData) (w' : World) (evs : list (Event Body)) :
  refreshTokens rejects httpClient w = (Ok t, w', evs) ->
  store w' !! ACCESS_TOKEN = Some (accessToken t)
  /\ store w' !! REFRESH_TOKEN = Some (refreshToken t)
  /\ store w' !! TOKEN_EXPIRY = Some (calculateExpiryTimestamp (now w') (expiresIn t)).
Proof.
  destruct (getRefreshToken_run w) as (v & a & Hget & _).
  unfold refreshTokens, try_catch at 1, bind at 1. rewrite Hget.
  destruct (JS.truthy v); cbv beta iota delta [negb].
  2: { unfold throw at 1. unfold bind, throw.
       destruct (clearAll_run (Body:=Body) rejects (tick w)) as (? & ? & ? & ? & ? & -> & _).
       discriminate. }
  unfold bind at 1, request.
  destruct (postPublic_tokens httpClient "/auth/refresh" (RefreshBody (default "" v)) (tick w))
    as [[resp|e] w1].
  2: { unfold bind, throw.
       destruct (clearAll_run (Body:=Body) rejects w1) as (? & ? & ? & ? & ? & -> & _).
       discriminate. }
  destruct (success resp); [destruct (data resp) as [[newTokens|]|]|].
  2,3,4: unfold throw at 1; unfold bind, throw;
       destruct (clearAll_run (Body:=Body) rejects w1) as (? & ? & ? & ? & ? & -> & _);
       discriminate.
  unfold bind at 1.
  destruct (setTokens_run (Body:=Body) rejects newTokens w1)
    as (r & w2 & a1 & a2 & a3 & Hset & Hok & S1 & S2 & S3 & _ & Hnow & _).
  rewrite Hset. destruct r as [[]|e].
  - unfold ret. intros [= <- <- <-].
    cbn in Hok. symmetry in Hok. apply andb_prop in Hok as [Hok ->].
    apply andb_prop in Hok as [-> ->].
    rewrite S1, S2, S3, Hnow. repeat split.
  - unfold bind, throw.
    destruct (clearAll_run (Body:=Body) rejects w2) as (? & ? & ? & ? & ? & -> & _).
    discriminate.
Qed.


(** [refreshTokens] sends at most one request, the refresh request. *)
Lemma refreshTokens_http (w : World) :
  http_calls (snd (refreshTokens rejects httpClient w)) = []
  \/ exists token,
      http_calls (snd (refreshTokens rejects httpClient w))
      = [ EvHttp POST_PUBLIC "/auth/refresh" (Some (RefreshBody token)) ].
Proof.
  unfold refreshTokens, try_catch, bind, getRefreshToken, try_catch, getItemAsync,
    request, setTokens, try_catch, bind, get_now, Promise_all, setItemAsync,
    clearAll, try_catch, swallow, try_catch, Promise_all, deleteItemAsync, throw, ret.
  repeat (keep_keys;
          match goal with
          | |- context [rejects ?n ?o] => destruct (rejects n o) eqn:?
          | |- context [postPublic_tokens ?c ?u ?b ?x] =>
              destruct (postPublic_tokens c u b x) as [[?resp|?e] ?w1]
          | |- context [JS.truthy ?v] => destruct (JS.truthy v) eqn:?
          | |- context [success ?r] => destruct (success r) eqn:?
          | |- context [data ?r] => destruct (data r) as [[?|]|] eqn:?
          end).
  all: keep_keys; try (left; reflexivity); right; eexists; reflexivity.
Qed.

(** [getCurrentUser] sends exactly the profile request. *)
Lemma getCurrentUser_http (w : World) :
  http_calls (snd (getCurrentUser rejects httpClient w)) = [ EvHttp GET "/auth/me" None ].
Proof.
  unfold getCurrentUser, try_catch, bind, request, setUserData, try_catch,
    setItemAsync, throw, ret.
  repeat (keep_keys;
          match goal with
          | |- context [rejects ?n ?o] => destruct (rejects n o) eqn:?
          | |- context [get_user ?c ?u ?x] =>
              destruct (get_user c u x) as [[?resp|?e] ?w1]
          | |- context [success ?r] => destruct (success r) eqn:?
          | |- context [data ?r] => destruct (data r) as [[?|]|] eqn:?
          end).
  all: reflexivity.
Qed.

(** C1. [verifySession] always returns a boolean. With no access or
    refresh token stored it returns [false], having only read the
    store: no request is sent. With tokens stored and the token
    expired it runs [refreshTokens] once (at most one request, the
    refresh request) and returns whether that succeeded. Otherwise it
    runs [getCurrentUser] (the profile request) and returns whether
    that succeeded. *)
Theorem C1_verifySession (w : World) :
  (exists b w' evs, verifySession rejects httpClient w = (Ok b, w', evs))
  /\ (JS.truthy (store w !! ACCESS_TOKEN) && JS.truthy (store w !! REFRESH_TOKEN) = false ->
      exists w' evs,
        verifySession rejects httpClient w = (Ok false, w', evs)
        /\ http_calls evs = [] /\ store w' = store w)
  /\ (forall w1 ev1 w2 ev2,
        hasStoredTokens rejects w = (Ok true, w1, ev1) ->
        isTokenExpired rejects w1 = (Ok true, w2, ev2) ->
        exists r w3 ev3,
          refreshTokens rejects httpClient w2 = (r, w3, ev3)
          /\ verifySession rejects httpClient w = (Ok (is_ok r), w3, ev1 ++ ev2 ++ ev3)
          /\ (http_calls ev3 = []
              \/ exists token,
                  http_calls ev3
                  = [ EvHttp POST_PUBLIC "/auth/refresh" (Some (RefreshBody token)) ]))
  /\ (forall w1 ev1 w2 ev2,
        hasStoredTokens rejects w = (Ok true, w1, ev1) ->
        isTokenExpired rejects w1 = (Ok false, w2, ev2) ->
        exists r w3 ev3,
          getCurrentUser rejects httpClient w2 = (r, w3, ev3)
          /\ verifySession rejects httpClient w = (Ok (is_ok r), w3, ev1 ++ ev2 ++ ev3)
          /\ http_calls ev3 = [ EvHttp GET "/auth/me" None ]).
Proof.
  destruct (hasStoredTokens_run (Body:=Body) rejects w) as (b & a1 & a2 & Hhas & Hb).
  destruct (isTokenExpired_run (Body:=Body) rejects (tick (tick w))) as (x & a3 & Hexp & _).
  repeat split.
  - unfold verifySession, try_catch at 1, bind at 1. rewrite Hhas.
    destruct b; cbv beta iota delta [negb].
    + unfold bind at 1. rewrite Hexp.
      destruct x; unfold try_catch, bind, ret.
      * destruct (refreshTokens rejects httpClient (tick (tick (tick w))))
          as [[[t|e] w3] ev3]; cbn; eauto.
      * destruct (getCurrentUser rejects httpClient (tick (tick (tick w))))
          as [[[t|e] w3] ev3]; cbn; eauto.
    + cbn. eauto.
  - intros Hnone.
    assert (b = false) as ->.
    { rewrite Hb. apply andb_false_iff in Hnone as [-> | ->];
        rewrite ?andb_false_r; reflexivity. }
    unfold verifySession, try_catch at 1, bind at 1. rewrite Hhas.
    cbn. do 2 eexists. repeat split.
  - intros w1 ev1 w2 ev2 H1 H2.
    destruct (refreshTokens rejects httpClient w2) as [[r w3] ev3] eqn:Href.
    exists r, w3, ev3. split; [reflexivity|]. split.
    + unfold verifySession, try_catch at 1, bind at 1. rewrite H1.
      cbv beta iota delta [negb]. unfold bind at 1. rewrite H2.
      unfold try_catch, bind, ret. rewrite Href.
      destruct r; cbn; rewrite ?app_nil_r; reflexivity.
    + pose proof (refreshTokens_http w2) as Hh. rewrite Href in Hh. exact Hh.
  - intros w1 ev1 w2 ev2 H1 H2.
    destruct (getCurrentUser rejects httpClient w2) as [[r w3] ev3] eqn:Hme.
    exists r, w3, ev3. split; [reflexivity|]. split.
    + unfold verifySession, try_catch at 1, bind at 1. rewrite H1.
      cbv beta iota delta [negb]. unfold bind at 1. rewrite H2.
      unfold try_catch, bind, ret. rewrite Hme.
      destruct r; cbn; rewrite ?app_nil_r; reflexivity.
    + pose proof (getCurrentUser_http w2) as Hh. rewrite Hme in Hh. exact Hh.
Qed.

(** C10. Whatever the caller passes as [isResident] (also [false]),
    the request body [register] sends to the backend carries
    [isResident = true], and when registration succeeds the returned
    and the persisted user profile carry [isResident = true]:
    [registerData.isResident || true] is always [true]. *)
Theorem C10_register_isResident_always_true (registerData : RegisterData) (w : World) :
  rq_isResident (requestData registerData) = true
  /\ (exists rest,
        snd (register rejects httpClient registerData w)
        = EvHttp POST_PUBLIC "/auth/register"
            (Some (RegisterBody (requestData registerData))) :: rest
        /\ http_calls rest = [])
  /\ (forall resp w' evs,
        register rejects httpClient registerData w = (Ok resp, w', evs) ->
        isResident (user resp) = Some true
        /\ store w' !! USER_DATA = Some (JSON_stringify (user resp))).
Proof.
  assert (Hres : rq_isResident (requestData registerData) = true).
  { unfold requestData, JS.or_bool. cbn. destruct (rd_isResident registerData) as [[]|]; reflexivity. }
  split; [exact Hres|].
  destruct (register rejects httpClient registerData w) as [[r0 w0] ev0] eqn:Hreg.
  cbn [snd].
  unfold register, try_catch at 1, bind at 1, request in Hreg.
  destruct (postPublic_auth httpClient "/auth/register"
              (RegisterBody (requestData registerData)) w) as [[response|e] w1].
  2: { unfold throw in Hreg. injection Hreg as <- <- <-.
       split; [eexists; split; reflexivity | discriminate]. }
  destruct (success response); [destruct (data response) as [d|]|].
  2,3: unfold throw in Hreg; injection Hreg as <- <- <-;
       split; [eexists; split; reflexivity | discriminate].
  unfold bind at 1, get_now in Hreg. unfold bind at 1 in Hreg.
  match type of Hreg with
  | context [Promise_all [setTokens rejects ?td; setUserData rejects ?ud] w1] =>
      destruct (persist_session_run (Body:=Body) rejects td ud w1)
        as (r & w2 & evs2 & Hrun & Hhttp & _ & Hstore)
  end.
  rewrite Hrun in Hreg. destruct r as [[]|e]; unfold ret, throw in Hreg;
    injection Hreg as <- <- <-.
  - split.
    + eexists. split; [reflexivity|]. cbn [app]. now rewrite ?app_nil_r.
    + intros resp w' evs [= <- <- <-]. cbn [user isResident].
      split; [exact (f_equal Some Hres)|]. now apply Hstore.
  - split; [|discriminate].
    eexists. split; [reflexivity|]. cbn [app]. now rewrite ?app_nil_r.
Qed.

Lemma register_success_run (registerData : RegisterData) (w : World)
    (resp : AuthResponse) (w' : World) (evs : list (Event Body)) :
  register rejects httpClient registerData w = (Ok resp, w', evs) ->
  record_holds (tokens resp) (JSON_stringify (user resp)) (now w') w'.
Proof.
  unfold register, try_catch at 1, bind at 1, request.
  destruct (postPublic_auth httpClient "/auth/register"
              (RegisterBody (requestData registerData)) w) as [[response|e] w1];
    [|discriminate].
  destruct (success response); [destruct (data response) as [d|]|]; try discriminate.
  unfold bind at 1, get_now. unfold bind at 1.
  match goal with
  | |- context [Promise_all [setTokens rejects ?td; setUserData rejects ?ud] w1] =>
      destruct (persist_session_run (Body:=Body) rejects td ud w1)
        as (r & w2 & evs2 & Hrun & _ & Hnow & Hstore)
  end.
  rewrite Hrun. destruct r as [[]|e]; unfold ret, throw; [|discriminate].
  intros [= <- <- <-]. unfold record_holds. rewrite Hnow. now apply Hstore.
Qed.

Lemma login_success_run (credentials : LoginCredentials) (w : World)
    (resp : AuthResponse) (w' : World) (evs : list (Event Body)) :
  login rejects httpClient credentials w = (Ok resp, w', evs) ->
  record_holds (tokens resp) (JSON_stringify (user resp)) (now w') w'.
Proof.
  unfold login, try_catch at 1, bind at 1, request.
  destruct (postPublic_auth httpClient "/auth/login" (LoginBody credentials) w)
    as [[response|e] w1]; [|discriminate].
  destruct (success response); [destruct (data response) as [d|]|]; try discriminate.
  unfold bind at 1, get_now. unfold bind at 1.
  match goal with
  | |- context [Promise_all [setTokens rejects ?td; setUserData rejects ?ud] w1] =>
      destruct (persist_session_run (Body:=Body) rejects td ud w1)
        as (r & w2 & evs2 & Hrun & _ & Hnow & Hstore)
  end.
  rewrite Hrun. destruct r as [[]|e]; unfold ret, throw; [|discriminate].
  intros [= <- <- <-]. unfold record_holds. rewrite Hnow. now apply Hstore.
Qed.

(** On a platform that accepts writes a session is persisted. *)
Lemma persist_session_accepted (tokenData : TokenData) (userData : UserData) (w : World) :
  writes_accepted rejects ->
  exists w' evs,
    Promise_all [ setTokens (Body:=Body) rejects tokenData;
                  setUserData rejects userData ] w = (Ok tt, w', evs).
Proof.
  intros Hacc.
  unfold Promise_all, setTokens, setUserData, try_catch, bind, get_now, Promise_all,
    setItemAsync, throw.
  repeat (keep_keys; rewrite (Hacc _ _ _)).
  keep_keys. eauto.
Qed.

Lemma setTokens_accepted (tokenData : TokenData) (w : World) :
  writes_accepted rejects ->
  exists w' evs,
    setTokens (Body:=Body) rejects tokenData w = (Ok tt, w', evs)
    /\ store w' !! USER_DATA = store w !! USER_DATA.
Proof.
  intros Hacc.
  destruct (setTokens_run (Body:=Body) rejects tokenData w)
    as (r & w' & a1 & a2 & a3 & Hrun & _ & _ & _ & _ & Hu & _).
  exists w'. rewrite Hrun. revert Hrun.
  unfold setTokens, try_catch, bind, get_now, Promise_all, setItemAsync, throw.
  repeat (keep_keys; rewrite (Hacc _ _ _)).
  keep_keys. intros [= <- _ <- <- <-]. eauto.
Qed.

(** When the backend accepts the credentials and the platform accepts
    the writes, [login] succeeds with the tokens it was sent. *)
Lemma login_accepted_run (credentials : LoginCredentials) (w : World)
    (response : ApiResponse AuthPayload) (d : AuthPayload) (w1 : World) :
  postPublic_auth httpClient "/auth/login" (LoginBody credentials) w = (Ok response, w1) ->
  success response = true -> data response = Some d ->
  writes_accepted rejects ->
  exists resp w' evs,
    login rejects httpClient credentials w = (Ok resp, w', evs)
    /\ tokens resp = ap_tokens d.
Proof.
  intros Hpost Hs Hd Hacc.
  unfold login, try_catch at 1, bind at 1, request. rewrite Hpost, Hs, Hd.
  unfold bind at 1, get_now. unfold bind at 1.
  match goal with
  | |- context [Promise_all [setTokens rejects ?td; setUserData rejects ?ud] w1] =>
      destruct (persist_session_accepted td ud w1 Hacc) as (w2 & evs2 & Hrun)
  end.
  rewrite Hrun. unfold ret. do 3 eexists. split; [reflexivity|].
  cbn [tokens]. now destruct (ap_tokens d).
Qed.

Lemma register_accepted_run (registerData : RegisterData) (w : World)
    (response : ApiResponse AuthPayload) (d : AuthPayload) (w1 : World) :
  postPublic_auth httpClient "/auth/register" (RegisterBody (requestData registerData)) w
  = (Ok response, w1) ->
  success response = true -> data response = Some d ->
  writes_accepted rejects ->
  exists resp w' evs,
    register rejects httpClient registerData w = (Ok resp, w', evs)
    /\ tokens resp = ap_tokens d.
Proof.
  intros Hpost Hs Hd Hacc.
  unfold register, try_catch at 1, bind at 1, request. rewrite Hpost, Hs, Hd.
  unfold bind at 1, get_now. unfold bind at 1.
  match goal with
  | |- context [Promise_all [setTokens rejects ?td; setUserData rejects ?ud] w1] =>
      destruct (persist_session_accepted td ud w1 Hacc) as (w2 & evs2 & Hrun)
  end.
  rewrite Hrun. unfold ret. do 3 eexists. split; [reflexivity|].
  cbn [tokens]. now destruct (ap_tokens d).
Qed.

(** When a refresh token is stored and readable, the backend answers
    the refresh with new tokens and the platform accepts the writes,
    [refreshTokens] succeeds with those tokens after the one request,
    and leaves the stored profile as it was. *)
Lemma refreshTokens_accepted_run (w : World) (token : string)
    (response : ApiResponse (option TokenData)) (newTokens : TokenData) (w1 : World) :
  rejects (sops w) (OpGet REFRESH_TOKEN) = false ->
  store w !! REFRESH_TOKEN = Some token -> token <> "" ->
  postPublic_tokens httpClient "/auth/refresh" (RefreshBody token) (tick w)
  = (Ok response, w1) ->
  success response = true -> data response = Some (Some newTokens) ->
  writes_accepted rejects ->
  exists w' evs,
    refreshTokens rejects httpClient w = (Ok newTokens, w', evs)
    /\ http_calls evs = [ EvHttp POST_PUBLIC "/auth/refresh" (Some (RefreshBody token)) ]
    /\ store w' !! USER_DATA = store w1 !! USER_DATA.
Proof.
  intros Hread Hstored Htoken Hpost Hs Hd Hacc.
  destruct (setTokens_accepted newTokens w1 Hacc) as (w2 & evs2 & Hset & Hu).
  assert (Hevs2 : http_calls evs2 = []).
  { destruct (setTokens_run (Body:=Body) rejects newTokens w1)
      as (r & w3 & a1 & a2 & a3 & Hrun & _).
    rewrite Hset in Hrun. injection Hrun as _ _ ->. reflexivity. }
  unfold refreshTokens, try_catch at 1, bind at 1, getRefreshToken, try_catch, getItemAsync.
  rewrite Hread. cbn [negb]. rewrite Hstored.
  assert (Ht : JS.truthy (Some token) = true)
    by (cbn; apply negb_true_iff, String.eqb_neq, Htoken).
  rewrite Ht. cbn [negb from_option]. unfold Datatypes.id.
  unfold bind at 1, request. rewrite Hpost, Hs, Hd.
  unfold bind. rewrite Hset. unfold ret.
  do 2 eexists. split; [reflexivity|]. split; [|exact Hu].
  unfold http_calls. cbn [app List.filter is_http]. rewrite List.filter_app.
  fold (http_calls evs2). rewrite Hevs2. reflexivity.
Qed.

(** C9. The persisted record is written as a group: when [login] or
    [register] succeeds all four keys hold the new session, and when
    [refreshTokens] succeeds the three token keys hold the new tokens
    (the stored profile stays as it is). These successes happen: when
    the backend accepts and the platform accepts the writes, each of
    the three operations succeeds with the tokens the backend sent.
    The record is cleared as a group: [logout], and every failed
    [refreshTokens], end by deleting all four keys (on a platform that
    accepts deletes nothing of the record remains). And whatever
    writes of [setTokens] the platform rejects, a resulting store
    without an expiry value is treated as expired: [isTokenExpired]
    answers [true]. *)
Theorem C9_persisted_record_lifecycle (w : World) :
  (forall credentials resp w' evs,
      login rejects httpClient credentials w = (Ok resp, w', evs) ->
      record_holds (tokens resp) (JSON_stringify (user resp)) (now w') w')
  /\ (forall registerData resp w' evs,
      register rejects httpClient registerData w = (Ok resp, w', evs) ->
      record_holds (tokens resp) (JSON_stringify (user resp)) (now w') w')
  /\ (forall t w' evs,
      refreshTokens rejects httpClient w = (Ok t, w', evs) ->
      store w' !! ACCESS_TOKEN = Some (accessToken t)
      /\ store w' !! REFRESH_TOKEN = Some (refreshToken t)
      /\ store w' !! TOKEN_EXPIRY = Some (calculateExpiryTimestamp (now w') (expiresIn t)))
  /\ (deletes_accepted rejects ->
      record_cleared (snd (fst (logout rejects httpClient w))))
  /\ (deletes_accepted rejects ->
      forall e w' evs,
        refreshTokens rejects httpClient w = (Throw e, w', evs) -> record_cleared w')
  /\ (forall tokenData r w' evs,
        setTokens (Body:=Body) rejects tokenData w = (r, w', evs) ->
        JS.truthy (store w' !! TOKEN_EXPIRY) = false ->
        exists w'' evs', isTokenExpired (Body:=Body) rejects w' = (Ok true, w'', evs'))
  /\ (writes_accepted rejects ->
      (forall credentials response d w1,
          postPublic_auth httpClient "/auth/login" (LoginBody credentials) w
          = (Ok response, w1) ->
          success response = true -> data response = Some d ->
          exists resp w' evs,
            login rejects httpClient credentials w = (Ok resp, w', evs)
            /\ tokens resp = ap_tokens d
            /\ record_holds (ap_tokens d) (JSON_stringify (user resp)) (now w') w')
      /\ (forall registerData response d w1,
          postPublic_auth httpClient "/auth/register"
            (RegisterBody (requestData registerData)) w = (Ok response, w1) ->
          success response = true -> data response = Some d ->
          exists resp w' evs,
            register rejects httpClient registerData w = (Ok resp, w', evs)
            /\ tokens resp = ap_tokens d
            /\ record_holds (ap_tokens d) (JSON_stringify (user resp)) (now w') w')
      /\ (forall token response newTokens w1,
          rejects (sops w) (OpGet REFRESH_TOKEN) = false ->
          store w !! REFRESH_TOKEN = Some token -> token <> "" ->
          postPublic_tokens httpClient "/auth/refresh" (RefreshBody token) (tick w)
          = (Ok response, w1) ->
          success response = true -> data response = Some (Some newTokens) ->
          exists w' evs,
            refreshTokens rejects httpClient w = (Ok newTokens, w', evs)
            /\ http_calls evs
               = [ EvHttp POST_PUBLIC "/auth/refresh" (Some (RefreshBody token)) ]
            /\ store w' !! ACCESS_TOKEN = Some (accessToken newTokens)
            /\ store w' !! REFRESH_TOKEN = Some (refreshToken newTokens)
            /\ store w' !! TOKEN_EXPIRY
               = Some (calculateExpiryTimestamp (now w') (expiresIn newTokens))
            /\ store w' !! USER_DATA = store w1 !! USER_DATA)).
Proof.
  split; [intros c resp w' evs; apply login_success_run|].
  split; [intros rd resp w' evs; apply register_success_run|].
  split; [intros t w' evs; apply refreshTokens_success_run|].
  split.
  { intros Hacc.
    destruct (logout_run w) as (w' & a1 & a2 & a3 & a4 & Hrun & _ & _ & _ & _ & _ & Hclr).
    rewrite Hrun. cbn [fst snd]. now apply Hclr. }
  split.
  { intros Hacc e w' evs Hfail.
    destruct (refreshTokens_failure_run w e w' evs Hfail)
      as (pre & a1 & a2 & a3 & a4 & _ & _ & _ & _ & _ & Hclr).
    now apply Hclr. }
  split.
  { intros tokenData r w' evs _ Hnone.
    destruct (isTokenExpired_run (Body:=Body) rejects w') as (b & a & Hrun & Hb).
    rewrite Hnone, andb_false_r in Hb. subst b. eauto. }
  intros Hacc. split; [|split].
  - intros credentials response d w1 Hpost Hs Hd.
    destruct (login_accepted_run credentials w response d w1 Hpost Hs Hd Hacc)
      as (resp & w' & evs & Hrun & Htok).
    exists resp, w', evs. split; [exact Hrun|]. split; [exact Htok|].
    rewrite <- Htok. eapply login_success_run; eauto.
  - intros registerData response d w1 Hpost Hs Hd.
    destruct (register_accepted_run registerData w response d w1 Hpost Hs Hd Hacc)
      as (resp & w' & evs & Hrun & Htok).
    exists resp, w', evs. split; [exact Hrun|]. split; [exact Htok|].
    rewrite <- Htok. eapply register_success_run; eauto.
  - intros token response newTokens w1 Hread Hstored Htoken Hpost Hs Hd.
    destruct (refreshTokens_accepted_run w token response newTokens w1
                Hread Hstored Htoken Hpost Hs Hd Hacc) as (w' & evs & Hrun & Hhttp & Hu).
    destruct (refreshTokens_success_run w newTokens w' evs Hrun) as (H1 & H2 & H3).
    exists w', evs. repeat split; assumption.
Qed.

End ServiceFacts.

(** ** The service on concrete worlds *)

Lemma C1_witness :
  (exists w' evs,
      AuthService.verifySession reliable (rt:=demo_runtime) offline_client (fresh_install 0)
      = (Ok false, w', evs)
      /\ http_calls evs = [] /\ store w' = store (fresh_install 0))
  /\ (exists r w3 ev3,
      AuthService.refreshTokens reliable online_client
        (tick (tick (tick (logged_in 1700000900000)))) = (r, w3, ev3)
      /\ AuthService.verifySession reliable (rt:=demo_runtime) online_client
           (logged_in 1700000900000)
         = (Ok (is_ok r), w3,
            [ EvStore (OpGet SecureStorage.ACCESS_TOKEN) true;
              EvStore (OpGet SecureStorage.REFRESH_TOKEN) true ]
            ++ [ EvStore (OpGet SecureStorage.TOKEN_EXPIRY) true ] ++ ev3)
      /\ (http_calls ev3 = []
          \/ exists token,
              http_calls ev3
              = [ EvHttp POST_PUBLIC "/auth/refresh" (Some (RefreshBody token)) ]))
  /\ (exists r w3 ev3,
      AuthService.getCurrentUser reliable (rt:=demo_runtime) online_client
        (tick (tick (tick (logged_in 1700000000000)))) = (r, w3, ev3)
      /\ AuthService.verifySession reliable (rt:=demo_runtime) online_client
           (logged_in 1700000000000)
         = (Ok (is_ok r), w3,
            [ EvStore (OpGet SecureStorage.ACCESS_TOKEN) true;
              EvStore (OpGet SecureStorage.REFRESH_TOKEN) true ]
            ++ [ EvStore (OpGet SecureStorage.TOKEN_EXPIRY) true ] ++ ev3)
      /\ http_calls ev3 = [ EvHttp GET "/auth/me" None ]).
Proof.
  split; [|split].
  - apply (C1_verifySession reliable (rt:=demo_runtime) offline_client (fresh_install 0)).
    reflexivity.
  - apply (proj1 (proj2 (proj2
      (C1_verifySession reliable (rt:=demo_runtime) online_client (logged_in 1700000900000))))
      (tick (tick (logged_in 1700000900000)))).
    + vm_compute. reflexivity.
    + vm_compute. reflexivity.
  - apply (proj2 (proj2 (proj2
      (C1_verifySession reliable (rt:=demo_runtime) online_client (logged_in 1700000000000))))
      (tick (tick (logged_in 1700000000000)))).
    + vm_compute. reflexivity.
    + vm_compute. reflexivity.
Defined.


Lemma C4_witness :
  let out := AuthService.logout reliable offline_client (logged_in 0) in
  fst (fst out) = Ok tt
  /\ record_cleared (snd (fst out))
  /\ authHeader (snd (fst out)) = None
  /\ exists a1 a2 a3 a4,
      snd out =
        [ EvHttp POST "/auth/logout" None;
          EvStore (OpDelete SecureStorage.ACCESS_TOKEN) a1;
          EvStore (OpDelete SecureStorage.REFRESH_TOKEN) a2;
          EvStore (OpDelete SecureStorage.TOKEN_EXPIRY) a3;
          EvStore (OpDelete SecureStorage.USER_DATA) a4;
          EvRemoveAuthToken ].
Proof.
  destruct (C4_logout_clears_then_strips reliable offline_client (logged_in 0))
    as (w' & a1 & a2 & a3 & a4 & Hrun & Hheader & _ & _ & _ & _ & Hclr).
  cbv zeta. rewrite Hrun. cbn [fst snd].
  split; [reflexivity|]. split; [apply Hclr; intros n k; reflexivity|].
  split; [exact Hheader|]. eauto.
Defined.

Lemma C9_witness :
  (exists resp w' evs,
      AuthService.login reliable (rt:=demo_runtime) online_client demo_credentials
        (fresh_install 0) = (Ok resp, w', evs)
      /\ record_holds (tokens resp) (@JSON_stringify demo_runtime (user resp)) (now w') w')
  /\ record_cleared (snd (fst (AuthService.logout reliable offline_client (logged_in 0))))
  /\ (exists r w' evs,
      SecureStorage.setTokens (Body:=Body) expiry_write_fails demo_tokens (fresh_install 0)
      = (r, w', evs)
      /\ store w' !! SecureStorage.ACCESS_TOKEN = Some "temp_access_1"
      /\ store w' !! SecureStorage.TOKEN_EXPIRY = None
      /\ exists w'' evs',
          SecureStorage.isTokenExpired (Body:=Body) expiry_write_fails w' = (Ok true, w'', evs'))
  /\ (exists resp w' evs,
      AuthService.register reliable (rt:=demo_runtime) online_client visitor (fresh_install 0)
      = (Ok resp, w', evs)
      /\ tokens resp = demo_tokens
      /\ record_holds demo_tokens (@JSON_stringify demo_runtime (user resp)) (now w') w')
  /\ (exists w' evs,
      AuthService.refreshTokens reliable online_client (logged_in 1700000900000)
      = (Ok demo_tokens, w', evs)
      /\ http_calls evs
         = [ EvHttp POST_PUBLIC "/auth/refresh" (Some (RefreshBody "temp_refresh_0")) ]
      /\ store w' !! SecureStorage.ACCESS_TOKEN = Some "temp_access_1"
      /\ store w' !! SecureStorage.REFRESH_TOKEN = Some "temp_refresh_1"
      /\ store w' !! SecureStorage.TOKEN_EXPIRY = Some "1701296900000"
      /\ store w' !! SecureStorage.USER_DATA = Some "u1/felipe@gmail.com/").
Proof.
  split; [|split; [|split; [|split]]].
  - destruct (AuthService.login reliable (rt:=demo_runtime) online_client demo_credentials
                (fresh_install 0)) as [[[resp|e] w'] evs] eqn:Hlogin.
    + exists resp, w', evs. split; [reflexivity|].
      exact (proj1 (C9_persisted_record_lifecycle reliable (rt:=demo_runtime) online_client
                      (fresh_install 0)) _ _ _ _ Hlogin).
    + exfalso. vm_compute in Hlogin. discriminate.
  - apply (C9_persisted_record_lifecycle reliable (rt:=demo_runtime) offline_client (logged_in 0)).
    intros n k. reflexivity.
  - destruct (SecureStorage.setTokens (Body:=Body) expiry_write_fails demo_tokens (fresh_install 0))
      as [[r w'] evs] eqn:Hset.
    exists r, w', evs. split; [reflexivity|].
    assert (Hstore : store w' !! SecureStorage.ACCESS_TOKEN = Some "temp_access_1"
                     /\ store w' !! SecureStorage.TOKEN_EXPIRY = None).
    { vm_compute in Hset. injection Hset as _ <- _. split; vm_compute; reflexivity. }
    destruct Hstore as [Ha He]. split; [exact Ha|]. split; [exact He|].
    apply (proj1 (proj2 (proj2 (proj2 (proj2 (proj2
      (C9_persisted_record_lifecycle expiry_write_fails (rt:=demo_runtime) offline_client
         (fresh_install 0))))))) _ _ _ _ Hset).
    now rewrite He.
  - destruct (proj2 (proj2 (proj2 (proj2 (proj2 (proj2
                (C9_persisted_record_lifecycle reliable (rt:=demo_runtime) online_client
                   (fresh_install 0)))))))
                (fun n k v => eq_refl)) as (_ & Hreg & _).
    exact (Hreg visitor _ _ (fresh_install 0) eq_refl eq_refl eq_refl).
  - destruct (proj2 (proj2 (proj2 (proj2 (proj2 (proj2
                (C9_persisted_record_lifecycle reliable (rt:=demo_runtime) online_client
                   (logged_in 1700000900000)))))))
                (fun n k v => eq_refl)) as (_ & _ & Href).
    assert (Hstored : store (logged_in 1700000900000) !! SecureStorage.REFRESH_TOKEN
                      = Some "temp_refresh_0") by (vm_compute; reflexivity).
    assert (Htoken : "temp_refresh_0" <> "") by discriminate.
    assert (Hpost : postPublic_tokens online_client "/auth/refresh"
                      (RefreshBody "temp_refresh_0") (tick (logged_in 1700000900000))
                    = (Ok {| success := true; api_message := "ok";
                             data := Some (Some demo_tokens) |},
                       tick (logged_in 1700000900000))) by (vm_compute; reflexivity).
    destruct (Href "temp_refresh_0" _ demo_tokens _ eq_refl Hstored Htoken Hpost
                eq_refl eq_refl)
      as (w' & evs & Hrun & Hhttp & Ha & Hr & He & Hu).
    exists w', evs. split; [exact Hrun|]. split; [exact Hhttp|].
    split; [exact Ha|]. split; [exact Hr|]. split.
    + rewrite He.
      assert (Hnow : now w' = 1700000900000).
      { assert (Hn : now (snd (fst (AuthService.refreshTokens reliable online_client
                                      (logged_in 1700000900000)))) = 1700000900000)
          by (vm_compute; reflexivity).
        rewrite Hrun in Hn. exact Hn. }
      rewrite Hnow. vm_compute. reflexivity.
    + rewrite Hu. vm_compute. reflexivity.
Defined.

Lemma C10_witness :
  rd_isResident visitor = Some false
  /\ exists resp w' evs,
      AuthService.register reliable (rt:=demo_runtime) online_client visitor (fresh_install 0)
      = (Ok resp, w', evs)
      /\ isResident (user resp) = Some true
      /\ store w' !! SecureStorage.USER_DATA = Some (@JSON_stringify demo_runtime (user resp)).
Proof.
  split; [reflexivity|].
  destruct (AuthService.register reliable (rt:=demo_runtime) online_client visitor
              (fresh_install 0)) as [[[resp|e] w'] evs] eqn:Hreg.
  - exists resp, w', evs. split; [reflexivity|].
    exact (proj2 (proj2 (C10_register_isResident_always_true reliable (rt:=demo_runtime)
                           online_client visitor (fresh_install 0))) _ _ _ Hreg).
  - exfalso. vm_compute in Hreg. discriminate.
Defined.

(** ** The session reducer *)

Section ReducerFacts.
Import AuthContext.

Lemma refreshing_reachable (u : UserData) : reachable (refreshing u).
Proof. unfold refreshing. repeat apply reach_step. apply reach_init. Qed.

(** The claimed equivalence fails in both directions. While a logged-in
    session refreshes, the user is set and the tokens are stored, and
    the status is [LOADING]. And the reducer's state has no tokens: they
    live in the secure store, which no reducer step reads or writes, so
    [SET_AUTHENTICATED] gives the status [AUTHENTICATED] also when the
    store holds none (the 401 interceptor clears the store without
    dispatching anything). *)
Lemma C6_counterexample :
  (let s := refreshing demo_user in
   let stored_tokens := Some demo_tokens in
   reachable s
   /\ ~ (AuthContext.state s = AUTHENTICATED
         <-> (AuthContext.user s <> None /\ stored_tokens <> None)))
  /\ (let s := authReducer initialState (SET_AUTHENTICATED demo_user) in
      let stored_tokens : option TokenData := None in
      reachable s
      /\ ~ (AuthContext.state s = AUTHENTICATED
            <-> (AuthContext.user s <> None /\ stored_tokens <> None))).
Proof.
  cbv zeta. split; split.
  - apply refreshing_reachable.
  - intros [_ H]. assert (Hs : AuthContext.state (refreshing demo_user) = AUTHENTICATED).
    { apply H. split; discriminate. }
    discriminate Hs.
  - apply reach_step, reach_init.
  - intros [H _]. destruct (H eq_refl) as [_ Hn]. now apply Hn.
Qed.

Lemma reducer_invariant (s : AuthContextState) :
  reachable s ->
  (AuthContext.state s = AUTHENTICATED -> isAuthenticated s = true)
  /\ (isAuthenticated s = true -> AuthContext.user s <> None).
Proof.
  induction 1 as [|s action Hs [IH1 IH2]].
  - split; discriminate.
  - destruct action as [[]|p| | |p| |]; cbn; split; intros; try discriminate; auto.
    + destruct (JS.truthy p); [discriminate|auto].
    + destruct (isAuthenticated s); [reflexivity|discriminate].
Qed.

(** C6 (amended). In every state the reducer reaches from the initial
    state, the status [AUTHENTICATED] implies that the [isAuthenticated]
    flag is set and the user is non-null. *)
Theorem C6_authenticated_implies_user (s : AuthContextState) :
  reachable s ->
  AuthContext.state s = AUTHENTICATED ->
  isAuthenticated s = true /\ AuthContext.user s <> None.
Proof.
  intros Hs Hauth. destruct (reducer_invariant s Hs) as [H1 H2]. auto.
Qed.

Lemma C6_witness :
  let s := authReducer initialState (SET_AUTHENTICATED demo_user) in
  isAuthenticated s = true /\ AuthContext.user s <> None.
Proof.
  apply C6_authenticated_implies_user.
  - apply reach_step, reach_init.
  - reflexivity.
Defined.

End ReducerFacts.

(** ** The mutation executor *)

Section ExecutorFacts.
Import Mutation.
Context {TData TVariables E : Type}.
Context (options : @Options) (env : Env TData E).

Local Abbreviation Hook := (Hook TData TVariables E).
Local Abbreviation MutationState := (MutationState TData E).

Lemma invocations_log_fn (v : TVariables) (h : Hook) :
  invocations (log (CallMutationFn v) h) = S (invocations h).
Proof.
  unfold invocations, log. cbn [calls].
  rewrite List.filter_app, List.length_app. cbn. lia.
Qed.

Lemma invocations_log_other (c : Call TData TVariables E) (h : Hook) :
  (forall v, c <> CallMutationFn v) ->
  invocations (log c h) = invocations h.
Proof.
  intros Hc. unfold invocations, log. cbn [calls].
  rewrite List.filter_app, List.length_app.
  destruct c; cbn; try lia. now destruct (Hc variables).
Qed.

Lemma invocations_cancel_if (b : bool) (h : Hook) :
  invocations (cancel_if b h) = invocations h.
Proof. now destruct b. Qed.

Lemma invoke_Some (v : TVariables) (a : Z) (h h1 : Hook) :
  invoke v a h = Some h1 ->
  cancelRef h = false /\ cancelRef h1 = false
  /\ invocations h1 = S (invocations h)
  /\ attemptCount (state h1) = a.
Proof.
  unfold invoke. destruct (cancelRef h) eqn:Hc; [discriminate|].
  intros [= <-]. rewrite invocations_log_fn. repeat split. exact Hc.
Qed.

(** When [executeWithRetry] throws and the mutation was not cancelled,
    it throws what the last invocation of [mutationFn] rejected
    with. *)
Lemma executeWithRetry_throws_last (fuel : nat) (v : TVariables) (a : Z) (h : Hook)
    (err : MError E) (h' : Hook) :
  executeWithRetry options env fuel v a h = Some (inr err, h') ->
  cancelRef h' = false ->
  exists e, err = FnError e
    /\ (0 < invocations h')%nat
    /\ settles env (invocations h' - 1) = Rejected e.
Proof.
  revert a h. induction fuel as [|fuel IH]; intros a h; [discriminate|].
  cbn [executeWithRetry].
  destruct (invoke v a h) as [h1|] eqn:Hinv.
  2: { intros [= <- <-] Hc. unfold invoke in Hinv.
       rewrite Hc in Hinv. discriminate. }
  destruct (invoke_Some _ _ _ _ Hinv) as (Hc0 & Hc1 & Hn1 & _).
  set (h2 := cancel_if (cancel_during_call env (invocations h)) h1).
  assert (Hn2 : invocations h2 = S (invocations h))
    by (unfold h2; now rewrite invocations_cancel_if).
  assert (Hlast : forall e : E, settles env (invocations h) = Rejected e ->
            exists e0, FnError e = FnError e0 /\ (0 < invocations h2)%nat
              /\ settles env (invocations h2 - 1) = Rejected e0).
  { intros e He. exists e. rewrite Hn2. split; [reflexivity|]. split; [lia|].
    now replace (S (invocations h) - 1)%nat with (invocations h) by lia. }
  destruct (settles env (invocations h)) as [result|e] eqn:Hset.
  - destruct (cancelRef h2) eqn:Hc2.
    + rewrite andb_false_r. intros [= <- <-] Hc. congruence.
    + discriminate.
  - destruct ((match retry options with
               | RetryBool b => b
               | RetryNum n => a <=? n
               end) && negb (cancelRef h2)) eqn:Hretry.
    + apply IH.
    + intros [= <- <-] _. now apply Hlast.
Qed.

Lemma settle_error_surfaced (rendered : MutationState) (v : TVariables)
    (r : TData + MError E) (h : Hook) :
  isError (state h) = false ->
  isError (state (settle options rendered v r h)) = true ->
  cancelRef (settle options rendered v r h) = cancelRef h
  /\ invocations (settle options rendered v r h) = invocations h
  /\ exists err, r = inr err /\ cancelRef h = false
       /\ error (state (settle options rendered v r h)) = Some err.
Proof.
  intros Hne. unfold settle.
  destruct r as [d|err]; destruct (cancelRef h) eqn:Hc;
    destruct (onSuccess options), (onError options), (showErrorAlert options),
      (revertOptimisticUpdate options), (onSettled options);
    cbn; rewrite ?Hc; cbn; try congruence;
    intros _; (split; [congruence|]);
    (split; [unfold invocations; rewrite ?List.filter_app, ?List.length_app; cbn; lia|]);
    eauto.
Qed.

(** [executeWithRetry] itself only moves the attempt counter (and
    [cancel()] only clears [isLoading]). *)
Lemma executeWithRetry_flags (fuel : nat) (v : TVariables) (a : Z) (h : Hook)
    (r : TData + MError E) (h' : Hook) :
  executeWithRetry options env fuel v a h = Some (r, h') ->
  isError (state h') = isError (state h) /\ isSuccess (state h') = isSuccess (state h).
Proof.
  revert a h r h'. induction fuel as [|fuel IH]; intros a h r h'; [discriminate|].
  cbn [executeWithRetry]. unfold invoke.
  destruct (cancelRef h); [intros [= <- <-]; split; reflexivity|].
  match goal with
  | |- context [cancel_if ?b ?x] => set (h2 := cancel_if b x)
  end.
  assert (H2 : isError (state h2) = isError (state h)
               /\ isSuccess (state h2) = isSuccess (state h))
    by (unfold h2, cancel_if; now destruct (cancel_during_call _ _)).
  assert (Hretry : forall b c,
    executeWithRetry options env fuel v (a + 1) (cancel_if b (log c h2)) = Some (r, h') ->
    isError (state h') = isError (state h) /\ isSuccess (state h') = isSuccess (state h)).
  { intros b c Hrun. destruct (IH _ _ _ _ Hrun) as [-> ->], H2 as [<- <-]. now destruct b. }
  destruct (settles env (invocations h)); [destruct (cancelRef h2)|];
    try (intros [= <- <-]; exact H2);
    match goal with
    | |- (if ?c then _ else _) = _ -> _ => destruct c
    end; try (intros [= <- <-]; exact H2); apply Hretry.
Qed.

(** Whenever [mutate] ends with an error surfaced in the state (and
    the mutation was not cancelled), that error is what the last
    invocation of [mutationFn] rejected with. *)
Lemma mutate_surfaces_last (fuel : nat) (rendered : MutationState) (v : TVariables)
    (h h' : Hook) :
  mutate options env fuel rendered v h = Some h' ->
  isLoading rendered = false ->
  isError (state h') = true ->
  cancelRef h' = false ->
  exists e, error (state h') = Some (FnError e)
    /\ (0 < invocations h')%nat
    /\ settles env (invocations h' - 1) = Rejected e.
Proof.
  unfold mutate. intros Hrun Hguard Herr Hnc. rewrite Hguard in Hrun.
  destruct (executeWithRetry options env fuel v 1 (prepare options v h))
    as [[r h1]|] eqn:Hexec; [|discriminate].
  injection Hrun as <-.
  assert (Hne : isError (state h1) = false).
  { rewrite (proj1 (executeWithRetry_flags _ _ _ _ _ _ Hexec)).
    unfold prepare. now destruct (optimisticUpdate options). }
  destruct (settle_error_surfaced rendered v r h1 Hne Herr)
    as (Hc & Hn & err & -> & Hc1 & Hsurf).
  destruct (executeWithRetry_throws_last _ _ _ _ _ _ Hexec Hc1) as (e & -> & Hpos & Hlast).
  exists e. rewrite Hsurf, Hn. auto.
Qed.

(** With [retry = n], an operation that keeps failing is attempted
    [n + 1] times and then the last error is thrown: here [k] retries
    remain after the current attempt. *)
Lemma executeWithRetry_exhausts (n : nat) (errs : nat -> E) (v : TVariables) :
  retry options = RetryNum (Z.of_nat n) ->
  undisturbed env ->
  forall (k : nat) (fuel : nat) (h : Hook),
    (k <= n)%nat -> (S k <= fuel)%nat ->
    cancelRef h = false ->
    (forall i, (invocations h <= i <= invocations h + k)%nat ->
               settles env i = Rejected (errs i)) ->
    exists h',
      executeWithRetry options env fuel v (Z.of_nat (S n - k)) h
      = Some (inr (FnError (errs (invocations h + k)%nat)), h')
      /\ cancelRef h' = false
      /\ attemptCount (state h') = Z.of_nat (S n)
      /\ invocations h' = (invocations h + S k)%nat.
Proof.
  intros Hretry Hund.
  induction k as [|k IH]; intros fuel h Hk Hfuel Hc Hset;
    (destruct fuel as [|fuel]; [lia|]); cbn [executeWithRetry];
    unfold invoke; rewrite Hc;
    destruct (Hund (invocations h)) as [-> Hdelay]; cbn [cancel_if];
    rewrite (Hset (invocations h) ltac:(lia)), Hretry.
  - replace (Z.of_nat (S n - 0) <=? Z.of_nat n) with false by (symmetry; apply Z.leb_gt; lia).
    cbn [andb]. eexists. split; [now rewrite Nat.add_0_r|].
    rewrite invocations_log_fn. cbn. repeat split; try assumption;
      unfold invocations; lia.
  - replace (Z.of_nat (S n - S k) <=? Z.of_nat n) with true by (symmetry; apply Z.leb_le; lia).
    cbn [andb negb log setState cancelRef]. rewrite Hc. cbn [negb].
    rewrite Hdelay. cbn [cancel_if].
    replace (Z.of_nat (S n - S k) + 1) with (Z.of_nat (S n - k)) by lia.
    match goal with
    | |- context [executeWithRetry _ _ _ _ _ ?h3] =>
        assert (Hn3 : invocations h3 = S (invocations h));
        [|destruct (IH fuel h3) as (h' & Hrun & Hc' & Ha & Hn)]
    end.
    + unfold invocations. cbn. rewrite ?List.filter_app, ?List.length_app. cbn. lia.
    + lia.
    + lia.
    + exact Hc.
    + intros i Hi. apply Hset. rewrite Hn3 in Hi. lia.
    + rewrite Hn3 in Hrun, Hn. exists h'.
      replace (invocations h + S k)%nat with (S (invocations h) + k)%nat by lia.
      split; [exact Hrun|]. repeat split; try assumption; lia.
Qed.

End ExecutorFacts.

Section ExecutorClaims.
Import Mutation.
Context {TData TVariables E : Type}.

Lemma mutate_retry2_succeeds (options : Options) (env : Env TData E) (fuel : nat)
    (rendered : MutationState TData E) (v : TVariables) (e1 e2 : E) (d : TData) :
  retry options = RetryNum 2 ->
  undisturbed env ->
  settles env 0%nat = Rejected e1 ->
  settles env 1%nat = Rejected e2 ->
  settles env 2%nat = Resolved d ->
  isLoading rendered = false ->
  (3 <= fuel)%nat ->
  exists h',
    mutate options env fuel rendered v mounted = Some h'
    /\ isSuccess (state h') = true /\ isError (state h') = false
    /\ isLoading (state h') = false
    /\ data (state h') = Some d /\ error (state h') = None
    /\ attemptCount (state h') = 3
    /\ invocations h' = 3%nat.
Proof.
  intros Hretry Hund H0 H1 H2 Hguard Hfuel.
  destruct fuel as [|[|[|fuel]]]; try lia.
  destruct (Hund 0%nat) as [Hc0 Hd0], (Hund 1%nat) as [Hc1 Hd1], (Hund 2%nat) as [Hc2 Hd2].
  destruct options as [r rd sa ou ro os oe ost]. cbn in Hretry. subst r.
  unfold mutate. rewrite Hguard.
  destruct ou, os, ost; cbn; rewrite ?Hc0, ?H0; cbn; rewrite ?Hd0; cbn;
    rewrite ?Hc1, ?H1; cbn; rewrite ?Hd1; cbn; rewrite ?Hc2, ?H2; cbn;
    eexists; (split; [reflexivity|]); cbn; repeat split.
Qed.

Lemma mutate_exhausted_surfaces_last (options : Options) (env : Env TData E) (fuel : nat)
    (rendered : MutationState TData E) (v : TVariables) (n : nat) (errs : nat -> E) :
  retry options = RetryNum (Z.of_nat n) ->
  undisturbed env ->
  (forall i, (i <= n)%nat -> settles env i = Rejected (errs i)) ->
  isLoading rendered = false ->
  (S n <= fuel)%nat ->
  exists h',
    mutate options env fuel rendered v mounted = Some h'
    /\ isError (state h') = true /\ isSuccess (state h') = false
    /\ error (state h') = Some (FnError (errs n))
    /\ attemptCount (state h') = Z.of_nat (S n)
    /\ invocations h' = S n.
Proof.
  intros Hretry Hund Hset Hguard Hfuel.
  unfold mutate. rewrite Hguard.
  assert (Hinv : invocations (prepare options v (@mounted TData TVariables E)) = 0%nat)
    by (unfold prepare; now destruct (optimisticUpdate options)).
  assert (Hc : cancelRef (prepare options v (@mounted TData TVariables E)) = false)
    by (unfold prepare; now destruct (optimisticUpdate options)).
  destruct (executeWithRetry_exhausts options env n errs v Hretry Hund n fuel
              (prepare options v mounted) ltac:(lia) Hfuel Hc)
    as (h1 & Hrun & Hc1 & Ha & Hn).
  { intros i Hi. apply Hset. rewrite Hinv in Hi. lia. }
  replace (Z.of_nat (S n - n)) with 1 in Hrun by lia.
  rewrite Hrun, Hinv in *. cbn [Nat.add] in *.
  eexists. split; [reflexivity|].
  assert (Hs : isSuccess (state h1) = false).
  { rewrite (proj2 (executeWithRetry_flags _ _ _ _ _ _ _ _ Hrun)).
    unfold prepare. now destruct (optimisticUpdate options). }
  unfold settle. rewrite Hc1. cbn [negb].
  destruct (onError options), (showErrorAlert options), (revertOptimisticUpdate options),
    (onSettled options); cbn; rewrite ?Hc1; cbn;
    repeat split; try assumption;
    unfold invocations in *; cbn; rewrite ?List.filter_app, ?List.length_app; cbn; lia.
Qed.

(** C7. With [retry = 2], an operation that fails on its first two
    invocations and succeeds on the third makes [mutate] end in
    success with [attemptCount = 3]. Whenever [mutate] ends with an
    error surfaced (and was not cancelled), that error is the one the
    last invocation of the operation rejected with; in particular with
    [retry = n] and an operation that keeps failing, the run ends
    after [n + 1] attempts with the error of the last one. *)
Theorem C7_retry_and_last_error (options : Options) (env : Env TData E)
    (rendered : MutationState TData E) (v : TVariables) :
  isLoading rendered = false ->
  (forall fuel e1 e2 d,
      retry options = RetryNum 2 -> undisturbed env ->
      settles env 0%nat = Rejected e1 ->
      settles env 1%nat = Rejected e2 ->
      settles env 2%nat = Resolved d ->
      (3 <= fuel)%nat ->
      exists h',
        mutate options env fuel rendered v mounted = Some h'
        /\ isSuccess (state h') = true /\ isError (state h') = false
        /\ isLoading (state h') = false
        /\ data (state h') = Some d /\ error (state h') = None
        /\ attemptCount (state h') = 3
        /\ invocations h' = 3%nat)
  /\ (forall fuel h h',
      mutate options env fuel rendered v h = Some h' ->
      isError (state h') = true ->
      cancelRef h' = false ->
      exists e, error (state h') = Some (FnError e)
        /\ (0 < invocations h')%nat
        /\ settles env (invocations h' - 1) = Rejected e)
  /\ (forall fuel n errs,
      retry options = RetryNum (Z.of_nat n) -> undisturbed env ->
      (forall i, (i <= n)%nat -> settles env i = Rejected (errs i)) ->
      (S n <= fuel)%nat ->
      exists h',
        mutate options env fuel rendered v mounted = Some h'
        /\ isError (state h') = true /\ isSuccess (state h') = false
        /\ error (state h') = Some (FnError (errs n))
        /\ attemptCount (state h') = Z.of_nat (S n)
        /\ invocations h' = S n).
Proof.
  intros Hguard. split; [|split].
  - intros fuel e1 e2 d Hretry Hund H0 H1 H2 Hfuel.
    now apply (mutate_retry2_succeeds options env fuel rendered v e1 e2 d).
  - intros fuel h h' Hrun Herr Hc.
    now apply (mutate_surfaces_last options env fuel rendered v h h').
  - intros fuel n errs Hretry Hund Hset Hfuel.
    now apply mutate_exhausted_surfaces_last.
Qed.

(** Once the component has re-rendered with the pending state, a
    further [mutate] is ignored: nothing changes, [mutationFn] is not
    invoked. *)
Lemma mutate_ignored_after_render (options : Options) (env : Env TData E) (fuel : nat)
    (v : TVariables) (h : Hook TData TVariables E) :
  isLoading (state h) = true ->
  mutate options env fuel (state h) v h = Some h
  /\ mutate_pending options (state h) v h = h.
Proof. intros H. unfold mutate, mutate_pending. now rewrite H. Qed.

(** C8, on the code: two [mutate] calls made back to back through the
    same callback, before the component re-renders. The first call is
    pending ([isLoading] is set in the live state), yet the guard of
    the second reads the render-time state and lets it through:
    [mutationFn] is invoked a second time. *)
Theorem C8_second_call_same_render (options : Options) (v1 v2 : TVariables) :
  let rendered := state (@mounted TData TVariables E) in
  let h1 := mutate_pending options rendered v1 mounted in
  let h2 := mutate_pending options rendered v2 h1 in
  isLoading (state h1) = true
  /\ invocations h1 = 1%nat
  /\ invocations h2 = 2%nat
  /\ List.In (CallMutationFn v2) (calls h2)
  /\ currentVariablesRef h2 = Some v2.
Proof.
  cbv zeta. unfold mutate_pending, prepare, invoke.
  destruct (optimisticUpdate options); cbn; repeat split;
    rewrite ?List.in_app_iff; cbn; auto.
Qed.

End ExecutorClaims.

Lemma C7_witness :
  (exists h',
      Mutation.mutate Mutation.useAuthMutation_options flaky 3
        Mutation.idle "credentials" Mutation.mounted = Some h'
      /\ Mutation.isSuccess (Mutation.state h') = true
      /\ Mutation.data (Mutation.state h') = Some "ok"
      /\ Mutation.attemptCount (Mutation.state h') = 3)
  /\ (exists h',
      Mutation.mutate Mutation.useAuthMutation_options broken 3
        Mutation.idle "credentials" Mutation.mounted = Some h'
      /\ Mutation.isError (Mutation.state h') = true
      /\ Mutation.error (Mutation.state h') = Some (Mutation.FnError "attempt 3 failed")).
Proof.
  pose proof (C7_retry_and_last_error Mutation.useAuthMutation_options flaky
                Mutation.idle "credentials" eq_refl) as (Hok & _ & _).
  pose proof (C7_retry_and_last_error Mutation.useAuthMutation_options broken
                Mutation.idle "credentials" eq_refl) as (_ & Hlast & Hex).
  split.
  - destruct (Hok 3%nat "timeout" "503" "ok" eq_refl (fun i => conj eq_refl eq_refl)
                eq_refl eq_refl eq_refl (le_n 3))
      as (h' & Hrun & Hs & _ & _ & Hd & _ & Ha & _).
    exists h'. auto.
  - destruct (Hex 3%nat 2%nat attempt_error eq_refl (fun i => conj eq_refl eq_refl)
                (fun i _ => eq_refl) (le_n 3))
      as (h' & Hrun & He & _ & Herr & _).
    assert (Hc : Mutation.cancelRef h' = false).
    { pose proof Hrun as Hrun'. vm_compute in Hrun'. injection Hrun' as <-. reflexivity. }
    destruct (Hlast 3%nat _ h' Hrun He Hc) as (e & Hsurf & _ & _).
    exists h'. split; [exact Hrun|]. split; [exact He|]. exact Herr.
Defined.

(** ** The 401 interceptor *)

Section InterceptorFacts.
Import HttpClient.

Ltac split_script H :=
  repeat match type of H with
  | _ :: _ = (_ :: _) ++ _ => cbn [app] in H; injection H as <- H
  | _ = [] ++ _ => cbn [app] in H; subst
  | _ :: _ = ?pre ++ _ => destruct pre
  | [] = ?pre ++ ?post => destruct pre; [cbn [app] in H; subst post | discriminate H]
  end.

(** Two requests get a 401 with no refresh in flight, the second while
    the refresh of the first has not yet settled the queue. *)
Lemma concurrent_401_run (a b : nat) (authorization refreshToken : option string)
    (newTokens : option TokenData) (stored : bool) (pre post : list Event) :
  (a = 0 /\ b = 1 \/ a = 1 /\ b = 0)%nat ->
  refresh_script a refreshToken newTokens stored = pre ++ post ->
  post <> [] ->
  let final :=
    run (two_in_flight authorization)
        (Response a (Status 401) :: pre ++ Response b (Status 401) :: post
         ++ refresh_tail a refreshToken newTokens stored) in
  refreshCalls final = (if JS.truthy refreshToken then 1 else 0)%nat
  /\ isRefreshing final = false
  /\ failedQueue final = []
  /\ match refresh_succeeds refreshToken newTokens stored with
     | Some t =>
         requests final !! a
         = Some {| _retry := true;
                   Authorization := Some ("Bearer " ++ accessToken t)%string;
                   phase := InFlight |}
         /\ requests final !! b
            = Some (if JS.truthy (Some (accessToken t)) then
                      {| _retry := false;
                         Authorization := Some ("Bearer " ++ accessToken t)%string;
                         phase := InFlight |}
                    else
                      {| _retry := false; Authorization := authorization;
                         phase := Failed (HttpError 401) |})
     | None =>
         exists e,
           phase_of final a = Some (Failed (RefreshFailed e))
           /\ phase_of final b = Some (Failed (RefreshFailed e))
     end.
Proof.
  intros Hab Hscript Hpost. cbv zeta.
  unfold refresh_script in Hscript.
  destruct refreshToken as [[|c0 s0]|];
    (destruct newTokens as [[[|c1 s1] rt ex]|]);
    cbn in Hscript; split_script Hscript; try congruence;
    destruct Hab as [[-> ->]|[-> ->]];
    destruct stored;
    unfold run, two_in_flight, phase_of, refresh_tail, refresh_succeeds; cbn;
    repeat split; eauto.
Qed.

Lemma alter_lookup_inv (f : Request -> Request) (i j : nat) (l : list Request) (q : Request) :
  alter f i l !! j = Some q ->
  (j = i /\ exists q0, l !! i = Some q0 /\ q = f q0) \/ (j <> i /\ l !! j = Some q).
Proof.
  destruct (decide (i = j)) as [<-|Hne].
  - rewrite list_lookup_alter_eq. destruct (l !! i) as [q0|]; [|discriminate].
    intros [= <-]. left. eauto.
  - rewrite list_lookup_alter_ne by assumption. right. split; [congruence|assumption].
Qed.

(** Settling the queue never makes a request the refresher. *)
Lemma processQueue_refresher (token : option string) (error : option RefreshError)
    (c : Client) (r : nat) (q : Request) :
  requests (processQueue token error c) !! r = Some q ->
  is_refresher q = true ->
  requests c !! r = Some q.
Proof.
  unfold processQueue. cbn [requests].
  generalize (requests c). induction (failedQueue c) as [|x xs IH]; intros reqs; [trivial|].
  cbn [foldl]. intros Hq Href. specialize (IH _ Hq Href).
  apply alter_lookup_inv in IH as [(-> & q0 & _ & ->)|(_ & H)]; [|exact H].
  exfalso. destruct error; [|destruct (JS.truthy token)]; discriminate Href.
Qed.

(** A request is the refresher after a step only if it was before, or
    if it just received a response while no refresh was in flight. *)
Lemma step_refresher (c : Client) (ev : Event) (r : nat) (q : Request) :
  requests (step c ev) !! r = Some q ->
  is_refresher q = true ->
  (exists q0, requests c !! r = Some q0 /\ is_refresher q0 = true)
  \/ (isRefreshing c = false /\ isRefreshing (step c ev) = true
      /\ exists reply, ev = Response r reply).
Proof.
  destruct ev as [h|r0 reply|r0 v|r0 res|r0 ok|r0]; cbn [step].
  - cbn [requests]. intros Hq Href.
    apply lookup_app_Some in Hq as [Hq|[_ Hq]]; [eauto|].
    apply list_lookup_singleton_Some in Hq as [_ <-]. discriminate Href.
  - unfold on_response.
    destruct (requests c !! r0) as [q0|] eqn:H0; [|eauto].
    destruct (phase q0) eqn:Hp; try solve [eauto].
    destruct reply as [code|]; unfold update; cbn [requests].
    + destruct ((200 <=? code) && (code <? 300)); cbn [requests].
      { intros Hq Href. apply alter_lookup_inv in Hq as [(-> & q1 & _ & ->)|(_ & H)];
          [discriminate Href|eauto]. }
      destruct ((code =? 401) && negb (_retry q0)); cbn [requests].
      * destruct (isRefreshing c) eqn:Hflag; cbn [requests isRefreshing];
          intros Hq Href; apply alter_lookup_inv in Hq as [(-> & q1 & _ & ->)|(_ & H)];
          try discriminate Href; eauto 7.
      * intros Hq Href. apply alter_lookup_inv in Hq as [(-> & q1 & _ & ->)|(_ & H)];
          [discriminate Href|eauto].
    + intros Hq Href. apply alter_lookup_inv in Hq as [(-> & q1 & _ & ->)|(_ & H)];
        [discriminate Href|eauto].
  - unfold phase_of. destruct (requests c !! r0) as [q0|] eqn:H0; cbn [fmap option_fmap option_map]; [|eauto].
    destruct (phase q0) as [| |[| | |]| |] eqn:Hp; try solve [eauto].
    destruct (JS.truthy v); unfold fail_refresh, update; cbn [requests];
      intros Hq Href; apply alter_lookup_inv in Hq as [(-> & q1 & Hq1 & ->)|(_ & H)].
    + left. exists q0. split; [exact H0|]. unfold is_refresher. now rewrite Hp.
    + eauto.
    + left. exists q0. split; [exact H0|]. unfold is_refresher. now rewrite Hp.
    + left. exists q. split; [|exact Href]. eapply processQueue_refresher; eauto.
  - unfold phase_of. destruct (requests c !! r0) as [q0|] eqn:H0; cbn [fmap option_fmap option_map]; [|eauto].
    destruct (phase q0) as [| |[| | |]| |] eqn:Hp; try solve [eauto].
    destruct res; unfold fail_refresh, update; cbn [requests];
      intros Hq Href; apply alter_lookup_inv in Hq as [(-> & q1 & Hq1 & ->)|(_ & H)].
    + left. exists q0. split; [exact H0|]. unfold is_refresher. now rewrite Hp.
    + eauto.
    + left. exists q0. split; [exact H0|]. unfold is_refresher. now rewrite Hp.
    + left. exists q. split; [|exact Href]. eapply processQueue_refresher; eauto.
  - unfold phase_of. destruct (requests c !! r0) as [q0|] eqn:H0; cbn [fmap option_fmap option_map]; [|eauto].
    destruct (phase q0) as [| |[| | |]| |] eqn:Hp; try solve [eauto].
    destruct ok; unfold fail_refresh, update; cbn [requests];
      intros Hq Href; apply alter_lookup_inv in Hq as [(-> & q1 & Hq1 & ->)|(_ & H)].
    + discriminate Href.
    + left. exists q. split; [|exact Href]. eapply processQueue_refresher; eauto.
    + left. exists q0. split; [exact H0|]. unfold is_refresher. now rewrite Hp.
    + left. exists q. split; [|exact Href]. eapply processQueue_refresher; eauto.
  - unfold phase_of. destruct (requests c !! r0) as [q0|] eqn:H0; cbn [fmap option_fmap option_map]; [|eauto].
    destruct (phase q0) as [| |[| | |]| |] eqn:Hp; try solve [eauto].
    cbn [requests]. intros Hq Href.
    apply alter_lookup_inv in Hq as [(-> & q1 & Hq1 & ->)|(_ & H)];
      [discriminate Href|eauto].
Qed.

(** The flag goes down only when the refresher leaves the refresh. *)
Lemma step_flag_down (c : Client) (ev : Event) :
  isRefreshing c = true ->
  isRefreshing (step c ev) = false ->
  exists r0 q0,
    requests c !! r0 = Some q0 /\ is_refresher q0 = true
    /\ forall q', requests (step c ev) !! r0 = Some q' -> is_refresher q' = false.
Proof.
  intros Hup.
  destruct ev as [h|r0 reply|r0 v|r0 res|r0 ok|r0]; cbn [step].
  - cbn. congruence.
  - unfold on_response.
    destruct (requests c !! r0) as [q0|]; [|congruence].
    destruct (phase q0); try congruence.
    destruct reply as [code|]; unfold update; cbn [isRefreshing]; [|congruence].
    destruct ((200 <=? code) && (code <? 300)); cbn [isRefreshing]; [congruence|].
    destruct ((code =? 401) && negb (_retry q0)); cbn [isRefreshing]; [|congruence].
    rewrite Hup. cbn. congruence.
  - unfold phase_of. destruct (requests c !! r0) as [q0|]; cbn [fmap option_fmap option_map]; [|congruence].
    destruct (phase q0) as [| |[| | |]| |]; try congruence.
    destruct (JS.truthy v); cbn; congruence.
  - unfold phase_of. destruct (requests c !! r0) as [q0|]; cbn [fmap option_fmap option_map]; [|congruence].
    destruct (phase q0) as [| |[| | |]| |]; try congruence.
    destruct res; cbn; congruence.
  - unfold phase_of. destruct (requests c !! r0) as [q0|] eqn:H0; cbn [fmap option_fmap option_map]; [|congruence].
    destruct (phase q0) as [| |[| |t|]| |] eqn:Hp; try congruence.
    destruct ok; [|cbn; congruence].
    intros _. exists r0, q0. split; [exact H0|]. split; [unfold is_refresher; now rewrite Hp|].
    cbn [requests]. intros q' Hq'.
    apply alter_lookup_inv in Hq' as [(_ & q1 & _ & ->)|(Hne & _)]; [reflexivity|congruence].
  - unfold phase_of. destruct (requests c !! r0) as [q0|] eqn:H0; cbn [fmap option_fmap option_map]; [|congruence].
    destruct (phase q0) as [| |[| | |e]| |] eqn:Hp; try congruence.
    intros _. exists r0, q0. split; [exact H0|]. split; [unfold is_refresher; now rewrite Hp|].
    cbn [requests]. intros q' Hq'.
    apply alter_lookup_inv in Hq' as [(_ & q1 & _ & ->)|(Hne & _)]; [reflexivity|congruence].
Qed.

Lemma step_exclusive (c : Client) (ev : Event) : exclusive c -> exclusive (step c ev).
Proof.
  intros [Hnone Hone]. split.
  - intros Hdown r q Hq. destruct (is_refresher q) eqn:Href; [exfalso|reflexivity].
    destruct (step_refresher c ev r q Hq Href) as [(q0 & Hq0 & Href0)|(_ & Hup & _)];
      [|congruence].
    destruct (isRefreshing c) eqn:Hflag.
    + destruct (step_flag_down c ev Hflag Hdown) as (r0 & q1 & Hq1 & Href1 & Hafter).
      assert (r = r0) as -> by (eapply Hone; eauto).
      specialize (Hafter q Hq). congruence.
    + specialize (Hnone eq_refl r q0 Hq0). congruence.
  - intros r1 r2 q1 q2 H1 H2 Href1 Href2.
    destruct (step_refresher c ev r1 q1 H1 Href1) as [(p1 & Hp1 & Hr1)|(Hdown1 & _ & reply1 & E1)];
    destruct (step_refresher c ev r2 q2 H2 Href2) as [(p2 & Hp2 & Hr2)|(Hdown2 & _ & reply2 & E2)].
    + eapply Hone; eauto.
    + specialize (Hnone Hdown2 r1 p1 Hp1). congruence.
    + specialize (Hnone Hdown1 r2 p2 Hp2). congruence.
    + congruence.
Qed.

(** At most one refresh cycle runs at a time. *)
Lemma reachable_exclusive (c : Client) : reachable c -> exclusive c.
Proof.
  induction 1 as [|c ev _ IH].
  - split; intros; [|exfalso]; match goal with
      | H : requests created !! _ = Some _ |- _ => cbn in H; discriminate H
      end.
  - now apply step_exclusive.
Qed.

(** While a refresh is in flight, a response never starts another one:
    on a first 401 the request is queued, and no refresh request is
    made. *)
Lemma response_while_refreshing (c : Client) (r : nat) (reply : Reply) :
  isRefreshing c = true ->
  refreshCalls (step c (Response r reply)) = refreshCalls c
  /\ (forall q q', requests c !! r = Some q ->
        requests (step c (Response r reply)) !! r = Some q' ->
        is_refresher q = false -> is_refresher q' = false)
  /\ (forall q, requests c !! r = Some q -> phase q = InFlight -> _retry q = false ->
        reply = Status 401 ->
        phase_of (step c (Response r reply)) r = Some Queued
        /\ failedQueue (step c (Response r reply)) = failedQueue c ++ [r]).
Proof.
  intros Hup. cbn [step]. unfold on_response, phase_of.
  destruct (requests c !! r) as [q0|] eqn:H0.
  2: { split; [reflexivity|]. split; intros; congruence. }
  destruct (phase q0) eqn:Hp;
    try (split; [reflexivity|]; split; intros; congruence).
  assert (Hkeep : forall (f : Request -> Request) (q q' : Request),
            (forall x, is_refresher (f x) = false) ->
            alter f r (requests c) !! r = Some q' -> is_refresher q' = false).
  { intros f q q' Hf Hq'.
    apply alter_lookup_inv in Hq' as [(_ & q1 & _ & ->)|(Hne & _)]; [apply Hf|congruence]. }
  destruct reply as [code|]; unfold update.
  - destruct ((200 <=? code) && (code <? 300)) eqn:H2xx.
    { cbn [requests refreshCalls failedQueue]. split; [reflexivity|]. split.
      - intros q q' _ Hq' _. refine (Hkeep _ q q' _ Hq'); intros x; reflexivity.
      - intros q [= <-] _ _ [= ->]. discriminate H2xx. }
    destruct ((code =? 401) && negb (_retry q0)) eqn:H401.
    + rewrite Hup. cbn [requests refreshCalls failedQueue]. split; [reflexivity|]. split.
      * intros q q' _ Hq' _. refine (Hkeep _ q q' _ Hq'); intros x; reflexivity.
      * intros q _ _ _ _. rewrite list_lookup_alter_eq, H0. split; reflexivity.
    + cbn [requests refreshCalls failedQueue]. split; [reflexivity|]. split.
      * intros q q' _ Hq' _. refine (Hkeep _ q q' _ Hq'); intros x; reflexivity.
      * intros q [= <-] _ Hretry [= ->]. rewrite Hretry in H401. discriminate H401.
  - cbn [requests refreshCalls failedQueue]. split; [reflexivity|]. split.
    + intros q q' _ Hq' _. refine (Hkeep _ q q' _ Hq'); intros x; reflexivity.
    + intros; congruence.
Qed.

Lemma run_reachable (evs : list Event) : reachable (run created evs).
Proof.
  unfold run. induction evs as [|ev evs IH] using rev_ind.
  - apply reach_created.
  - rewrite foldl_app. cbn [foldl]. now apply reach_step.
Qed.

(** The claim fails as stated. With no refresh token stored the
    refresher fails fast and no refresh call is made at all (both
    requests are rejected). And a request that was queued during the
    first refresh is re-sent without the [_retry] mark: if its replay
    gets a 401 again it starts a second refresh itself. *)
Lemma C2_counterexample :
  (let final :=
     run (two_in_flight (Some "Bearer stale"))
       [ Response 0 (Status 401); Response 1 (Status 401);
         TokenRead 0 None; Cleared 0 ] in
   refreshCalls final <> 1%nat
   /\ phase_of final 0 = Some (Failed (RefreshFailed NoRefreshToken))
   /\ phase_of final 1 = Some (Failed (RefreshFailed NoRefreshToken)))
  /\ (let queued :=
        run (two_in_flight (Some "Bearer stale"))
          [ Response 0 (Status 401); Response 1 (Status 401) ] in
      let final :=
        run queued
          [ TokenRead 0 (Some "temp_refresh_0"); RefreshResponse 0 (Some demo_tokens);
            TokensStored 0 true;
            Response 1 (Status 401); TokenRead 1 (Some "temp_refresh_1") ] in
      phase_of queued 1 = Some Queued
      /\ phase_of final 1 = Some (Refresher Refreshing)
      /\ refreshCalls final = 2%nat).
Proof. split; cbv zeta; vm_compute; repeat split; discriminate. Qed.

(** A 401 that arrives after the failed refresh has settled the queue
    but before [clearAll] returns is queued behind a flag that is then
    lowered: nothing is left to settle it. *)
Example queued_after_settlement :
  let final :=
    run (two_in_flight (Some "Bearer stale"))
      [ Response 0 (Status 401); TokenRead 0 None;
        Response 1 (Status 401); Cleared 0 ] in
  phase_of final 1 = Some Queued
  /\ failedQueue final = [1%nat]
  /\ isRefreshing final = false.
Proof. vm_compute. repeat split. Qed.

(** C2 (amended). Two requests get a 401, the first while no refresh
    is in flight and the second before that refresh has settled the
    queue. Then, in every such schedule, at most one refresh call is
    made: exactly one when a refresh token is stored, none otherwise.
    If the refresh succeeds both requests are re-sent with the new
    access token (a queued request only if that token is non-empty);
    if it fails both are rejected with the refresh error. In every
    reachable state at most one request runs a refresh, and while a
    refresh is in flight a first 401 is queued and makes no refresh
    call. *)
Theorem C2_concurrent_401_single_refresh :
  (forall (a b : nat) (authorization refreshToken : option string)
          (newTokens : option TokenData) (stored : bool) (pre post : list Event),
      (a = 0 /\ b = 1 \/ a = 1 /\ b = 0)%nat ->
      refresh_script a refreshToken newTokens stored = pre ++ post ->
      post <> [] ->
      let final :=
        run (two_in_flight authorization)
            (Response a (Status 401) :: pre ++ Response b (Status 401) :: post
             ++ refresh_tail a refreshToken newTokens stored) in
      refreshCalls final = (if JS.truthy refreshToken then 1 else 0)%nat
      /\ isRefreshing final = false
      /\ failedQueue final = []
      /\ match refresh_succeeds refreshToken newTokens stored with
         | Some t =>
             requests final !! a
             = Some {| _retry := true;
                       Authorization := Some ("Bearer " ++ accessToken t)%string;
                       phase := InFlight |}
             /\ requests final !! b
                = Some (if JS.truthy (Some (accessToken t)) then
                          {| _retry := false;
                             Authorization := Some ("Bearer " ++ accessToken t)%string;
                             phase := InFlight |}
                        else
                          {| _retry := false; Authorization := authorization;
                             phase := Failed (HttpError 401) |})
         | None =>
             exists e,
               phase_of final a = Some (Failed (RefreshFailed e))
               /\ phase_of final b = Some (Failed (RefreshFailed e))
         end)
  /\ (forall c, reachable c -> exclusive c)
  /\ (forall c r q,
        isRefreshing c = true ->
        requests c !! r = Some q -> phase q = InFlight -> _retry q = false ->
        phase_of (step c (Response r (Status 401))) r = Some Queued
        /\ failedQueue (step c (Response r (Status 401))) = failedQueue c ++ [r]
        /\ refreshCalls (step c (Response r (Status 401))) = refreshCalls c).
Proof.
  split; [exact concurrent_401_run|]. split; [exact reachable_exclusive|].
  intros c r q Hup Hq Hp Hretry.
  destruct (response_while_refreshing c r (Status 401) Hup) as (Hcalls & _ & Hqueue).
  destruct (Hqueue q Hq Hp Hretry eq_refl) as [H1 H2]. auto.
Qed.

End InterceptorFacts.

Lemma C2_witness :
  (let final :=
     HttpClient.run (HttpClient.two_in_flight (Some "Bearer stale"))
       [ HttpClient.Response 0 (HttpClient.Status 401);
         HttpClient.TokenRead 0 (Some "temp_refresh_0");
         HttpClient.Response 1 (HttpClient.Status 401);
         HttpClient.RefreshResponse 0 (Some demo_tokens);
         HttpClient.TokensStored 0 true ] in
   HttpClient.refreshCalls final = 1%nat
   /\ HttpClient.requests final
      = [ {| HttpClient._retry := true;
             HttpClient.Authorization := Some "Bearer temp_access_1";
             HttpClient.phase := HttpClient.InFlight |};
          {| HttpClient._retry := false;
             HttpClient.Authorization := Some "Bearer temp_access_1";
             HttpClient.phase := HttpClient.InFlight |} ])
  /\ HttpClient.exclusive
       (HttpClient.run HttpClient.created
          [ HttpClient.Send None; HttpClient.Response 0 (HttpClient.Status 401) ])
  /\ HttpClient.phase_of
       (HttpClient.run HttpClient.created
          [ HttpClient.Send None; HttpClient.Send None;
            HttpClient.Response 0 (HttpClient.Status 401);
            HttpClient.Response 1 (HttpClient.Status 401) ]) 1
     = Some HttpClient.Queued.
Proof.
  destruct C2_concurrent_401_single_refresh as (Hrun & Hexcl & Hqueue).
  split; [|split].
  - pose proof (Hrun 0%nat 1%nat (Some "Bearer stale") (Some "temp_refresh_0")
                  (Some demo_tokens) true
                  [HttpClient.TokenRead 0 (Some "temp_refresh_0")]
                  [HttpClient.RefreshResponse 0 (Some demo_tokens);
                   HttpClient.TokensStored 0 true]
                  (or_introl (conj eq_refl eq_refl)) eq_refl
                  ltac:(discriminate)) as (Hcalls & _ & _ & _).
    cbv zeta. split; [exact Hcalls|]. vm_compute. reflexivity.
  - apply Hexcl, run_reachable.
  - apply (Hqueue
             (HttpClient.run HttpClient.created
                [ HttpClient.Send None; HttpClient.Send None;
                  HttpClient.Response 0 (HttpClient.Status 401) ])
             1%nat
             {| HttpClient._retry := false; HttpClient.Authorization := None;
                HttpClient.phase := HttpClient.InFlight |});
      reflexivity.
Defined.

(** * The rest of the session core: properties *)

(** A few runs of the added definitions. *)
Example sanitize_ex : Validation.sanitizeTextInput "  Felipe    Sanchez  " = "Felipe Sanchez".
Proof. reflexivity. Qed.
Example format_local_ex : Validation.formatColombianPhone "3001234567" = "+57 300 1234567".
Proof. reflexivity. Qed.
Example format_dashes_ex :
  Validation.formatColombianPhone "+57 (300) 123-4567" = "+57 300 1234567".
Proof. reflexivity. Qed.
Example format_short_ex : Validation.formatColombianPhone "300 123" = "300 123".
Proof. reflexivity. Qed.
Example strength_ex :
  Validation.score (Validation.validatePasswordStrength "tolima") = 1%nat
  /\ Validation.strength (Validation.validatePasswordStrength "Tolima2025!") = Validation.strong.
Proof. split; reflexivity. Qed.
Example segment0_ex :
  AuthNavigator.segment0 "/auth/login" = Some "auth"
  /\ AuthNavigator.segment0 "/(tabs)" = Some "(tabs)"
  /\ AuthNavigator.segment0 "/" = None.
Proof. repeat split. Qed.
Example rethrown_ex :
  field (PublicRequest.rethrown email_taken) = Some "email"
  /\ field (AuthService.handleAuthError email_taken) = Some "email"
  /\ field (AuthService.handleAuthError (PublicRequest.rethrown email_taken)) = None.
Proof. repeat split. Qed.


(** ** Token expiry: what is stored and how it is read back *)

Section ExpiryFacts.
Context {B : Type} (rejects : Platform).
Import SecureStorage SessionExpiry.

Lemma calculateExpiry_NaN (t : Z) (expiresIn : string) (u : ascii) (k : Z) :
  JS.parseInt (JS.slice_init expiresIn) = JS.NaN ->
  JS.slice_last expiresIn = String u "" ->
  unit_millis u = Some k ->
  calculateExpiryTimestamp t expiresIn = "NaN".
Proof.
  intros Hnan Hlast Hu. unfold calculateExpiryTimestamp.
  rewrite Hnan, Hlast. unfold unit_millis in Hu.
  destruct (Ascii.eqb u "s") eqn:Es.
  { apply Ascii.eqb_eq in Es. subst u. cbn [String.eqb Ascii.eqb Bool.eqb JS.times].
    now rewrite plus_NotANumber. }
  destruct (Ascii.eqb u "m") eqn:Em.
  { apply Ascii.eqb_eq in Em. subst u. cbn [String.eqb Ascii.eqb Bool.eqb JS.times].
    now rewrite plus_NotANumber. }
  destruct (Ascii.eqb u "h") eqn:Eh.
  { apply Ascii.eqb_eq in Eh. subst u. cbn [String.eqb Ascii.eqb Bool.eqb JS.times].
    now rewrite plus_NotANumber. }
  destruct (Ascii.eqb u "d") eqn:Ed; [|discriminate].
  apply Ascii.eqb_eq in Ed. subst u. cbn [String.eqb Ascii.eqb Bool.eqb JS.times].
  now rewrite plus_NotANumber.
Qed.

(** The expiry key after a successful [setTokens]. *)
Lemma setTokens_expiry (tokenData : TokenData) (w w' : World) (evs : list (Event B)) :
  setTokens rejects tokenData w = (Ok tt, w', evs) ->
  store w' !! TOKEN_EXPIRY
  = Some (calculateExpiryTimestamp (now w) (expiresIn tokenData)).
Proof.
  intros Hset.
  destruct (setTokens_run (Body:=B) rejects tokenData w)
    as (r & w1 & a1 & a2 & a3 & Hrun & Hok & _ & _ & S3 & _).
  rewrite Hset in Hrun. injection Hrun as <- <- _.
  cbn in Hok. symmetry in Hok. apply andb_prop in Hok as [_ ->]. exact S3.
Qed.

(** X1. Round trip of the expiry through the store, for timestamps
    within the safe integer range: after [setTokens] stored tokens
    with [expiresIn = {n}{unit}] at time [t0], a later
    [isTokenExpired] that can read the key answers [true] exactly from
    60 seconds before [t0 + n * unitMillis] on. *)
Theorem X1_expiry_round_trip (tokenData : TokenData) (n : N) (u : ascii) (k : Z)
    (w w' : World) (evs : list (Event B)) (later : World) :
  expiresIn tokenData = (decimal n ++ String u "")%string ->
  unit_millis u = Some k ->
  0 <= now w -> now w + Z.of_N n * k <= JS.MAX_SAFE_INTEGER ->
  0 <= now later -> now later + 60000 <= JS.MAX_SAFE_INTEGER ->
  setTokens rejects tokenData w = (Ok tt, w', evs) ->
  store later !! TOKEN_EXPIRY = store w' !! TOKEN_EXPIRY ->
  rejects (sops later) (OpGet TOKEN_EXPIRY) = false ->
  exists w'' evs',
    isTokenExpired (Body:=B) rejects later
    = (Ok (now w + Z.of_N n * k - 60000 <=? now later), w'', evs').
Proof.
  intros Hexp Hu Hnow Hsafe _ _ Hset Hsame Hread.
  apply setTokens_expiry in Hset.
  rewrite Hexp, (expiry_in_unit _ _ _ _ Hu Hnow Hsafe) in Hset.
  rewrite <- Hsame in Hset.
  destruct (isTokenExpired_of_stored (Body:=B) rejects later _ Hset Hread)
    as (w'' & evs' & Hrun).
  exists w'', evs'. rewrite Hrun. do 3 f_equal.
  destruct (Z.geb_spec (now later + 60000) (now w + Z.of_N n * k));
    symmetry; [apply Z.leb_le | apply Z.leb_gt]; lia.
Qed.

(** X2. A duration with a known unit but no number in front of it
    ([parseInt] gives NaN) is stored as the text "NaN", and such a
    token never expires: [isTokenExpired] answers [false] at every
    later time at which it can read the key. *)
Theorem X2_unparsable_duration_never_expires (tokenData : TokenData) (u : ascii) (k : Z)
    (w w' : World) (evs : list (Event B)) (later : World) :
  JS.parseInt (JS.slice_init (expiresIn tokenData)) = JS.NaN ->
  JS.slice_last (expiresIn tokenData) = String u "" ->
  unit_millis u = Some k ->
  setTokens rejects tokenData w = (Ok tt, w', evs) ->
  store later !! TOKEN_EXPIRY = store w' !! TOKEN_EXPIRY ->
  rejects (sops later) (OpGet TOKEN_EXPIRY) = false ->
  store w' !! TOKEN_EXPIRY = Some "NaN"
  /\ exists w'' evs', isTokenExpired (Body:=B) rejects later = (Ok false, w'', evs').
Proof.
  intros Hnan Hlast Hu Hset Hsame Hread.
  apply setTokens_expiry in Hset.
  rewrite (calculateExpiry_NaN _ _ _ _ Hnan Hlast Hu) in Hset.
  split; [exact Hset|].
  rewrite <- Hsame in Hset.
  unfold isTokenExpired, try_catch, bind, getItemAsync, get_now, ret.
  rewrite Hread, Hset. cbn. eauto.
Qed.

(** What [getTimeUntilExpiry] does: one read, never a throw. *)
Lemma getTimeUntilExpiry_run (w : World) :
  exists r a,
    getTimeUntilExpiry (B:=B) rejects w
    = (Ok r, tick w, [ EvStore (OpGet TOKEN_EXPIRY) a ])
    /\ a = negb (rejects (sops w) (OpGet TOKEN_EXPIRY))
    /\ r = (if a && JS.truthy (store w !! TOKEN_EXPIRY)
            then JSMath.max (JS.Num 0)
                   (JSMath.floor_div
                      (JSMath.sub (JS.parseInt (default "" (store w !! TOKEN_EXPIRY)))
                                  (JS.Num (now w)))
                      60000)
            else JS.Num 0).
Proof.
  unfold getTimeUntilExpiry, try_catch, bind, getItemAsync, get_now, ret.
  destruct (rejects (sops w) (OpGet TOKEN_EXPIRY)); keep_keys.
  - do 2 eexists. repeat split.
  - destruct (JS.truthy (store w !! TOKEN_EXPIRY)) eqn:E;
      do 2 eexists; (split; [reflexivity|]); split; reflexivity.
Qed.

Lemma shouldRefreshToken_run (w : World) :
  exists r w' evs,
    getTimeUntilExpiry (B:=B) rejects w = (Ok r, w', evs)
    /\ shouldRefreshToken (B:=B) rejects w = (Ok (JSMath.lt r (JS.Num 5)), w', evs).
Proof.
  destruct (getTimeUntilExpiry_run w) as (r & a & Hrun & _).
  unfold shouldRefreshToken, try_catch, bind, ret. rewrite Hrun.
  do 3 eexists. split; [reflexivity|]. cbn. reflexivity.
Qed.

(** X3. [getTimeUntilExpiry] never throws and reads the expiry key
    once. It answers 0 when no expiry can be read; for a stored
    timestamp [e] and a time [now], both within the safe integer
    range, it answers the whole minutes left until [e], rounded down,
    and 0 once [e] has passed: never a negative number. *)
Theorem X3_getTimeUntilExpiry (w : World) :
  (exists r a, getTimeUntilExpiry (B:=B) rejects w
               = (Ok r, tick w, [ EvStore (OpGet TOKEN_EXPIRY) a ]))
  /\ (rejects (sops w) (OpGet TOKEN_EXPIRY) = true
      \/ JS.truthy (store w !! TOKEN_EXPIRY) = false ->
      fst (fst (getTimeUntilExpiry (B:=B) rejects w)) = Ok (JS.Num 0))
  /\ (forall e : Z,
        0 <= e <= JS.MAX_SAFE_INTEGER ->
        0 <= now w <= JS.MAX_SAFE_INTEGER ->
        store w !! TOKEN_EXPIRY = Some (JS.toString (JS.Num e)) ->
        rejects (sops w) (OpGet TOKEN_EXPIRY) = false ->
        exists m : Z,
          fst (fst (getTimeUntilExpiry (B:=B) rejects w)) = Ok (JS.Num m)
          /\ 0 <= m
          /\ (e <= now w -> m = 0)
          /\ (now w <= e -> m * 60000 <= e - now w < (m + 1) * 60000)).
Proof.
  destruct (getTimeUntilExpiry_run w) as (r & a & Hrun & Ha & Hr).
  split; [eauto|]. rewrite Hrun. cbn [fst]. split.
  - intros [Hrej | Hnone].
    + rewrite Hrej in Ha. subst a. cbn in Hr. now subst r.
    + rewrite Hnone, andb_false_r in Hr. now subst r.
  - intros e _ _ Hstored Hread.
    rewrite Hread in Ha. subst a.
    rewrite Hstored, toString_truthy in Hr. cbn [andb from_option negb] in Hr.
    unfold Datatypes.id in Hr. rewrite parseInt_toString in Hr.
    cbn [JSMath.sub JSMath.floor_div JSMath.max] in Hr. subst r.
    eexists. split; [reflexivity|].
    pose proof (Z.div_mod (e - now w) 60000 ltac:(lia)) as Hdm.
    pose proof (Z.mod_pos_bound (e - now w) 60000 ltac:(lia)) as Hmod.
    split; [lia|]. split; intros Hle.
    + assert ((e - now w) / 60000 <= 0) by (apply Z.div_le_upper_bound; lia). lia.
    + assert (0 <= (e - now w) / 60000) by (apply Z.div_pos; lia). lia.
Qed.

(** X4. [shouldRefreshToken] never throws. With a stored timestamp [e]
    it answers [true] exactly when fewer than five whole minutes are
    left ([e - now < 300000]); it answers [true] when no expiry can be
    read; and whenever [isTokenExpired] says the token is expired,
    [shouldRefreshToken] on the same world says it should be
    refreshed. *)
Theorem X4_shouldRefreshToken (w : World) :
  (exists b w' evs, shouldRefreshToken (B:=B) rejects w = (Ok b, w', evs))
  /\ (forall e : Z,
        store w !! TOKEN_EXPIRY = Some (JS.toString (JS.Num e)) ->
        rejects (sops w) (OpGet TOKEN_EXPIRY) = false ->
        fst (fst (shouldRefreshToken (B:=B) rejects w)) = Ok (e - now w <? 300000))
  /\ (rejects (sops w) (OpGet TOKEN_EXPIRY) = true
      \/ JS.truthy (store w !! TOKEN_EXPIRY) = false ->
      fst (fst (shouldRefreshToken (B:=B) rejects w)) = Ok true)
  /\ (fst (fst (isTokenExpired (Body:=B) rejects w)) = Ok true ->
      fst (fst (shouldRefreshToken (B:=B) rejects w)) = Ok true).
Proof.
  destruct (shouldRefreshToken_run w) as (r & w' & evs & Hget & Hrun).
  destruct (getTimeUntilExpiry_run w) as (r' & a & Hrun' & Ha & Hr).
  rewrite Hget in Hrun'. injection Hrun' as <- _ _.
  split; [eauto|]. rewrite Hrun. cbn [fst].
  assert (Hnum : forall e : Z,
    store w !! TOKEN_EXPIRY = Some (JS.toString (JS.Num e)) ->
    rejects (sops w) (OpGet TOKEN_EXPIRY) = false ->
    r = JS.Num (Z.max 0 ((e - now w) / 60000))).
  { intros e Hstored Hread. rewrite Hread in Ha. subst a.
    rewrite Hstored, toString_truthy in Hr. cbn [andb from_option negb] in Hr.
    unfold Datatypes.id in Hr. rewrite parseInt_toString in Hr. exact Hr. }
  split; [|split].
  - intros e Hstored Hread. rewrite (Hnum e Hstored Hread). cbn [JSMath.lt]. f_equal.
    pose proof (Z.div_mod (e - now w) 60000 ltac:(lia)) as Hdm.
    pose proof (Z.mod_pos_bound (e - now w) 60000 ltac:(lia)) as Hmod.
    destruct (Z.ltb_spec (e - now w) 300000); [apply Z.ltb_lt | apply Z.ltb_ge].
    + assert ((e - now w) / 60000 < 5) by (apply Z.div_lt_upper_bound; lia). lia.
    + assert (5 <= (e - now w) / 60000) by (apply Z.div_le_lower_bound; lia). lia.
  - intros [Hrej | Hnone].
    + rewrite Hrej in Ha. subst a. cbn in Hr. now subst r.
    + rewrite Hnone, andb_false_r in Hr. now subst r.
  - destruct (isTokenExpired_run (Body:=B) rejects w) as (b & a' & Hexp & Hb).
    rewrite Hexp. cbn [fst]. intros [= ->].
    assert (a' = a) as ->.
    { unfold isTokenExpired, try_catch, bind, getItemAsync in Hexp. subst a.
      destruct (rejects (sops w) (OpGet TOKEN_EXPIRY)); cbn in Hexp.
      - cbn. congruence.
      - destruct (JS.truthy (store w !! TOKEN_EXPIRY)); cbn in Hexp |- *; congruence. }
    destruct (a && JS.truthy (store w !! TOKEN_EXPIRY)); [|now subst r].
    subst r. destruct (JS.parseInt (default "" (store w !! TOKEN_EXPIRY))) as [|e];
      [discriminate|].
    cbn [JS.ge] in Hb. cbn [JSMath.sub JSMath.floor_div JSMath.max JSMath.lt]. f_equal.
    symmetry in Hb. apply Z.geb_le in Hb. apply Z.ltb_lt.
    assert ((e - now w) / 60000 < 5) by (apply Z.div_lt_upper_bound; lia). lia.
Qed.

End ExpiryFacts.


(** ** The auth service: failures and compositions *)

Section ServiceMore.
Context (rejects : Platform) {rt : Runtime} (httpClient : HttpClient).
Import SecureStorage AuthService SessionExpiry.

Lemma or_str_truthy (o : option string) (d : string) :
  d <> "" -> JS.truthy (Some (JS.or_str o d)) = true.
Proof.
  intros Hd. unfold JS.or_str, JS.truthy.
  destruct o as [s|]; [destruct (String.eqb s "") eqn:E|].
  - apply negb_true_iff, String.eqb_neq, Hd.
  - now rewrite E.
  - apply negb_true_iff, String.eqb_neq, Hd.
Qed.

Lemma handleAuthError_truthy (error : Thrown) :
  JS.truthy (message (handleAuthError error)) = true.
Proof.
  unfold handleAuthError.
  destruct (response_data error) as [d|]; cbn [message].
  - now apply or_str_truthy.
  - destruct (JS.truthy (message error)) eqn:E; [exact E | reflexivity].
Qed.

(** With no token pair stored [verifySession] answers [false] from
    the two reads alone. *)
Lemma verifySession_no_tokens (w : World) :
  JS.truthy (store w !! ACCESS_TOKEN) && JS.truthy (store w !! REFRESH_TOKEN) = false ->
  exists evs,
    verifySession rejects httpClient w = (Ok false, tick (tick w), evs)
    /\ http_calls evs = [].
Proof.
  intros Hnone.
  destruct (hasStoredTokens_run (Body:=Body) rejects w) as (b & a1 & a2 & Hhas & Hb).
  assert (b = false) as ->.
  { rewrite Hb. apply andb_false_iff in Hnone as [-> | ->];
      rewrite ?andb_false_r; reflexivity. }
  unfold verifySession, try_catch at 1, bind at 1. rewrite Hhas.
  cbn. eexists. split; reflexivity.
Qed.

(** X5. After [logout] on a platform that accepts deletes the session
    is gone for every later check, whatever the server did with the
    logout call: [hasStoredTokens] answers [false], [isTokenExpired]
    answers [true], and [verifySession] (against any client) answers
    [false] without sending a request. *)
Theorem X5_no_session_after_logout (later : HttpClient) (w : World) :
  deletes_accepted rejects ->
  let w1 := snd (fst (logout rejects httpClient w)) in
  fst (fst (hasStoredTokens (Body:=Body) rejects w1)) = Ok false
  /\ fst (fst (isTokenExpired (Body:=Body) rejects w1)) = Ok true
  /\ exists w2 evs,
       verifySession rejects later w1 = (Ok false, w2, evs)
       /\ http_calls evs = [] /\ store w2 = store w1.
Proof.
  intros Hacc.
  destruct (logout_run rejects httpClient w)
    as (w1 & a1 & a2 & a3 & a4 & Hrun & _ & _ & _ & _ & _ & Hclr).
  rewrite Hrun. cbn [fst snd]. specialize (Hclr Hacc).
  assert (Ha : store w1 !! ACCESS_TOKEN = None) by (apply Hclr; cbn; auto).
  assert (He : store w1 !! TOKEN_EXPIRY = None) by (apply Hclr; cbn; auto).
  split; [|split].
  - destruct (hasStoredTokens_run (Body:=Body) rejects w1) as (b & x1 & x2 & -> & ->).
    rewrite Ha. cbn [fst JS.truthy]. now rewrite andb_false_r.
  - destruct (isTokenExpired_run (Body:=Body) rejects w1) as (b & x & -> & ->).
    rewrite He. cbn [fst JS.truthy]. now rewrite andb_false_r.
  - destruct (verifySession_no_tokens w1) as (evs & Hver & Hhttp).
    { now rewrite Ha. }
    unfold verifySession in *.
    destruct (hasStoredTokens_run (Body:=Body) rejects w1) as (b & x1 & x2 & Hhas & Hb).
    rewrite Ha in Hb. cbn [JS.truthy] in Hb. rewrite andb_false_r in Hb. subst b.
    unfold try_catch at 1, bind at 1. rewrite Hhas. cbn.
    do 2 eexists. repeat split.
Qed.

(** X6. A login or registration the server does not accept (the call
    throws, or the answer has [success = false] or no [data]) touches
    nothing: the service throws, its only effect is the one request,
    and the world is the one the client left. *)
Theorem X6_rejected_credentials_store_nothing (w : World) :
  (forall credentials r w1,
      postPublic_auth httpClient "/auth/login" (LoginBody credentials) w = (r, w1) ->
      (forall resp, r = Ok resp -> success resp = false \/ data resp = None) ->
      exists e,
        login rejects httpClient credentials w
        = (Throw e, w1, [ EvHttp POST_PUBLIC "/auth/login" (Some (LoginBody credentials)) ]))
  /\ (forall registerData r w1,
      postPublic_auth httpClient "/auth/register"
        (RegisterBody (requestData registerData)) w = (r, w1) ->
      (forall resp, r = Ok resp -> success resp = false \/ data resp = None) ->
      exists e,
        register rejects httpClient registerData w
        = (Throw e, w1,
           [ EvHttp POST_PUBLIC "/auth/register"
               (Some (RegisterBody (requestData registerData))) ])).
Proof.
  split.
  - intros credentials r w1 Hpost Hrej.
    unfold login, try_catch at 1, bind at 1, request. rewrite Hpost.
    destruct r as [resp|e0]; [|unfold throw; eauto].
    destruct (Hrej resp eq_refl) as [-> | Hd].
    + unfold throw. eauto.
    + rewrite Hd. destruct (success resp); unfold throw; eauto.
  - intros registerData r w1 Hpost Hrej.
    unfold register, try_catch at 1, bind at 1, request. rewrite Hpost.
    destruct r as [resp|e0]; [|unfold throw; eauto].
    destruct (Hrej resp eq_refl) as [-> | Hd].
    + unfold throw. eauto.
    + rewrite Hd. destruct (success resp); unfold throw; eauto.
Qed.

(** X7. Every error the service throws has been through
    [handleAuthError] and carries a non-empty message: the screens can
    always show [error.message]. *)
Theorem X7_service_errors_carry_message (w : World) (e : Thrown) (w' : World)
    (evs : list (Event Body)) :
  (exists credentials, login rejects httpClient credentials w = (Throw e, w', evs))
  \/ (exists registerData, register rejects httpClient registerData w = (Throw e, w', evs))
  \/ refreshTokens rejects httpClient w = (Throw e, w', evs)
  \/ getCurrentUser rejects httpClient w = (Throw e, w', evs) ->
  JS.truthy (message e) = true.
Proof.
  intros [[c H] | [[rd H] | [H | H]]].
  - unfold login, try_catch at 1 in H.
    match type of H with
    | match ?x with _ => _ end = _ => destruct x as [[[a|e0] w1] ev1]
    end; [discriminate|].
    unfold throw in H. injection H as <- _ _. apply handleAuthError_truthy.
  - unfold register, try_catch at 1 in H.
    match type of H with
    | match ?x with _ => _ end = _ => destruct x as [[[a|e0] w1] ev1]
    end; [discriminate|].
    unfold throw in H. injection H as <- _ _. apply handleAuthError_truthy.
  - unfold refreshTokens, try_catch at 1 in H.
    match type of H with
    | match ?x with _ => _ end = _ => destruct x as [[[a|e0] w1] ev1]
    end; [discriminate|].
    destruct (clearAll_run (Body:=Body) rejects w1) as (w2 & ? & ? & ? & ? & Hclr & _).
    unfold bind, throw in H. rewrite Hclr in H.
    injection H as <- _ _. apply handleAuthError_truthy.
  - unfold getCurrentUser, try_catch at 1 in H.
    match type of H with
    | match ?x with _ => _ end = _ => destruct x as [[[a|e0] w1] ev1]
    end; [discriminate|].
    unfold throw in H. injection H as <- _ _. apply handleAuthError_truthy.
Qed.

(** X8. A session check that fails on an expired token leaves no
    session behind: when tokens are stored, the access token counts as
    expired and [verifySession] answers [false], the refresh failed and
    (on a platform that accepts deletes) the whole record is
    cleared. *)
Theorem X8_failed_check_of_expired_session_clears (w w1 w2 : World)
    (ev1 ev2 : list (Event Body)) :
  hasStoredTokens rejects w = (Ok true, w1, ev1) ->
  isTokenExpired rejects w1 = (Ok true, w2, ev2) ->
  deletes_accepted rejects ->
  forall w' evs,
    verifySession rejects httpClient w = (Ok false, w', evs) ->
    record_cleared w'.
Proof.
  intros H1 H2 Hacc w' evs.
  unfold verifySession, try_catch at 1, bind at 1. rewrite H1.
  cbv beta iota delta [negb]. unfold bind at 1. rewrite H2.
  unfold try_catch, bind, ret.
  destruct (refreshTokens rejects httpClient w2) as [[[t|e] w3] ev3] eqn:Href.
  - cbn. discriminate.
  - cbn. intros [= <- _].
    destruct (refreshTokens_failure_run rejects httpClient w2 e w3 ev3 Href)
      as (pre & a1 & a2 & a3 & a4 & _ & _ & _ & _ & _ & Hclr).
    now apply Hclr.
Qed.

(** X9. [clearLocalSession] is what [logout] does once the server call
    is over: whatever that call answered, [logout] ends in the world
    and with the events of [clearLocalSession] run after it. *)
Theorem X9_logout_is_call_then_clearLocalSession (w : World) :
  let '(_, w1) := post_void httpClient "/auth/logout" w in
  let '(r, w2, evs) := clearLocalSession rejects w1 in
  r = Ok tt
  /\ logout rejects httpClient w = (Ok tt, w2, EvHttp POST "/auth/logout" None :: evs).
Proof.
  destruct (post_void httpClient "/auth/logout" w) as [r0 w1] eqn:Hpost.
  destruct (clearLocalSession rejects w1) as [[r w2] evs] eqn:Hcls.
  unfold clearLocalSession, bind, removeAuthToken in Hcls.
  destruct (clearAll_run (Body:=Body) rejects w1) as (w3 & a1 & a2 & a3 & a4 & Hclr & _).
  rewrite Hclr in Hcls. injection Hcls as <- <- <-.
  split; [reflexivity|].
  unfold logout, try_catch, bind, request, removeAuthToken, ret.
  rewrite Hpost. destruct r0; rewrite Hclr; reflexivity.
Qed.

End ServiceMore.


(** ** The provider's actions *)

Section ProviderFacts.
Context (rejects : Platform) {rt : Runtime} (httpClient : HttpClient).
Import SecureStorage AuthProvider.

Lemma login_failure_handled (credentials : LoginCredentials) (w : World) (e : Thrown)
    (w' : World) (evs : list (Event Body)) :
  AuthService.login rejects httpClient credentials w = (Throw e, w', evs) ->
  JS.truthy (message e) = true.
Proof.
  intros H. unfold AuthService.login, try_catch at 1 in H.
  match type of H with
  | match ?x with _ => _ end = _ => destruct x as [[[a|e0] w1] ev1]
  end; [discriminate|].
  unfold throw in H. injection H as <- _ _. apply handleAuthError_truthy.
Qed.

(** A profile [getCurrentUser] returns has been written to the
    store. *)
Lemma getCurrentUser_success_run (w : World) (u : UserData) (w' : World)
    (evs : list (Event Body)) :
  AuthService.getCurrentUser rejects httpClient w = (Ok u, w', evs) ->
  store w' !! USER_DATA = Some (JSON_stringify u).
Proof.
  unfold AuthService.getCurrentUser, try_catch at 1, bind at 1, AuthService.request.
  destruct (get_user httpClient "/auth/me" w) as [[resp|e] w1]; [|discriminate].
  destruct (success resp); [destruct (data resp) as [[u0|]|]|]; try discriminate.
  unfold bind.
  destruct (setUserData_run (Body:=Body) rejects u0 w1)
    as (r & w2 & a & Hrun & Hok & Hu & _).
  rewrite Hrun. destruct r as [[]|e]; unfold ret, throw; [|discriminate].
  intros [= <- <- _]. cbn in Hok. subst a. exact Hu.
Qed.

Lemma verifySession_total (w : World) :
  exists b w' evs, AuthService.verifySession rejects httpClient w = (Ok b, w', evs).
Proof.
  destruct (hasStoredTokens_run (Body:=Body) rejects w) as (b & a1 & a2 & Hhas & Hb).
  destruct (isTokenExpired_run (Body:=Body) rejects (tick (tick w))) as (x & a3 & Hexp & _).
  unfold AuthService.verifySession, try_catch at 1, bind at 1. rewrite Hhas.
  destruct b; cbv beta iota delta [negb].
  - unfold bind at 1. rewrite Hexp.
    destruct x; unfold try_catch, bind, ret.
    + destruct (AuthService.refreshTokens rejects httpClient (tick (tick (tick w))))
        as [[[t|e] w3] ev3]; cbn; eauto.
    + destruct (AuthService.getCurrentUser rejects httpClient (tick (tick (tick w))))
        as [[[t|e] w3] ev3]; cbn; eauto.
  - cbn. eauto.
Qed.

(** X10. The bootstrap never throws and never navigates, and whatever
    the store, the platform and the backend do it leaves the context
    initialised, not loading, and either signed out or signed in. It
    is signed in only with the profile the backend served after a
    successful session check, and that profile is then in the store;
    with no token pair stored it signs out without any request. *)
Theorem X10_initializeAuth (s : AuthContext.AuthContextState) (w : World) :
  let o := initializeAuth rejects httpClient s w in
  settled o = Ok tt /\ navigations o = []
  /\ (context o = signed_out \/ exists u, context o = signed_in u)
  /\ (forall u, context o = signed_in u ->
        exists w1 ev1 ev2,
          AuthService.verifySession rejects httpClient w = (Ok true, w1, ev1)
          /\ AuthService.getCurrentUser rejects httpClient w1 = (Ok u, world o, ev2)
          /\ store (world o) !! USER_DATA = Some (JSON_stringify u))
  /\ (JS.truthy (store w !! ACCESS_TOKEN) && JS.truthy (store w !! REFRESH_TOKEN) = false ->
      context o = signed_out /\ http_calls (events o) = [] /\ store (world o) = store w).
Proof.
  cbv zeta. unfold initializeAuth.
  destruct (verifySession_total w) as (b & w1 & ev1 & Hver).
  pose proof (verifySession_no_tokens rejects httpClient w) as Hnone.
  rewrite Hver in *. destruct b.
  - destruct (AuthService.getCurrentUser rejects httpClient w1) as [[[u|e] w2] ev2] eqn:Hme;
      cbn [settled navigations context world events].
    + split; [reflexivity|]. split; [reflexivity|]. split; [right; eexists; reflexivity|].
      split.
      * intros u' [= <-]. exists w1, ev1, ev2. split; [reflexivity|].
        split; [exact Hme|]. eapply getCurrentUser_success_run; eauto.
      * intros H. destruct (Hnone H) as (? & [=] & _).
    + split; [reflexivity|]. split; [reflexivity|]. split; [left; reflexivity|].
      split; [discriminate|].
      intros H. destruct (Hnone H) as (? & [=] & _).
  - cbn [settled navigations context world events].
    split; [reflexivity|]. split; [reflexivity|]. split; [left; reflexivity|].
    split; [discriminate|].
    intros H. destruct (Hnone H) as (evs & [= -> ->] & Hhttp). auto.
Qed.

(** X11. The provider's [login]. When the service logs in, the promise
    resolves, the context is signed in with the returned user and the
    store holds the whole record. When the service throws, the same
    error is re-thrown to the caller, the context is in the [ERROR]
    state showing the error's message, not loading, and the session
    fields (flag and user) are what they were before the call. *)
Theorem X11_provider_login (credentials : LoginCredentials) (s : AuthContext.AuthContextState)
    (w : World) :
  let o := login rejects httpClient credentials s w in
  navigations o = []
  /\ (forall resp w1 ev1,
        AuthService.login rejects httpClient credentials w = (Ok resp, w1, ev1) ->
        settled o = Ok tt /\ context o = signed_in (user resp)
        /\ record_holds (tokens resp) (JSON_stringify (user resp))
                        (now (world o)) (world o))
  /\ (forall e w1 ev1,
        AuthService.login rejects httpClient credentials w = (Throw e, w1, ev1) ->
        settled o = Throw e
        /\ AuthContext.state (context o) = AuthContext.ERROR
        /\ AuthContext.error (context o) = message e
        /\ AuthContext.isLoading (context o) = false
        /\ AuthContext.isAuthenticated (context o) = AuthContext.isAuthenticated s
        /\ AuthContext.user (context o) = AuthContext.user s).
Proof.
  cbv zeta. unfold login.
  destruct (AuthService.login rejects httpClient credentials w) as [[[resp|e] w1] ev1] eqn:Hlogin;
    cbn [settled navigations context world events].
  - split; [reflexivity|]. split; [|discriminate].
    intros resp' w1' ev1' [= <- <- <-]. split; [reflexivity|]. split; [reflexivity|].
    eapply login_success_run; eauto.
  - split; [reflexivity|]. split; [discriminate|].
    intros e' w1' ev1' [= <- <- <-].
    pose proof (login_failure_handled _ _ _ _ _ Hlogin) as Hmsg.
    destruct (message e) as [m|] eqn:Hm; [|discriminate].
    cbn [JS.truthy] in Hmsg. apply negb_true_iff in Hmsg.
    unfold dispatch. cbn. rewrite Hmsg. cbn. rewrite Hmsg. repeat split.
Qed.

(** X12. The provider's [logout] never throws and always ends signed
    out, whatever the state before and whatever the server does with
    the logout call: status [UNAUTHENTICATED], no user, no error, not
    loading. It sends the user to the login screen, the client's
    Authorization header is gone, and on a platform that accepts
    deletes so is the stored record. *)
Theorem X12_provider_logout (s : AuthContext.AuthContextState) (w : World) :
  let o := logout rejects httpClient s w in
  settled o = Ok tt
  /\ context o = signed_out
  /\ navigations o = ["/auth/login"]
  /\ authHeader (world o) = None
  /\ (deletes_accepted rejects -> record_cleared (world o)).
Proof.
  cbv zeta. unfold logout.
  destruct (logout_run rejects httpClient w)
    as (w' & a1 & a2 & a3 & a4 & Hrun & Hhdr & _ & _ & _ & _ & Hclr).
  rewrite Hrun. cbn [settled navigations context world events]. repeat split; assumption.
Qed.

(** X13. [refreshSession] never throws and never navigates; it ends
    signed out or signed in. When the token refresh fails the context
    is signed out and the stored record has been cleared (on a
    platform that accepts deletes); it is signed in only when both the
    refresh and the profile request succeeded, with the served profile
    stored. *)
Theorem X13_refreshSession (s : AuthContext.AuthContextState) (w : World) :
  let o := refreshSession rejects httpClient s w in
  settled o = Ok tt /\ navigations o = []
  /\ (context o = signed_out \/ exists u, context o = signed_in u)
  /\ (forall e w1 ev1,
        AuthService.refreshTokens rejects httpClient w = (Throw e, w1, ev1) ->
        context o = signed_out /\ world o = w1
        /\ (deletes_accepted rejects -> record_cleared (world o)))
  /\ (forall u, context o = signed_in u ->
        exists t w1 ev1 ev2,
          AuthService.refreshTokens rejects httpClient w = (Ok t, w1, ev1)
          /\ AuthService.getCurrentUser rejects httpClient w1 = (Ok u, world o, ev2)
          /\ store (world o) !! USER_DATA = Some (JSON_stringify u)).
Proof.
  cbv zeta. unfold refreshSession.
  destruct (AuthService.refreshTokens rejects httpClient w) as [[[t|e] w1] ev1] eqn:Href.
  - destruct (AuthService.getCurrentUser rejects httpClient w1) as [[[u|e] w2] ev2] eqn:Hme;
      cbn [settled navigations context world events].
    + split; [reflexivity|]. split; [reflexivity|]. split; [right; eexists; reflexivity|].
      split; [discriminate|].
      intros u' [= <-]. exists t, w1, ev1, ev2. split; [reflexivity|].
      split; [exact Hme|]. eapply getCurrentUser_success_run; eauto.
    + split; [reflexivity|]. split; [reflexivity|]. split; [left; reflexivity|].
      split; discriminate.
  - cbn [settled navigations context world events].
    split; [reflexivity|]. split; [reflexivity|]. split; [left; reflexivity|].
    split; [|discriminate].
    intros e' w1' ev1' [= <- <- <-]. split; [reflexivity|]. split; [reflexivity|].
    intros Hacc.
    destruct (refreshTokens_failure_run rejects httpClient w e w1 ev1 Href)
      as (pre & a1 & a2 & a3 & a4 & _ & _ & _ & _ & _ & Hclr).
    now apply Hclr.
Qed.

Lemma refreshSession_settled (s : AuthContext.AuthContextState) (w : World) :
  settled (refreshSession rejects httpClient s w) = Ok tt.
Proof.
  unfold refreshSession.
  destruct (AuthService.refreshTokens rejects httpClient w) as [[[t|e0] w1] ev1];
    [destruct (AuthService.getCurrentUser rejects httpClient w1) as [[[u|e1] w2] ev2]|];
    reflexivity.
Qed.

(** X14. The five-minute timer never throws, whatever is stored and
    whatever the platform and the server do. When no expiry can be
    read it runs [refreshSession] (after its one read of the expiry
    key). For a stored timestamp and a time within the safe integer
    range: with at least five minutes left it does nothing (no
    dispatch, no request, the store untouched), and with less than
    five minutes left it runs [refreshSession]. *)
Theorem X14_checkTokenRefresh (s : AuthContext.AuthContextState) (w : World) :
  let o := checkTokenRefresh rejects httpClient s w in
  let o' := refreshSession rejects httpClient s (tick w) in
  settled o = Ok tt
  /\ (rejects (sops w) (OpGet TOKEN_EXPIRY) = true
      \/ JS.truthy (store w !! TOKEN_EXPIRY) = false ->
      context o = context o' /\ world o = world o'
      /\ events o
         = EvStore (OpGet TOKEN_EXPIRY) (negb (rejects (sops w) (OpGet TOKEN_EXPIRY)))
             :: events o')
  /\ (forall e : Z,
        0 <= e <= JS.MAX_SAFE_INTEGER ->
        0 <= now w <= JS.MAX_SAFE_INTEGER ->
        store w !! TOKEN_EXPIRY = Some (JS.toString (JS.Num e)) ->
        rejects (sops w) (OpGet TOKEN_EXPIRY) = false ->
        (300000 <= e - now w ->
         context o = s /\ http_calls (events o) = [] /\ store (world o) = store w)
        /\ (e - now w < 300000 ->
            context o = context o' /\ world o = world o'
            /\ events o = EvStore (OpGet TOKEN_EXPIRY) true :: events o')).
Proof.
  cbv zeta. unfold checkTokenRefresh.
  destruct (shouldRefreshToken_run (B:=Body) rejects w)
    as (r & w' & evs & Hget & Hrun).
  destruct (getTimeUntilExpiry_run (B:=Body) rejects w)
    as (r' & a & Hrun' & Ha & Hr).
  rewrite Hget in Hrun'. injection Hrun' as <- -> ->.
  rewrite Hrun. split; [|split].
  - destruct (JSMath.lt r (JS.Num 5)); cbn [settled]; [|reflexivity].
    apply refreshSession_settled.
  - intros Hnone.
    assert (Hzero : r = JS.Num 0).
    { rewrite Hr, Ha. destruct Hnone as [-> | ->]; [reflexivity|].
      now rewrite andb_false_r. }
    rewrite Hzero, Ha. cbn [JSMath.lt Z.ltb Z.compare settled context world events app].
    repeat split.
  - intros e _ _ Hstored Hread.
    rewrite Hread in Ha. subst a.
    rewrite Hstored, toString_truthy in Hr. cbn [andb from_option negb] in Hr.
    unfold Datatypes.id in Hr. rewrite parseInt_toString in Hr.
    cbn [JSMath.sub JSMath.floor_div JSMath.max] in Hr. subst r.
    cbn [JSMath.lt negb].
    pose proof (Z.div_mod (e - now w) 60000 ltac:(lia)) as Hdm.
    pose proof (Z.mod_pos_bound (e - now w) 60000 ltac:(lia)) as Hmod.
    destruct (Z.ltb_spec (Z.max 0 ((e - now w) / 60000)) 5) as [Hlt|Hge].
    + assert (Hsoon : e - now w < 300000).
      { destruct (Z.lt_ge_cases (e - now w) 300000) as [|Hbig]; [assumption|].
        assert (5 <= (e - now w) / 60000) by (apply Z.div_le_lower_bound; lia). lia. }
      cbn [settled navigations context world events].
      split; [lia|]. intros _. repeat split.
    + cbn [settled navigations context world events].
      split; [|intros Hsoon; exfalso].
      * intros _. repeat split.
      * assert ((e - now w) / 60000 < 5) by (apply Z.div_lt_upper_bound; lia). lia.
Qed.

End ProviderFacts.

(** ** The route guard *)

Section GuardFacts.
Import AuthNavigator.

Lemma is_segment_Some (segment : option string) (name : string) :
  is_segment segment name = true <-> segment = Some name.
Proof.
  destruct segment as [s|]; cbn; [|split; discriminate].
  rewrite String.eqb_eq. split; [now intros -> | now intros [= ->]].
Qed.

(** X15. The route guard. It does nothing while the session is
    loading. A visitor without a user is left alone only on the auth
    screens and the splash screen and is sent to the login screen from
    everywhere else; a signed-in user is never sent to the login
    screen, and is sent to the tabs only from the auth screens. And
    the guard does not loop: on the route it redirects to it asks for
    no further redirect. *)
Theorem X15_route_guard (user : option UserData) (segment : option string) :
  redirect user true segment = None
  /\ (user = None ->
      redirect user false segment
      = if is_segment segment "auth" || is_segment segment "splash"
        then None else Some "/auth/login")
  /\ (user <> None ->
      redirect user false segment
      = if is_segment segment "auth" then Some "/(tabs)" else None)
  /\ (forall href,
        redirect user false segment = Some href ->
        redirect user false (segment0 href) = None).
Proof.
  split; [reflexivity|]. split; [|split].
  - intros ->. unfold redirect. cbn [andb negb].
    destruct (is_segment segment "auth") eqn:Ha; cbn [andb negb orb].
    + apply is_segment_Some in Ha. subst segment. reflexivity.
    + destruct (is_segment segment "(tabs)") eqn:Ht.
      * apply is_segment_Some in Ht. subst segment. reflexivity.
      * destruct (is_segment segment "splash"); reflexivity.
  - intros Hu. destruct user as [u|]; [|congruence]. unfold redirect. cbn [andb negb].
    destruct (is_segment segment "auth"); reflexivity.
  - intros href. unfold redirect.
    destruct user as [u|]; cbn [andb negb].
    + destruct (is_segment segment "auth"); [|discriminate].
      intros [= <-]. reflexivity.
    + destruct (is_segment segment "(tabs)").
      * intros [= <-]. reflexivity.
      * destruct (negb (is_segment segment "auth") && negb (is_segment segment "splash"));
          [|discriminate].
        intros [= <-]. reflexivity.
Qed.

End GuardFacts.


(** ** The interceptor: invariants of every schedule *)

Section QueueFacts.
Import HttpClient RefreshQueue.

(** Every case of [step], with the request the event is for looked
    up and its phase known. *)
Ltac step_cases c ev :=
  let r0 := fresh "r0" in
  let q0 := fresh "q0" in
  let H0 := fresh "H0" in
  let Hp := fresh "Hp" in
  destruct ev as [?h|r0 ?reply|r0 ?v|r0 ?res|r0 ?ok|r0]; cbn [step];
  [ idtac
  | unfold on_response;
    destruct (requests c !! r0) as [q0|] eqn:H0;
    [ destruct (phase q0) as [| |[| | |]| |] eqn:Hp;
      [ match goal with
        | |- context [match ?reply with Status _ => _ | NoResponse => _ end] =>
            destruct reply as [?status|];
            [ match goal with
              | |- context [(200 <=? ?k) && (?k <? 300)] =>
                  destruct ((200 <=? k) && (k <? 300)) eqn:?H2xx;
                  [ | destruct ((k =? 401) && negb (_retry q0)) eqn:?H401;
                      [ destruct (isRefreshing c) eqn:?Hflag | ] ]
              end
            | ]
        end
      | .. ]
    | ]
  | unfold phase_of;
    destruct (requests c !! r0) as [q0|] eqn:H0; cbn [fmap option_fmap option_map];
    [ destruct (phase q0) as [| |[| | |]| |] eqn:Hp;
      [ | | match goal with |- context [JS.truthy ?v] => destruct (JS.truthy v) eqn:?Htok end
        | .. ]
    | ]
  | unfold phase_of;
    destruct (requests c !! r0) as [q0|] eqn:H0; cbn [fmap option_fmap option_map];
    [ destruct (phase q0) as [| |[| | |]| |] eqn:Hp;
      [ | | | match goal with
              | |- context [match ?res with Some _ => _ | None => _ end] => destruct res
              end
        | .. ]
    | ]
  | unfold phase_of;
    destruct (requests c !! r0) as [q0|] eqn:H0; cbn [fmap option_fmap option_map];
    [ destruct (phase q0) as [| |[| | |]| |] eqn:Hp;
      [ | | | | match goal with
                | |- context [if ?ok then _ else _] => destruct ok
                end
        | .. ]
    | ]
  | unfold phase_of;
    destruct (requests c !! r0) as [q0|] eqn:H0; cbn [fmap option_fmap option_map];
    [ destruct (phase q0) as [| |[| | |]| |] eqn:Hp | ] ].

Lemma fold_alter_notin (f : Request -> Request) (l : list nat) (reqs : list Request)
    (j : nat) :
  j ∉ l -> foldl (fun reqs r => alter f r reqs) reqs l !! j = reqs !! j.
Proof.
  revert reqs. induction l as [|x xs IH]; intros reqs Hj; [reflexivity|].
  apply not_elem_of_cons in Hj as [Hne Hj].
  cbn [foldl]. rewrite IH by assumption.
  now rewrite list_lookup_alter_ne by congruence.
Qed.

Lemma fold_alter_None (f : Request -> Request) (l : list nat) (reqs : list Request)
    (j : nat) :
  reqs !! j = None -> foldl (fun reqs r => alter f r reqs) reqs l !! j = None.
Proof.
  revert reqs. induction l as [|x xs IH]; intros reqs Hj; [exact Hj|].
  cbn [foldl]. apply IH.
  destruct (decide (x = j)) as [->|Hne].
  - now rewrite list_lookup_alter_eq, Hj.
  - now rewrite list_lookup_alter_ne.
Qed.

Lemma fold_alter_kept (f : Request -> Request) (P : Request -> Prop) (l : list nat)
    (reqs : list Request) (j : nat) (q : Request) :
  (forall x, P x -> P (f x)) ->
  reqs !! j = Some q -> P q ->
  exists q', foldl (fun reqs r => alter f r reqs) reqs l !! j = Some q' /\ P q'.
Proof.
  intros Hf. revert reqs q. induction l as [|x xs IH]; intros reqs q Hq HP; [eauto|].
  cbn [foldl]. destruct (decide (x = j)) as [->|Hne].
  - apply (IH _ (f q)); [|now apply Hf].
    now rewrite list_lookup_alter_eq, Hq.
  - apply (IH _ q); [|assumption].
    now rewrite list_lookup_alter_ne.
Qed.

Lemma fold_alter_in (f : Request -> Request) (P : Request -> Prop) (l : list nat)
    (reqs : list Request) (j : nat) (q : Request) :
  (forall x, P (f x)) ->
  j ∈ l -> reqs !! j = Some q ->
  exists q', foldl (fun reqs r => alter f r reqs) reqs l !! j = Some q' /\ P q'.
Proof.
  intros Hf. revert reqs q. induction l as [|x xs IH]; intros reqs q Hj Hq.
  - now apply elem_of_nil in Hj.
  - cbn [foldl]. destruct (decide (x = j)) as [->|Hne].
    + apply (fold_alter_kept f P xs _ j (f q)); auto.
      now rewrite list_lookup_alter_eq, Hq.
    + apply elem_of_cons in Hj as [->|Hj]; [congruence|].
      apply (IH _ q Hj). now rewrite list_lookup_alter_ne.
Qed.

(** A request outside the queue is not touched when the queue is
    settled. *)
Lemma processQueue_notin (token : option string) (error : option RefreshError)
    (c : Client) (j : nat) :
  j ∉ failedQueue c ->
  requests (processQueue token error c) !! j = requests c !! j.
Proof. intros Hj. unfold processQueue. cbn [requests]. now apply fold_alter_notin. Qed.

(** A queued request is re-sent or rejected. *)
Lemma processQueue_in (token : option string) (error : option RefreshError)
    (c : Client) (j : nat) (q : Request) :
  j ∈ failedQueue c -> requests c !! j = Some q ->
  exists q', requests (processQueue token error c) !! j = Some q'
    /\ (phase q' = InFlight \/ exists f, phase q' = Failed f).
Proof.
  intros Hj Hq. unfold processQueue. cbn [requests].
  eapply fold_alter_in; eauto.
  intros x. destruct error; [|destruct (JS.truthy token)]; cbn; eauto.
Qed.

Lemma processQueue_None (token : option string) (error : option RefreshError)
    (c : Client) (j : nat) :
  requests c !! j = None -> requests (processQueue token error c) !! j = None.
Proof. intros Hj. unfold processQueue. cbn [requests]. now apply fold_alter_None. Qed.

Lemma processQueue_Some (token : option string) (error : option RefreshError)
    (c : Client) (j : nat) (q : Request) :
  requests c !! j = Some q ->
  exists q', requests (processQueue token error c) !! j = Some q'.
Proof.
  intros Hj. unfold processQueue. cbn [requests].
  match goal with
  | |- context [foldl ?g _ _] =>
      destruct (fold_alter_kept
                  (fun q => match error with
                            | Some e => set_phase (Failed (RefreshFailed e)) q
                            | None => if JS.truthy token then resend (default "" token) q
                                      else set_phase (Failed (HttpError 401)) q
                            end)
                  (fun _ => True) (failedQueue c) (requests c) j q) as (q' & Hq' & _);
        auto
  end.
  eauto.
Qed.

(** *** The queue lists the waiting requests *)

Lemma queue_sound_alter (c : Client) (r : nat) (q0 : Request) (f : Request -> Request)
    (b : bool) (n : nat) :
  queue_sound c ->
  requests c !! r = Some q0 -> phase q0 <> Queued -> phase (f q0) <> Queued ->
  queue_sound {| isRefreshing := b; failedQueue := failedQueue c;
                 requests := alter f r (requests c); refreshCalls := n |}.
Proof.
  intros [Hnd Hiff] H0 Hp Hp'. split; [exact Hnd|].
  intros j. cbn [failedQueue]. rewrite Hiff. unfold phase_of. cbn [requests].
  destruct (decide (r = j)) as [<-|Hne].
  - rewrite list_lookup_alter_eq, H0. cbn. split; intros [= H]; congruence.
  - now rewrite list_lookup_alter_ne.
Qed.

Lemma queue_sound_processQueue (token : option string) (error : option RefreshError)
    (c : Client) :
  queue_sound c -> queue_sound (processQueue token error c).
Proof.
  intros [Hnd Hiff]. split; [constructor|].
  intros j. change (failedQueue (processQueue token error c)) with (@nil nat).
  split; [intros H; now apply elem_of_nil in H|].
  intros Hq. exfalso. unfold phase_of in Hq.
  destruct (decide (j ∈ failedQueue c)) as [Hin|Hnin].
  - pose proof (proj1 (Hiff j) Hin) as Hphase. unfold phase_of in Hphase.
    destruct (requests c !! j) as [q|] eqn:Hj; [|discriminate].
    destruct (processQueue_in token error c j q Hin Hj) as (q' & Hq' & Hph).
    rewrite Hq' in Hq. cbn in Hq. destruct Hph as [Hph|[f Hph]]; congruence.
  - rewrite processQueue_notin in Hq by assumption.
    apply Hnin, Hiff. exact Hq.
Qed.

Lemma queue_sound_enqueue (c : Client) (r : nat) (q0 : Request) (b : bool) (n : nat) :
  queue_sound c ->
  requests c !! r = Some q0 -> phase q0 = InFlight ->
  queue_sound {| isRefreshing := b; failedQueue := failedQueue c ++ [r];
                 requests := alter (set_phase Queued) r (requests c); refreshCalls := n |}.
Proof.
  intros [Hnd Hiff] H0 Hp.
  assert (Hnin : r ∉ failedQueue c).
  { intros Hin. apply Hiff in Hin. unfold phase_of in Hin. rewrite H0 in Hin.
    cbn in Hin. congruence. }
  split.
  - cbn [failedQueue]. apply NoDup_app. split; [exact Hnd|]. split; [|apply NoDup_singleton].
    intros x Hx Hx'. apply list_elem_of_singleton in Hx'. congruence.
  - intros j. cbn [failedQueue]. rewrite elem_of_app, list_elem_of_singleton, Hiff.
    unfold phase_of. cbn [requests].
    destruct (decide (r = j)) as [<-|Hne].
    + rewrite list_lookup_alter_eq, H0. cbn. split; auto.
    + rewrite list_lookup_alter_ne by assumption. split; [intros [H|H]; congruence|auto].
Qed.

Lemma queue_sound_send (c : Client) (q : Request) :
  queue_sound c -> phase q = InFlight ->
  queue_sound {| isRefreshing := isRefreshing c; failedQueue := failedQueue c;
                 requests := requests c ++ [q]; refreshCalls := refreshCalls c |}.
Proof.
  intros [Hnd Hiff] Hp. split; [exact Hnd|].
  intros j. cbn [failedQueue]. rewrite Hiff. unfold phase_of. cbn [requests].
  destruct (requests c !! j) as [x|] eqn:Hj.
  - now rewrite (lookup_app_l_Some _ _ _ _ Hj).
  - split; [discriminate|].
    destruct ((requests c ++ [q]) !! j) as [y|] eqn:Hy; [|discriminate].
    apply lookup_app_Some in Hy as [Hy|[_ Hy]]; [congruence|].
    apply list_lookup_singleton_Some in Hy as [_ <-]. cbn. congruence.
Qed.

Lemma queue_sound_notin (c : Client) (r : nat) (q0 : Request) :
  queue_sound c -> requests c !! r = Some q0 -> phase q0 <> Queued -> r ∉ failedQueue c.
Proof.
  intros [_ Hiff] H0 Hp Hin. apply Hiff in Hin. unfold phase_of in Hin.
  rewrite H0 in Hin. cbn in Hin. congruence.
Qed.

Lemma queue_sound_settle (token : option string) (error : option RefreshError)
    (c : Client) (r : nat) (q0 : Request) (f : Request -> Request) (b : bool) (n : nat) :
  queue_sound c ->
  requests c !! r = Some q0 -> phase q0 <> Queued -> phase (f q0) <> Queued ->
  queue_sound
    {| isRefreshing := b;
       failedQueue := failedQueue (processQueue token error c);
       requests := alter f r (requests (processQueue token error c));
       refreshCalls := n |}.
Proof.
  intros Hinv H0 Hp Hp'.
  apply (queue_sound_alter (processQueue token error c) r q0 f b n);
    [now apply queue_sound_processQueue| |assumption|assumption].
  rewrite processQueue_notin; [assumption|]. eapply queue_sound_notin; eauto.
Qed.

Lemma step_queue_sound (c : Client) (ev : Event) : queue_sound c -> queue_sound (step c ev).
Proof.
  intros Hinv. step_cases c ev; try exact Hinv; unfold fail_refresh, update.
  all: first
    [ now apply queue_sound_send
    | eapply queue_sound_enqueue; solve [eauto]
    | eapply queue_sound_settle; eauto; rewrite ?Hp; cbn; congruence
    | eapply queue_sound_alter; eauto; rewrite ?Hp; cbn; congruence ].
Qed.

Lemma reachable_queue_sound (c : Client) : reachable c -> queue_sound c.
Proof.
  induction 1 as [|c ev _ IH]; [|now apply step_queue_sound].
  split; [constructor|]. intros r. cbn. split; [intros H; now apply elem_of_nil in H|discriminate].
Qed.

Lemma reachable_run (c : Client) (evs : list Event) : reachable c -> reachable (run c evs).
Proof.
  intros Hc. unfold run. induction evs as [|ev evs IH] using rev_ind; [exact Hc|].
  rewrite foldl_app. cbn [foldl]. now apply reach_step.
Qed.

(** X16. In every state the client can reach, [failedQueue] lists
    exactly the requests whose promise waits for the refresh, each
    once. So when the refresh settles the queue (the new tokens were
    stored), no request is left waiting. *)
Theorem X16_queue_lists_waiting_requests (c : Client) :
  reachable c ->
  queue_sound c
  /\ (forall r newTokens,
        phase_of c r = Some (Refresher (Storing newTokens)) ->
        failedQueue (step c (TokensStored r true)) = []
        /\ forall j, phase_of (step c (TokensStored r true)) j <> Some Queued).
Proof.
  intros Hc. split; [now apply reachable_queue_sound|].
  intros r newTokens Hr.
  assert (Hq : failedQueue (step c (TokensStored r true)) = []).
  { cbn [step]. rewrite Hr. reflexivity. }
  split; [exact Hq|].
  intros j Hj.
  destruct (reachable_queue_sound _ (reach_step c (TokensStored r true) Hc)) as [_ Hiff].
  apply Hiff in Hj. rewrite Hq in Hj. now apply elem_of_nil in Hj.
Qed.

(** *** A settled request stays settled *)

Lemma step_settled (c : Client) (ev : Event) (j : nat) (p : Phase) :
  queue_sound c ->
  phase_of c j = Some p -> is_settled p = true ->
  phase_of (step c ev) j = Some p.
Proof.
  intros Hinv Hj Hs.
  assert (Hne : forall (r : nat) (q0 : Request),
             requests c !! r = Some q0 -> is_settled (phase q0) = false -> r <> j).
  { intros r q0 H0 Hp ->. unfold phase_of in Hj. rewrite H0 in Hj. cbn in Hj. congruence. }
  assert (Hnin : j ∉ failedQueue c).
  { intros Hin. apply (proj2 Hinv) in Hin. rewrite Hin in Hj. injection Hj as <-. discriminate. }
  assert (Halter : forall (f : Request -> Request) (r : nat) (q0 : Request)
                          (reqs : list Request),
             requests c !! r = Some q0 -> is_settled (phase q0) = false ->
             reqs !! j = requests c !! j ->
             phase <$> alter f r reqs !! j = Some p).
  { intros f r q0 reqs H0 Hp Hreqs.
    rewrite list_lookup_alter_ne by (eapply Hne; eauto). rewrite Hreqs. exact Hj. }
  step_cases c ev; try exact Hj; unfold fail_refresh, update, phase_of; cbn [requests].
  all: try (eapply Halter; [eassumption | now rewrite Hp | first [reflexivity | now apply processQueue_notin]]).
  unfold phase_of in Hj. destruct (requests c !! j) as [x|] eqn:Hx; [|discriminate].
  now rewrite (lookup_app_l_Some _ _ _ _ Hx).
Qed.

(** X17. A request whose promise has settled (fulfilled or rejected)
    is never touched again: in every reachable state and for every
    further schedule of events its phase stays what it is. *)
Theorem X17_settled_requests_are_final (c : Client) (evs : list Event) (j : nat) (p : Phase) :
  reachable c ->
  phase_of c j = Some p -> is_settled p = true ->
  phase_of (run c evs) j = Some p.
Proof.
  intros Hc Hj Hs. unfold run.
  induction evs as [|ev evs IH] using rev_ind; [exact Hj|].
  rewrite foldl_app. cbn [foldl].
  apply step_settled; [|assumption|assumption].
  apply reachable_queue_sound. now apply (reachable_run c evs).
Qed.

(** *** The flag and the refresher *)

Lemma step_keeps_refresher (c : Client) (ev : Event) :
  (isRefreshing c = true ->
   exists r q, requests c !! r = Some q /\ is_refresher q = true) ->
  isRefreshing (step c ev) = true ->
  exists r q, requests (step c ev) !! r = Some q /\ is_refresher q = true.
Proof.
  intros Hinv.
  assert (Hother : forall (f : Request -> Request) (r0 : nat) (q0 : Request) (b : bool),
             requests c !! r0 = Some q0 -> is_refresher q0 = false ->
             isRefreshing c = true ->
             exists r q, alter f r0 (requests c) !! r = Some q /\ is_refresher q = true).
  { intros f r0 q0 b H0 Hp Hup. destruct (Hinv Hup) as (r & q & Hq & Href).
    exists r, q. split; [|exact Href].
    rewrite list_lookup_alter_ne; [exact Hq|]. intros ->. congruence. }
  assert (Hself : forall (f : Request -> Request) (r0 : nat) (q0 : Request)
                         (reqs : list Request),
             reqs !! r0 = Some q0 -> is_refresher (f q0) = true ->
             exists r q, alter f r0 reqs !! r = Some q /\ is_refresher q = true).
  { intros f r0 q0 reqs H0 Hp. exists r0, (f q0). split; [|exact Hp].
    now rewrite list_lookup_alter_eq, H0. }
  step_cases c ev; try exact Hinv; unfold fail_refresh, update;
    cbn [isRefreshing requests]; try discriminate.
  all: intros Hup;
    first
      [ destruct (Hinv Hup) as (r & q & Hq & Href); exists r, q;
        split; [now apply lookup_app_l_Some | exact Href]
      | eapply Hself; [eassumption | reflexivity]
      | match goal with
        | |- context [processQueue ?t ?e ?c0] =>
            destruct (processQueue_Some t e c0 _ _ H0) as (x & Hx);
            eapply Hself; [exact Hx | reflexivity]
        end
      | eapply (Hother _ _ _ true);
        [ eassumption | unfold is_refresher; now rewrite Hp | first [exact Hup | assumption] ] ].
Qed.

Lemma reachable_refresher_exists (c : Client) :
  reachable c -> isRefreshing c = true ->
  exists r q, requests c !! r = Some q /\ is_refresher q = true.
Proof.
  induction 1 as [|c ev _ IH]; [discriminate|]. now apply step_keeps_refresher.
Qed.

(** X18. The flag tells the truth: in every reachable state
    [isRefreshing] is set exactly when some request is running the
    refresh, and then exactly one is. *)
Theorem X18_flag_iff_one_refresher (c : Client) :
  reachable c ->
  (isRefreshing c = true <->
   exists r q, requests c !! r = Some q /\ is_refresher q = true)
  /\ (forall r1 r2 q1 q2,
        requests c !! r1 = Some q1 -> requests c !! r2 = Some q2 ->
        is_refresher q1 = true -> is_refresher q2 = true -> r1 = r2).
Proof.
  intros Hc. destruct (reachable_exclusive c Hc) as [Hnone Hone].
  split; [split|exact Hone].
  - now apply reachable_refresher_exists.
  - intros (r & q & Hq & Href). destruct (isRefreshing c) eqn:Hflag; [reflexivity|].
    specialize (Hnone eq_refl r q Hq). congruence.
Qed.

(** *** Refresh calls are bounded by the marks *)

Lemma count_alter (P : Request -> bool) (f : Request -> Request) (i : nat)
    (l : list Request) (x : Request) :
  l !! i = Some x ->
  (length (List.filter P (alter f i l)) + Nat.b2n (P x)
   = length (List.filter P l) + Nat.b2n (P (f x)))%nat.
Proof.
  revert i. induction l as [|a l IH]; intros [|i] Hx; cbn in *; try discriminate.
  - injection Hx as ->. destruct (P x), (P (f x)); cbn; lia.
  - specialize (IH i Hx). destruct (P a); cbn; lia.
Qed.

Lemma alter_absent (f : Request -> Request) (i : nat) (l : list Request) :
  l !! i = None -> alter f i l = l.
Proof.
  revert i. induction l as [|a l IH]; intros [|i] Hx; cbn in *; try discriminate;
    try reflexivity. f_equal. now apply IH.
Qed.

Lemma fold_count_same (P : Request -> bool) (f : Request -> Request) (l : list nat)
    (reqs : list Request) :
  (forall x, P (f x) = P x) ->
  length (List.filter P (foldl (fun reqs r => alter f r reqs) reqs l))
  = length (List.filter P reqs).
Proof.
  intros Hf. revert reqs. induction l as [|i l IH]; intros reqs; [reflexivity|].
  cbn [foldl]. rewrite IH.
  destruct (reqs !! i) as [x|] eqn:Hx.
  - pose proof (count_alter P f i reqs x Hx) as H. rewrite Hf in H. lia.
  - now rewrite alter_absent.
Qed.

Lemma fold_count_le (P : Request -> bool) (f : Request -> Request) (l : list nat)
    (reqs : list Request) :
  (forall x, P (f x) = false) ->
  (length (List.filter P (foldl (fun reqs r => alter f r reqs) reqs l))
   <= length (List.filter P reqs))%nat.
Proof.
  intros Hf. revert reqs. induction l as [|i l IH]; intros reqs; [reflexivity|].
  cbn [foldl]. etransitivity; [apply IH|].
  destruct (reqs !! i) as [x|] eqn:Hx.
  - pose proof (count_alter P f i reqs x Hx) as H. rewrite Hf in H. cbn in H. lia.
  - now rewrite alter_absent.
Qed.

(** The bound with the refresh call that is still to come counted
    in. *)
Local Abbreviation bounded c :=
  (refreshCalls c + length (List.filter is_reading (requests c)) <= marked c)%nat.

Lemma bounded_alter (c : Client) (r : nat) (q0 : Request) (f : Request -> Request)
    (b : bool) (queue : list nat) (n : nat) :
  bounded c ->
  requests c !! r = Some q0 ->
  (n + Nat.b2n (is_reading (f q0)) + Nat.b2n (_retry q0)
   <= refreshCalls c + Nat.b2n (is_reading q0) + Nat.b2n (_retry (f q0)))%nat ->
  bounded {| isRefreshing := b; failedQueue := queue;
             requests := alter f r (requests c); refreshCalls := n |}.
Proof.
  unfold marked. cbn [requests refreshCalls]. intros Hinv H0 Hn.
  pose proof (count_alter is_reading f r (requests c) q0 H0).
  pose proof (count_alter _retry f r (requests c) q0 H0).
  lia.
Qed.

Lemma bounded_processQueue (token : option string) (error : option RefreshError)
    (c : Client) :
  bounded c -> bounded (processQueue token error c).
Proof.
  unfold marked, processQueue. cbn [requests refreshCalls]. intros Hinv.
  rewrite (fold_count_same _retry).
  2: { intros x. destruct error; [|destruct (JS.truthy token)]; reflexivity. }
  etransitivity; [|exact Hinv]. apply Nat.add_le_mono_l.
  apply fold_count_le.
  intros x. destruct error; [|destruct (JS.truthy token)]; reflexivity.
Qed.

Lemma step_bounded (c : Client) (ev : Event) : bounded c -> bounded (step c ev).
Proof.
  intros Hinv. step_cases c ev; try exact Hinv; unfold fail_refresh, update.
  { unfold marked. cbn [requests refreshCalls].
    rewrite !List.filter_app, !List.length_app. cbn. unfold marked in Hinv. lia. }
  all: first
    [ eapply bounded_alter; [exact Hinv | eassumption |];
      unfold is_reading; cbn [phase _retry set_phase resend]; rewrite ?Hp;
      try (apply andb_prop in H401 as [_ H401]; apply negb_true_iff in H401; rewrite H401);
      cbn; lia
    | match goal with
      | |- context [processQueue ?t ?e ?c0] =>
          destruct (processQueue_Some t e c0 _ _ H0) as (x & Hx);
          eapply (bounded_alter (processQueue t e c0));
            [now apply bounded_processQueue | exact Hx |];
          unfold is_reading; cbn [phase _retry set_phase resend];
          destruct (_retry x), (phase x) as [| |[| | |]| |]; cbn; lia
      end ].
Qed.

Lemma reachable_bounded (c : Client) : reachable c -> bounded c.
Proof.
  induction 1 as [|c ev _ IH]; [cbn; lia|]. now apply step_bounded.
Qed.

(** X19. No refresh loop. In every reachable state the number of
    refresh calls made is at most the number of requests carrying the
    [_retry] mark, hence at most the number of requests sent: a request
    starts at most one refresh. And a marked request that is answered
    401 again is rejected with it, without another refresh call. *)
Theorem X19_refresh_calls_bounded (c : Client) :
  reachable c ->
  (refreshCalls c <= marked c)%nat
  /\ (marked c <= length (requests c))%nat
  /\ (forall r q,
        requests c !! r = Some q -> phase q = InFlight -> _retry q = true ->
        phase_of (step c (Response r (Status 401))) r = Some (Failed (HttpError 401))
        /\ refreshCalls (step c (Response r (Status 401))) = refreshCalls c
        /\ isRefreshing (step c (Response r (Status 401))) = isRefreshing c).
Proof.
  intros Hc. pose proof (reachable_bounded c Hc) as Hb.
  split; [lia|]. split; [apply List.filter_length_le|].
  intros r q Hq Hp Hretry. cbn [step]. unfold on_response, phase_of.
  rewrite Hq, Hp, Hretry. cbn. rewrite list_lookup_alter_eq, Hq. repeat split.
Qed.

End QueueFacts.


(** ** The mutation executor: termination, cancellation, [mutateAsync] *)

Section ExecutorMore.
Import Mutation MutationAsync.
Context {TData TVariables E : Type}.
Context (options : @Options) (env : Env TData E).

Local Abbreviation Hook := (Hook TData TVariables E).
Local Abbreviation MutationState := (MutationState TData E).

Lemma invocations_prepare (v : TVariables) (h : Hook) :
  invocations (prepare options v h) = invocations h
  /\ cancelRef (prepare options v h) = false.
Proof.
  unfold prepare. destruct (optimisticUpdate options); cbn; [|split; reflexivity].
  split; [|reflexivity].
  unfold invocations. cbn. rewrite List.filter_app, List.length_app. cbn. lia.
Qed.

Lemma invocations_settle (rendered : MutationState) (v : TVariables)
    (r : TData + MError E) (h : Hook) :
  invocations (settle options rendered v r h) = invocations h.
Proof.
  unfold settle.
  destruct r as [d|err]; destruct (cancelRef h) eqn:Hc;
    destruct (onSuccess options), (onError options), (showErrorAlert options),
      (revertOptimisticUpdate options), (onSettled options);
    cbn; rewrite ?Hc; cbn;
    unfold invocations; cbn; rewrite ?List.filter_app, ?List.length_app; cbn; lia.
Qed.

(** With at most [m] retries left, [executeWithRetry] ends within
    [m + 1] invocations, whatever the operation and the user do. *)
Lemma executeWithRetry_bounded (n : Z) (v : TVariables) :
  (forall a, n < a ->
     match retry options with RetryBool b => b | RetryNum k => a <=? k end = false) ->
  forall (m : nat) (fuel : nat) (a : Z) (h : Hook),
    n + 1 - a <= Z.of_nat m -> (S m <= fuel)%nat ->
    exists r h',
      executeWithRetry options env fuel v a h = Some (r, h')
      /\ (invocations h' <= invocations h + S m)%nat.
Proof.
  intros Hlimit.
  induction m as [|m IH]; intros fuel a h Ha Hfuel;
    (destruct fuel as [|fuel]; [lia|]); cbn [executeWithRetry];
    (destruct (invoke v a h) as [h1|] eqn:Hinv; [|do 2 eexists; split; [reflexivity|lia]]);
    destruct (invoke_Some _ _ _ _ Hinv) as (_ & _ & Hn1 & _);
    set (h2 := cancel_if (cancel_during_call env (invocations h)) h1);
    assert (Hn2 : invocations h2 = S (invocations h))
      by (unfold h2; now rewrite invocations_cancel_if).
  - rewrite (Hlimit a ltac:(lia)). cbn [andb].
    destruct (settles env (invocations h)); [destruct (cancelRef h2)|];
      do 2 eexists; (split; [reflexivity|]); lia.
  - assert (Hrec : forall h3 : Hook, invocations h3 = S (invocations h) ->
              exists r h',
                executeWithRetry options env fuel v (a + 1) h3 = Some (r, h')
                /\ (invocations h' <= invocations h + S (S m))%nat).
    { intros h3 Hn3. destruct (IH fuel (a + 1) h3) as (r & h' & Hrun & Hle); [lia|lia|].
      exists r, h'. split; [exact Hrun|]. lia. }
    assert (Hn3 : forall d, invocations
              (cancel_if (cancel_during_delay env (invocations h)) (log (CallSetTimeout d) h2))
              = S (invocations h)).
    { intros d. rewrite invocations_cancel_if, invocations_log_other; [exact Hn2|discriminate]. }
    destruct (settles env (invocations h)); [destruct (cancelRef h2) eqn:Hc2|].
    + rewrite andb_false_r. do 2 eexists. split; [reflexivity|]. lia.
    + do 2 eexists. split; [reflexivity|]. lia.
    + match goal with
      | |- context [if ?b then _ else _] => destruct b
      end; [apply Hrec, Hn3|].
      do 2 eexists. split; [reflexivity|]. lia.
Qed.

Lemma mutate_bounded (n : Z) (m : nat) (fuel : nat) (rendered : MutationState)
    (v : TVariables) (h : Hook) :
  (forall a, n < a ->
     match retry options with RetryBool b => b | RetryNum k => a <=? k end = false) ->
  n <= Z.of_nat m -> (S m <= fuel)%nat ->
  exists h',
    mutate options env fuel rendered v h = Some h'
    /\ (invocations h' <= invocations h + S m)%nat.
Proof.
  intros Hlimit Hn Hfuel. unfold mutate.
  destruct (isLoading rendered); [exists h; split; [reflexivity|lia]|].
  destruct (executeWithRetry_bounded n v Hlimit m fuel 1 (prepare options v h))
    as (r & h' & Hrun & Hle); [lia|lia|].
  rewrite Hrun. eexists. split; [reflexivity|].
  rewrite invocations_settle. rewrite (proj1 (invocations_prepare v h)) in Hle. exact Hle.
Qed.

(** X20. Bounded retries. With [retry = n] every [mutate] ends, and
    it has invoked [mutationFn] at most [n + 1] times, whatever the
    operation answers and whenever the user cancels; with
    [retry = false] (as [useCriticalMutation] sets it) at most
    once. *)
Theorem X20_retries_are_bounded (fuel : nat) (rendered : MutationState)
    (v : TVariables) (h : Hook) :
  (forall n : Z,
      retry options = RetryNum n -> (Z.to_nat n + 1 <= fuel)%nat ->
      exists h',
        mutate options env fuel rendered v h = Some h'
        /\ (invocations h' <= invocations h + Z.to_nat n + 1)%nat)
  /\ (retry options = RetryBool false -> (1 <= fuel)%nat ->
      exists h',
        mutate options env fuel rendered v h = Some h'
        /\ (invocations h' <= invocations h + 1)%nat).
Proof.
  split.
  - intros n Hretry Hfuel.
    destruct (mutate_bounded n (Z.to_nat n) fuel rendered v h) as (h' & Hrun & Hle).
    + intros a Ha. rewrite Hretry. apply Z.leb_gt. exact Ha.
    + lia.
    + lia.
    + exists h'. split; [exact Hrun|]. lia.
  - intros Hretry Hfuel.
    destruct (mutate_bounded 0 0 fuel rendered v h) as (h' & Hrun & Hle).
    + intros a _. now rewrite Hretry.
    + lia.
    + lia.
    + exists h'. split; [exact Hrun|]. lia.
Qed.

Lemma executeWithRetry_forever (v : TVariables) :
  retry options = RetryBool true ->
  undisturbed env ->
  (forall i, exists e, settles env i = Rejected e) ->
  forall (fuel : nat) (a : Z) (h : Hook),
    cancelRef h = false -> executeWithRetry options env fuel v a h = None.
Proof.
  intros Hretry Hund Hfail.
  induction fuel as [|fuel IH]; intros a h Hc; [reflexivity|].
  cbn [executeWithRetry]. unfold invoke. rewrite Hc.
  destruct (Hund (invocations h)) as [-> ->].
  destruct (Hfail (invocations h)) as [e ->].
  rewrite Hretry. cbn [cancel_if log setState cancelRef]. rewrite Hc. cbn [andb negb].
  apply IH. exact Hc.
Qed.

(** X21. With [retry = true] and an operation that keeps failing,
    [mutate] never ends unless the user cancels: whatever the fuel, the
    run is still retrying. *)
Theorem X21_retry_true_never_gives_up (rendered : MutationState) (v : TVariables)
    (h : Hook) :
  retry options = RetryBool true ->
  undisturbed env ->
  (forall i, exists e, settles env i = Rejected e) ->
  isLoading rendered = false ->
  forall fuel, mutate options env fuel rendered v h = None.
Proof.
  intros Hretry Hund Hfail Hguard fuel. unfold mutate. rewrite Hguard.
  rewrite (executeWithRetry_forever v Hretry Hund Hfail); [reflexivity|].
  apply invocations_prepare.
Qed.

(** *** Cancellation *)

Lemma executeWithRetry_start_cancelled (fuel : nat) (v : TVariables) (a : Z) (h : Hook)
    (r : TData + MError E) (h' : Hook) :
  cancelRef h = true ->
  executeWithRetry options env fuel v a h = Some (r, h') ->
  r = inr Cancelled /\ h' = h.
Proof.
  intros Hc. destruct fuel as [|fuel]; [discriminate|].
  cbn [executeWithRetry]. unfold invoke. rewrite Hc. now intros [= <- <-].
Qed.

(** [executeWithRetry] only moves the attempt counter and, through
    [cancel()], [isLoading]; it calls [mutationFn] and [setTimeout]
    and nothing else. *)
Lemma executeWithRetry_keeps (fuel : nat) (v : TVariables) (a : Z) (h : Hook)
    (r : TData + MError E) (h' : Hook) :
  executeWithRetry options env fuel v a h = Some (r, h') ->
  data (state h') = data (state h) /\ error (state h') = error (state h)
  /\ exists extra,
       calls h' = calls h ++ extra
       /\ Forall (fun c => c = CallMutationFn v \/ exists d, c = CallSetTimeout d) extra.
Proof.
  revert a h r h'. induction fuel as [|fuel IH]; intros a h r h'; [discriminate|].
  cbn [executeWithRetry]. unfold invoke.
  destruct (cancelRef h).
  { intros [= <- <-]. split; [reflexivity|]. split; [reflexivity|].
    exists []. split; [now rewrite app_nil_r|constructor]. }
  match goal with
  | |- context [cancel_if ?b ?x] => set (h2 := cancel_if b x)
  end.
  assert (H2 : data (state h2) = data (state h) /\ error (state h2) = error (state h)
               /\ calls h2 = calls h ++ [CallMutationFn v])
    by (unfold h2, cancel_if; now destruct (cancel_during_call _ _)).
  assert (Hdone : data (state h2) = data (state h) /\ error (state h2) = error (state h)
            /\ exists extra,
                 calls h2 = calls h ++ extra
                 /\ Forall (fun c => c = CallMutationFn v \/ exists d, c = CallSetTimeout d)
                      extra).
  { destruct H2 as (Hd & He & Hcalls). split; [exact Hd|]. split; [exact He|].
    exists [CallMutationFn v]. split; [exact Hcalls|]. repeat constructor. }
  assert (Hretry : forall (b : bool) (d : Z),
    executeWithRetry options env fuel v (a + 1) (cancel_if b (log (CallSetTimeout d) h2))
    = Some (r, h') ->
    data (state h') = data (state h) /\ error (state h') = error (state h)
    /\ exists extra,
         calls h' = calls h ++ extra
         /\ Forall (fun c => c = CallMutationFn v \/ exists d, c = CallSetTimeout d) extra).
  { intros b d Hrun. destruct (IH _ _ _ _ Hrun) as (Hd & He & extra & Hcalls & Hall).
    destruct H2 as (Hd2 & He2 & Hcalls2).
    assert (Hb : data (state (cancel_if b (log (CallSetTimeout d) h2))) = data (state h2)
                 /\ error (state (cancel_if b (log (CallSetTimeout d) h2))) = error (state h2)
                 /\ calls (cancel_if b (log (CallSetTimeout d) h2))
                    = calls h2 ++ [CallSetTimeout d]) by now destruct b.
    destruct Hb as (Hd3 & He3 & Hcalls3).
    split; [congruence|]. split; [congruence|].
    exists ([CallMutationFn v] ++ [CallSetTimeout d] ++ extra). split.
    - rewrite Hcalls, Hcalls3, Hcalls2. now rewrite <- !app_assoc.
    - repeat (constructor; [eauto|]). exact Hall. }
  destruct (settles env (invocations h)); [destruct (cancelRef h2)|];
    try (intros [= <- <-]; exact Hdone);
    match goal with
    | |- (if ?c then _ else _) = _ -> _ => destruct c
    end; try (intros [= <- <-]; exact Hdone); apply Hretry.
Qed.

(** Once [cancel()] was called the run is over, with [isLoading]
    cleared. *)
Lemma executeWithRetry_cancelled (fuel : nat) (v : TVariables) (a : Z) (h : Hook)
    (r : TData + MError E) (h' : Hook) :
  executeWithRetry options env fuel v a h = Some (r, h') ->
  cancelRef h = false -> cancelRef h' = true ->
  isLoading (state h') = false /\ exists err, r = inr err.
Proof.
  revert a h r h'. induction fuel as [|fuel IH]; intros a h r h'; [discriminate|].
  cbn [executeWithRetry]. unfold invoke. intros Hrun Hc Hc'. rewrite Hc in Hrun.
  match type of Hrun with
  | context [cancel_if ?b ?x] => set (h2 := cancel_if b x) in Hrun
  end.
  assert (H2 : cancelRef h2 = true /\ isLoading (state h2) = false \/ cancelRef h2 = false).
  { unfold h2, cancel_if. destruct (cancel_during_call _ _); cbn; auto. }
  assert (Hretry : forall (b : bool) (d : Z),
    executeWithRetry options env fuel v (a + 1) (cancel_if b (log (CallSetTimeout d) h2))
    = Some (r, h') ->
    cancelRef h2 = false ->
    isLoading (state h') = false /\ exists err, r = inr err).
  { intros b d Hrec Hc2. destruct b; cbn [cancel_if] in Hrec.
    - apply executeWithRetry_start_cancelled in Hrec as [-> ->]; [|reflexivity].
      split; [reflexivity|eauto].
    - eapply IH; eauto. }
  destruct (settles env (invocations h)) as [result|e].
  - destruct (cancelRef h2) eqn:Hc2.
    + rewrite andb_false_r in Hrun. injection Hrun as <- <-.
      destruct H2 as [[_ Hl]|H2]; [|congruence]. split; [exact Hl|eauto].
    + injection Hrun as <- <-. congruence.
  - destruct H2 as [[Hc2 Hl]|Hc2].
    + rewrite Hc2, andb_false_r in Hrun. injection Hrun as <- <-. split; [exact Hl|eauto].
    + rewrite Hc2 in Hrun. cbn [negb] in Hrun. rewrite andb_true_r in Hrun.
      match type of Hrun with
      | (if ?c then _ else _) = _ => destruct c
      end.
      * eapply Hretry; eauto.
      * injection Hrun as <- <-. congruence.
Qed.

(** X22. A cancelled mutation reports nothing. When [mutate] ends
    with [cancel()] having been called during the run, the state shows
    neither success nor error (also when the operation had succeeded),
    [isLoading] is cleared, [data] is what it was, and beyond the
    optimistic update, the invocations of [mutationFn] and the retry
    timers nothing was called: no [onSuccess], [onError] or
    [onSettled], no alert, and no revert of the optimistic update. A
    [cancel()] while the first invocation is pending ends the run with
    that one invocation. *)
Theorem X22_cancelled_mutation_reports_nothing (fuel : nat) (rendered : MutationState)
    (v : TVariables) (h : Hook) :
  isLoading rendered = false ->
  (forall h',
      mutate options env fuel rendered v h = Some h' ->
      cancelRef h' = true ->
      isLoading (state h') = false
      /\ isSuccess (state h') = false /\ isError (state h') = false
      /\ data (state h') = data (state h) /\ error (state h') = None
      /\ exists extra,
           calls h' = calls h ++ extra
           /\ Forall (fun c => c = CallOptimisticUpdate v \/ c = CallMutationFn v
                               \/ exists d, c = CallSetTimeout d) extra)
  /\ (cancel_during_call env (invocations h) = true -> (1 <= fuel)%nat ->
      exists h',
        mutate options env fuel rendered v h = Some h'
        /\ cancelRef h' = true /\ invocations h' = S (invocations h)).
Proof.
  intros Hguard. split.
  - intros h' Hrun Hc'. unfold mutate in Hrun. rewrite Hguard in Hrun.
    destruct (executeWithRetry options env fuel v 1 (prepare options v h))
      as [[r h1]|] eqn:Hexec; [|discriminate].
    injection Hrun as <-.
    assert (Hsame : cancelRef h1 = true -> settle options rendered v r h1 = h1).
    { intros Hc1. unfold settle. destruct r; rewrite Hc1; cbn; now rewrite Hc1. }
    assert (Hc1 : cancelRef h1 = true).
    { destruct (cancelRef h1) eqn:Hc1; [reflexivity|].
      exfalso. revert Hc'. unfold settle.
      destruct r; rewrite Hc1; cbn;
        destruct (onSuccess options), (onError options), (showErrorAlert options),
          (revertOptimisticUpdate options), (onSettled options);
        cbn; rewrite ?Hc1; cbn; congruence. }
    rewrite (Hsame Hc1).
    destruct (executeWithRetry_cancelled _ _ _ _ _ _ Hexec
                (proj2 (invocations_prepare v h)) Hc1) as [Hl _].
    destruct (executeWithRetry_flags _ _ _ _ _ _ _ _ Hexec) as [He Hs].
    destruct (executeWithRetry_keeps _ _ _ _ _ _ Hexec) as (Hd & Herr & extra & Hcalls & Hall).
    unfold prepare in He, Hs, Hd, Herr, Hcalls.
    destruct (optimisticUpdate options); cbn in He, Hs, Hd, Herr, Hcalls;
      (split; [exact Hl|]); (split; [exact Hs|]); (split; [exact He|]);
      (split; [exact Hd|]); (split; [exact Herr|]).
    + exists (CallOptimisticUpdate v :: extra). split.
      * rewrite Hcalls, <- app_assoc. reflexivity.
      * constructor; [auto|]. eapply Forall_impl; [exact Hall|].
        intros c [Hc|Hc]; auto.
    + exists extra. split; [exact Hcalls|].
      eapply Forall_impl; [exact Hall|]. intros c [Hc|Hc]; auto.
  - intros Hcancel Hfuel. destruct fuel as [|fuel]; [lia|].
    unfold mutate. rewrite Hguard.
    destruct (invocations_prepare v h) as [Hn Hc].
    cbn [executeWithRetry]. unfold invoke. rewrite Hc. rewrite Hn, Hcancel.
    cbn [cancel_if cancel setState cancelRef].
    destruct (settles env (invocations h)); rewrite ?andb_false_r;
      eexists; (split; [reflexivity|]);
      unfold settle; cbn; (split; [reflexivity|]);
      rewrite <- Hn; unfold invocations; cbn;
      rewrite ?List.filter_app, ?List.length_app; cbn; lia.
Qed.

(** *** [mutateAsync] *)

Local Abbreviation shouldRetry a :=
  (match retry options with RetryBool b => b | RetryNum n => a <=? n end).

(** An undisturbed run of [executeWithRetry]: [k] attempts fail and
    are retried, and the next one ends the run, resolved or rejected
    with no retry left. *)
Lemma executeWithRetry_run (v : TVariables) :
  undisturbed env ->
  forall (k : nat) (errs : nat -> E) (fuel : nat) (a : Z) (h : Hook),
    (S k <= fuel)%nat ->
    cancelRef h = false ->
    (forall i, (i < k)%nat ->
       settles env (invocations h + i)%nat = Rejected (errs i)
       /\ shouldRetry (a + Z.of_nat i) = true) ->
    (forall d, settles env (invocations h + k)%nat = Resolved d ->
       exists h',
         executeWithRetry options env fuel v a h = Some (inl d, h')
         /\ cancelRef h' = false
         /\ invocations h' = (invocations h + S k)%nat)
    /\ (forall e, settles env (invocations h + k)%nat = Rejected e ->
        shouldRetry (a + Z.of_nat k) = false ->
        exists h',
          executeWithRetry options env fuel v a h = Some (inr (FnError e), h')
          /\ cancelRef h' = false
          /\ invocations h' = (invocations h + S k)%nat).
Proof.
  intros Hund.
  induction k as [|k IH]; intros errs fuel a h Hfuel Hc Hfail;
    (destruct fuel as [|fuel]; [lia|]); cbn [executeWithRetry];
    unfold invoke; rewrite Hc;
    destruct (Hund (invocations h)) as [-> Hdelay]; cbn [cancel_if].
  - rewrite Nat.add_0_r, Z.add_0_r. split.
    + intros d ->. cbn [log setState cancelRef]. rewrite Hc.
      eexists. split; [reflexivity|]. split; [exact Hc|].
      rewrite invocations_log_fn. unfold invocations. cbn. lia.
    + intros e -> ->. cbn [andb].
      eexists. split; [reflexivity|]. split; [exact Hc|].
      rewrite invocations_log_fn. unfold invocations. cbn. lia.
  - destruct (Hfail 0%nat ltac:(lia)) as [Hset0 Hretry0].
    rewrite Nat.add_0_r in Hset0. rewrite Z.add_0_r in Hretry0.
    rewrite Hset0, Hretry0.
    cbn [andb negb log setState cancelRef]. rewrite Hc. cbn [negb].
    rewrite Hdelay. cbn [cancel_if].
    match goal with
    | |- context [executeWithRetry _ _ _ _ _ ?h3] =>
        assert (Hn3 : invocations h3 = S (invocations h));
        [|destruct (IH (fun i => errs (S i)) fuel (a + 1) h3) as [Hok Hko]]
    end.
    + unfold invocations. cbn. rewrite ?List.filter_app, ?List.length_app. cbn. lia.
    + lia.
    + exact Hc.
    + intros i Hi. destruct (Hfail (S i) ltac:(lia)) as [Hs Hr].
      rewrite Hn3.
      replace (S (invocations h) + i)%nat with (invocations h + S i)%nat by lia.
      replace (a + 1 + Z.of_nat i) with (a + Z.of_nat (S i)) by lia.
      split; assumption.
    + rewrite Hn3 in Hok, Hko.
      replace (S (invocations h) + k)%nat with (invocations h + S k)%nat in Hok, Hko by lia.
      replace (S (invocations h) + S k)%nat with (invocations h + S (S k))%nat
        in Hok, Hko by lia.
      replace (a + 1 + Z.of_nat k) with (a + Z.of_nat (S k)) in Hko by lia.
      split; assumption.
Qed.

Lemma settle_resolved (rendered : MutationState) (v : TVariables) (d : TData) (h : Hook) :
  cancelRef h = false ->
  isSuccess (state (settle options rendered v (inl d) h)) = true
  /\ data (state (settle options rendered v (inl d) h)) = Some d.
Proof.
  intros Hc. unfold settle. rewrite Hc. cbn [negb].
  destruct (onSuccess options), (onSettled options); cbn; rewrite ?Hc; cbn;
    split; reflexivity.
Qed.

Lemma settle_rejected (rendered : MutationState) (v : TVariables) (err : MError E)
    (h : Hook) :
  cancelRef h = false ->
  isError (state (settle options rendered v (inr err) h)) = true
  /\ error (state (settle options rendered v (inr err) h)) = Some err.
Proof.
  intros Hc. unfold settle. rewrite Hc. cbn [negb].
  destruct (onError options), (showErrorAlert options), (revertOptimisticUpdate options),
    (onSettled options); cbn; rewrite ?Hc; cbn; split; reflexivity.
Qed.

(** X23. [mutateAsync] settles its promise from the render it was
    created in, not from the outcome of the call. Used on a hook
    rendered without data and without error (its first use), the
    promise is never settled, whatever the operation, the options and
    the user do: every run that ends leaves it pending, and with a
    bounded number of retries every run ends. In particular, in an
    undisturbed run where [k] attempts fail and are retried, the
    promise stays pending both when the next attempt succeeds (the
    state then shows the data) and when it fails with no retry left
    (the state then shows that last error). *)
Theorem X23_mutateAsync_first_use_never_settles (truthy : TData -> bool)
    (v : TVariables) (h : Hook) :
  isError (state h) = false -> data (state h) = None ->
  (forall fuel p h',
      mutateAsync truthy options env fuel (state h) v h = Some (p, h') -> p = Pending)
  /\ (forall (n : Z) (m : nat) (fuel : nat),
      (forall a, n < a -> shouldRetry a = false) ->
      n <= Z.of_nat m -> (S m <= fuel)%nat ->
      exists h', mutateAsync truthy options env fuel (state h) v h = Some (Pending, h'))
  /\ (isLoading (state h) = false -> undisturbed env ->
      forall (k : nat) (errs : nat -> E) (fuel : nat),
        (S k <= fuel)%nat ->
        (forall i, (i < k)%nat ->
           settles env (invocations h + i)%nat = Rejected (errs i)
           /\ shouldRetry (Z.of_nat (S i)) = true) ->
        (forall d, settles env (invocations h + k)%nat = Resolved d ->
           exists h',
             mutateAsync truthy options env fuel (state h) v h = Some (Pending, h')
             /\ isSuccess (state h') = true /\ data (state h') = Some d
             /\ invocations h' = (invocations h + S k)%nat)
        /\ (forall e, settles env (invocations h + k)%nat = Rejected e ->
            shouldRetry (Z.of_nat (S k)) = false ->
            exists h',
              mutateAsync truthy options env fuel (state h) v h = Some (Pending, h')
              /\ isError (state h') = true /\ error (state h') = Some (FnError e)
              /\ invocations h' = (invocations h + S k)%nat)).
Proof.
  intros Herr Hdata.
  assert (Hpending : forall fuel p h',
    mutateAsync truthy options env fuel (state h) v h = Some (p, h') -> p = Pending).
  { intros fuel p h'. unfold mutateAsync.
    match goal with |- context [mutate _ _ _ _ _ ?x] => destruct (mutate options env fuel (state h) v x) end;
      [|discriminate].
    rewrite Herr, Hdata. now intros [= <- _]. }
  split; [exact Hpending|]. split.
  - intros n m fuel Hlimit Hn Hfuel.
    destruct (mutateAsync truthy options env fuel (state h) v h) as [[p h']|] eqn:Hrun.
    + rewrite (Hpending _ _ _ Hrun). eauto.
    + exfalso. revert Hrun. unfold mutateAsync.
      match goal with
      | |- context [mutate _ _ _ _ _ ?x] =>
          destruct (mutate_bounded n m fuel (state h) v x Hlimit Hn Hfuel) as (h' & -> & _)
      end.
      discriminate.
  - intros Hguard Hund k errs fuel Hfuel Hfail.
    pose (h0 := {| state := state h; cancelRef := cancelRef h;
                   currentVariablesRef := Some v; calls := calls h |} : Hook).
    assert (Hsplit : forall (r : TData + MError E) (h1 : Hook),
      executeWithRetry options env fuel v 1 (prepare options v h0) = Some (r, h1) ->
      mutateAsync truthy options env fuel (state h) v h
      = Some (Pending, settle options (state h) v r h1)).
    { intros r h1 Hrun. unfold h0 in Hrun. unfold mutateAsync, mutate. cbv zeta.
      rewrite Hguard, Hrun, Herr, Hdata. reflexivity. }
    assert (Hn0 : invocations (prepare options v h0) = invocations h)
      by (rewrite (proj1 (invocations_prepare v h0)); reflexivity).
    destruct (executeWithRetry_run v Hund k errs fuel 1 (prepare options v h0) Hfuel
                (proj2 (invocations_prepare v h0))) as [Hok Hko].
    { intros i Hi. destruct (Hfail i Hi) as [Hs Hr]. rewrite Hn0.
      replace (1 + Z.of_nat i) with (Z.of_nat (S i)) by lia. split; assumption. }
    rewrite Hn0 in Hok, Hko. split.
    + intros d Hset. destruct (Hok d Hset) as (h1 & Hrun & Hc1 & Hn1).
      exists (settle options (state h) v (inl d) h1).
      split; [exact (Hsplit _ _ Hrun)|].
      destruct (settle_resolved (state h) v d h1 Hc1) as [-> ->].
      rewrite invocations_settle. auto.
    + intros e Hset Hstop.
      replace (1 + Z.of_nat k) with (Z.of_nat (S k)) in Hko by lia.
      destruct (Hko e Hset Hstop) as (h1 & Hrun & Hc1 & Hn1).
      exists (settle options (state h) v (inr (FnError e)) h1).
      split; [exact (Hsplit _ _ Hrun)|].
      destruct (settle_rejected (state h) v (FnError e) h1 Hc1) as [-> ->].
      rewrite invocations_settle. auto.
Qed.

End ExecutorMore.


(** ** The validation helpers *)

Section ValidationFacts.
Import Validation.

Lemma score_sum (password : string) :
  score (validatePasswordStrength password)
  = (Nat.b2n (8 <=? String.length password)%nat
     + Nat.b2n (test is_lower password) + Nat.b2n (test is_upper password)
     + Nat.b2n (test is_digit password) + Nat.b2n (test is_special password))%nat.
Proof.
  unfold validatePasswordStrength. cbn [score length_ok lowercase uppercase number special].
  destruct (8 <=? String.length password)%nat, (test is_lower password),
    (test is_upper password), (test is_digit password), (test is_special password);
    reflexivity.
Qed.

Lemma test_app (class : ascii -> bool) (s t : string) :
  test class (s ++ t)%string = test class s || test class t.
Proof.
  induction s as [|c s IH]; [reflexivity|].
  change (String c s ++ t)%string with (String c (s ++ t)%string).
  cbn [test]. now rewrite IH, orb_assoc.
Qed.

Lemma length_app_string (s t : string) :
  String.length (s ++ t)%string = (String.length s + String.length t)%nat.
Proof.
  induction s as [|c s IH]; [reflexivity|].
  change (String c s ++ t)%string with (String c (s ++ t)%string).
  cbn [String.length]. now rewrite IH.
Qed.

Lemma b2n_le (a b : bool) : (a = true -> b = true) -> (Nat.b2n a <= Nat.b2n b)%nat.
Proof. destruct a, b; cbn; intros H; try lia; specialize (H eq_refl); discriminate. Qed.

Lemma score_app (password extra : string) :
  (score (validatePasswordStrength password)
   <= score (validatePasswordStrength (password ++ extra)%string))%nat.
Proof.
  rewrite !score_sum, !test_app, length_app_string.
  repeat apply Nat.add_le_mono; apply b2n_le;
    try (intros ->; reflexivity).
  intros H. apply Nat.leb_le in H. apply Nat.leb_le. lia.
Qed.

(** X24. The password strength report is consistent and monotone. The
    score counts the five checks (0 to 5); a password is valid exactly
    with three or more of them; a strong password is valid and a weak
    one is not; every non-empty password passes at least one check;
    and typing more characters never lowers the score, so a valid
    password stays valid. *)
Theorem X24_password_strength (password extra : string) :
  let r := validatePasswordStrength password in
  (score r <= 5)%nat
  /\ (isValid r = true <-> (3 <= score r)%nat)
  /\ (strength r = strong -> isValid r = true)
  /\ (strength r = weak -> isValid r = false)
  /\ (password <> "" -> (1 <= score r)%nat)
  /\ (score r <= score (validatePasswordStrength (password ++ extra)%string))%nat
  /\ (isValid r = true ->
      isValid (validatePasswordStrength (password ++ extra)%string) = true).
Proof.
  cbv zeta.
  assert (Hvalid : forall p, isValid (validatePasswordStrength p) = true
                             <-> (3 <= score (validatePasswordStrength p))%nat).
  { intros p. unfold validatePasswordStrength. cbn [isValid score]. apply Nat.leb_le. }
  assert (Hstrength : forall p,
    strength (validatePasswordStrength p)
    = if (score (validatePasswordStrength p) <? 2)%nat then weak
      else if (score (validatePasswordStrength p) <? 4)%nat then medium else strong)
    by reflexivity.
  pose proof (score_app password extra) as Hmono.
  split; [|split; [|split; [|split; [|split; [|split]]]]].
  - rewrite score_sum.
    destruct (8 <=? String.length password)%nat, (test is_lower password),
      (test is_upper password), (test is_digit password), (test is_special password);
      cbn; lia.
  - apply Hvalid.
  - rewrite Hstrength. intros H. apply Hvalid.
    destruct (Nat.ltb_spec (score (validatePasswordStrength password)) 2); [discriminate|].
    destruct (Nat.ltb_spec (score (validatePasswordStrength password)) 4); [discriminate|].
    lia.
  - rewrite Hstrength. intros H.
    destruct (isValid (validatePasswordStrength password)) eqn:Hv; [|reflexivity].
    apply Hvalid in Hv.
    destruct (Nat.ltb_spec (score (validatePasswordStrength password)) 2); [lia|].
    destruct (score (validatePasswordStrength password) <? 4)%nat; discriminate.
  - intros Hne. rewrite score_sum. destruct password as [|c r]; [congruence|].
    cbn [test]. unfold is_special.
    destruct (is_upper c), (is_lower c), (is_digit c); cbn;
      destruct (8 <=? S (String.length r))%nat; cbn; lia.
  - exact Hmono.
  - intros Hv. apply Hvalid. apply Hvalid in Hv. lia.
Qed.

(** *** [sanitizeTextInput] *)

Lemma collapse_true_trimStart (s : string) :
  collapse true s = collapse false (trimStart s).
Proof.
  induction s as [|c r IH]; [reflexivity|]. cbn.
  destruct (is_space c) eqn:Hc; [exact IH|]. cbn. now rewrite Hc.
Qed.

Lemma trimEnd_idem (s : string) : trimEnd (trimEnd s) = trimEnd s.
Proof.
  induction s as [|c r IH]; [reflexivity|]. cbn.
  destruct (is_space c && (trimEnd r =? "")%string) eqn:Hc; [reflexivity|].
  cbn. now rewrite IH, Hc.
Qed.

Lemma trimEnd_tail (c : ascii) (r : string) :
  trimEnd (String c r) = String c r -> trimEnd r = r /\ (is_space c = true -> r <> "").
Proof.
  cbn. destruct (is_space c && (trimEnd r =? "")%string) eqn:Hc; [discriminate|].
  intros [= Hr]. split; [exact Hr|].
  intros Hs ->. rewrite Hs in Hc. discriminate.
Qed.

Lemma trimStart_keeps (s : string) : trimEnd s = s -> trimEnd (trimStart s) = trimStart s.
Proof.
  induction s as [|c r IH]; [reflexivity|]. intros H.
  cbn [trimStart]. destruct (is_space c); [|exact H].
  apply IH. now apply trimEnd_tail in H.
Qed.

Lemma trimStart_head (s : string) :
  trimStart s = "" \/ exists c r, trimStart s = String c r /\ is_space c = false.
Proof.
  induction s as [|c r IH]; [now left|]. cbn.
  destruct (is_space c) eqn:Hc; [exact IH|]. right. eauto.
Qed.

(** What [trim] gives: nothing, or a text that starts with a word and
    has no white space at its end. *)
Lemma trim_shape (s : string) :
  trim s = "" \/ exists c r, trim s = String c r /\ is_space c = false /\ trimEnd r = r.
Proof.
  unfold trim. destruct (trimStart_head s) as [->|(c & r & -> & Hc)]; [now left|].
  right. cbn. rewrite Hc. cbn. exists c, (trimEnd r). split; [reflexivity|].
  split; [exact Hc|apply trimEnd_idem].
Qed.

Lemma collapse_tidy (s : string) :
  trimEnd s = s ->
  tidy_from true (collapse false s) = true
  /\ (s <> "" -> tidy_from false (collapse true s) = true).
Proof.
  induction s as [|c r IH]; intros HT; [split; [reflexivity|congruence]|].
  apply trimEnd_tail in HT as [Hr Hne]. destruct (IH Hr) as [IH1 IH2].
  cbn. destruct (is_space c) eqn:Hc; cbn; rewrite ?Hc; cbn.
  - split; [|intros _]; apply IH2; now apply Hne.
  - split; [|intros _]; exact IH1.
Qed.

Lemma tidy_fixed (s : string) (after_word : bool) :
  tidy_from after_word s = true ->
  collapse false s = s
  /\ (after_word = false -> collapse true s = s /\ trimStart s = s)
  /\ trimEnd s = s
  /\ (after_word = false -> s <> "").
Proof.
  revert after_word. induction s as [|c r IH]; intros aw H.
  - cbn in H. subst aw. repeat split; discriminate.
  - cbn in H. cbn. destruct (is_space c) eqn:Hc.
    + apply andb_prop in H as [H Hr]. apply andb_prop in H as [-> Hsp].
      apply Ascii.eqb_eq in Hsp. subst c.
      destruct (IH false Hr) as (_ & H2 & H3 & H4). destruct (H2 eq_refl) as [H5 _].
      rewrite H5, H3.
      destruct r as [|d r']; [now destruct (H4 eq_refl)|].
      cbn. repeat split; discriminate.
    + destruct (IH true H) as (H1 & _ & H3 & _). rewrite H1, H3. cbn.
      repeat split; discriminate.
Qed.

(** X25. [sanitizeTextInput] gives a tidy text: no white space at
    either end and exactly one space between words. A tidy text is
    left as it is, so sanitising twice is the same as sanitising
    once. *)
Theorem X25_sanitizeTextInput (input : string) :
  tidy (sanitizeTextInput input) = true
  /\ (tidy input = true -> sanitizeTextInput input = input)
  /\ sanitizeTextInput (sanitizeTextInput input) = sanitizeTextInput input.
Proof.
  assert (Htidy : forall s, tidy (sanitizeTextInput s) = true).
  { intros s. unfold sanitizeTextInput.
    destruct (trim_shape s) as [->|(c & r & -> & Hc & Hr)]; [reflexivity|].
    cbn. rewrite Hc. cbn. rewrite Hc. now apply collapse_tidy. }
  assert (Hfix : forall s, tidy s = true -> sanitizeTextInput s = s).
  { intros [|c r] H; [reflexivity|].
    unfold tidy in H. destruct (tidy_fixed _ _ H) as (H1 & H2 & H3 & _).
    destruct (H2 eq_refl) as [_ H4].
    unfold sanitizeTextInput, trim. now rewrite H4, H3, H1. }
  split; [apply Htidy|]. split; [apply Hfix|]. apply Hfix, Htidy.
Qed.

End ValidationFacts.


(** ** Errors of the public requests *)

Section PublicRequestFacts.
Context (rejects : Platform) {rt : Runtime}.
Import SecureStorage AuthService PublicRequest.

Lemma handleAuthError_rethrown_field (error : Thrown) :
  field (handleAuthError (rethrown error)) = None.
Proof.
  unfold handleAuthError.
  assert (H : response_data (rethrown error) = None).
  { unfold rethrown.
    destruct (is_code (code error) "ERR_NETWORK" || is_code (code error) "ECONNREFUSED");
      [reflexivity|].
    destruct (response_data error) eqn:E; [reflexivity|exact E]. }
  rewrite H. destruct (JS.truthy (message (rethrown error))); reflexivity.
Qed.

Lemma handleAuthError_Error_field (msg : string) :
  field (handleAuthError (Error msg)) = None.
Proof. unfold handleAuthError. cbn. destruct (negb (msg =? "")%string); reflexivity. Qed.

(** What persisting a session throws is one of the two errors of the
    store. *)
Lemma persist_session_error (tokenData : TokenData) (userData : UserData) (w : World)
    (e : Thrown) (w' : World) (evs : list (Event Body)) :
  Promise_all [ setTokens (Body:=Body) rejects tokenData;
                setUserData rejects userData ] w = (Throw e, w', evs) ->
  exists msg, e = Error msg.
Proof.
  unfold Promise_all, setTokens, setUserData, try_catch, bind, get_now, Promise_all,
    setItemAsync, throw.
  repeat (keep_keys;
          match goal with
          | |- context [rejects ?n ?o] => destruct (rejects n o) eqn:?
          end).
  all: keep_keys; intros [= <- _ _] || discriminate; eauto.
Qed.

(** X26. The [field] of a validation error never reaches the caller of
    [login] or [register]. [postPublic] throws the body of an error
    response itself, [handleAuthError] looks for the body under
    [error.response.data], does not find it there, and copies only the
    message and the code: every error the two operations throw has no
    [field], also when the backend named one. The message and the code
    of the backend's body do arrive. *)
Theorem X26_validation_field_is_dropped
    (axios_auth : string -> Body -> World -> Result (ApiResponse AuthPayload) * World)
    (axios_tokens : string -> Body -> World -> Result (ApiResponse (option TokenData)) * World)
    (httpClient : HttpClient) (w : World) :
  let client := over_axios axios_auth axios_tokens httpClient in
  (forall credentials e w' evs,
      login rejects client credentials w = (Throw e, w', evs) -> field e = None)
  /\ (forall registerData e w' evs,
      register rejects client registerData w = (Throw e, w', evs) -> field e = None)
  /\ (forall registerData body data m w1,
      axios_auth "/auth/register" (RegisterBody (requestData registerData)) w
      = (Throw body, w1) ->
      code body <> Some "ERR_NETWORK" -> code body <> Some "ECONNREFUSED" ->
      response_data body = Some data ->
      ed_message data = Some m -> m <> "" ->
      exists e evs,
        register rejects client registerData w = (Throw e, w1, evs)
        /\ message e = Some m /\ code e = ed_code data /\ field e = None).
Proof.
  cbv zeta. split; [|split].
  - intros credentials e w' evs.
    unfold login, try_catch at 1, bind at 1, request.
    cbn [postPublic_auth over_axios]. unfold postPublic.
    destruct (axios_auth "/auth/login" (LoginBody credentials) w) as [[response|e0] w1].
    2: { unfold throw. intros [= <- _ _]. apply handleAuthError_rethrown_field. }
    destruct (success response); [destruct (data response) as [d|]|];
      try (unfold throw; intros [= <- _ _]; apply handleAuthError_Error_field).
    unfold bind at 1, get_now. unfold bind at 1.
    match goal with
    | |- context [Promise_all ?ms w1] => destruct (Promise_all ms w1) as [[[[]|e1] w2] ev2] eqn:Hall
    end; unfold ret, throw; [discriminate|].
    intros [= <- _ _].
    destruct (persist_session_error _ _ _ _ _ _ Hall) as [msg ->].
    apply handleAuthError_Error_field.
  - intros registerData e w' evs.
    unfold register, try_catch at 1, bind at 1, request.
    cbn [postPublic_auth over_axios]. unfold postPublic.
    destruct (axios_auth "/auth/register" (RegisterBody (requestData registerData)) w)
      as [[response|e0] w1].
    2: { unfold throw. intros [= <- _ _]. apply handleAuthError_rethrown_field. }
    destruct (success response); [destruct (data response) as [d|]|];
      try (unfold throw; intros [= <- _ _]; apply handleAuthError_Error_field).
    unfold bind at 1, get_now. unfold bind at 1.
    match goal with
    | |- context [Promise_all ?ms w1] => destruct (Promise_all ms w1) as [[[[]|e1] w2] ev2] eqn:Hall
    end; unfold ret, throw; [discriminate|].
    intros [= <- _ _].
    destruct (persist_session_error _ _ _ _ _ _ Hall) as [msg ->].
    apply handleAuthError_Error_field.
  - intros registerData body data m w1 Haxios Hnet Hconn Hdata Hmsg Hm.
    unfold register, try_catch at 1, bind at 1, request.
    cbn [postPublic_auth over_axios]. unfold postPublic. rewrite Haxios.
    unfold throw. do 2 eexists. split; [reflexivity|].
    assert (Hre : rethrown body
                  = {| response_data := None; message := Some m;
                       code := ed_code data; field := ed_field data |}).
    { unfold rethrown, is_code. rewrite Hdata, Hmsg.
      destruct (code body) as [c|]; [|reflexivity].
      destruct (String.eqb_spec c "ERR_NETWORK"); [congruence|].
      destruct (String.eqb_spec c "ECONNREFUSED"); [congruence|]. reflexivity. }
    rewrite Hre. unfold handleAuthError. cbn.
    apply String.eqb_neq in Hm. rewrite Hm. cbn. repeat split.
Qed.

End PublicRequestFacts.

(** ** The phone formatter *)

Section PhoneFacts.
Import Validation.

Lemma keep_only (class : ascii -> bool) (s : string) :
  test (fun c => negb (class c)) (keep class s) = false.
Proof.
  induction s as [|c r IH]; [reflexivity|]. cbn.
  destruct (class c) eqn:Hc; [|exact IH]. cbn. now rewrite Hc, IH.
Qed.

Lemma substring_all (s : string) : substring 0 (String.length s) s = s.
Proof. induction s as [|c r IH]; [reflexivity|]. cbn. now rewrite IH. Qed.

(** The formatted number, for the ten code units it is made of. *)
Lemma format_formatted (c0 c1 c2 c3 c4 c5 c6 c7 c8 c9 : ascii) :
  is_phone_char c0 = true -> is_phone_char c1 = true -> is_phone_char c2 = true ->
  is_phone_char c3 = true -> is_phone_char c4 = true -> is_phone_char c5 = true ->
  is_phone_char c6 = true -> is_phone_char c7 = true -> is_phone_char c8 = true ->
  is_phone_char c9 = true ->
  let formatted :=
    String "+" (String "5" (String "7" (String " "
      (String c0 (String c1 (String c2 (String " "
        (String c3 (String c4 (String c5 (String c6 (String c7 (String c8
          (String c9 ""))))))))))))))in
  formatColombianPhone formatted = formatted.
Proof.
  intros H0 H1 H2 H3 H4 H5 H6 H7 H8 H9. cbv zeta.
  unfold formatColombianPhone. cbn [keep].
  rewrite H0, H1, H2, H3, H4, H5, H6, H7, H8, H9.
  reflexivity.
Qed.

(** X27. [formatColombianPhone] either leaves its input as it is or
    writes it as [+57 XXX XXXXXXX] (fifteen code units), and it is
    idempotent: formatting a formatted number changes nothing. *)
Theorem X27_formatColombianPhone (phone : string) :
  (formatColombianPhone phone = phone
   \/ String.length (formatColombianPhone phone) = 15%nat
      /\ startsWith "+57 " (formatColombianPhone phone) = true)
  /\ formatColombianPhone (formatColombianPhone phone) = formatColombianPhone phone.
Proof.
  pose proof (keep_only is_phone_char phone) as Honly.
  assert (Hshape :
    formatColombianPhone phone = phone
    \/ exists c0 c1 c2 c3 c4 c5 c6 c7 c8 c9,
         (is_phone_char c0 = true /\ is_phone_char c1 = true /\ is_phone_char c2 = true
          /\ is_phone_char c3 = true /\ is_phone_char c4 = true /\ is_phone_char c5 = true
          /\ is_phone_char c6 = true /\ is_phone_char c7 = true /\ is_phone_char c8 = true
          /\ is_phone_char c9 = true)
         /\ formatColombianPhone phone
            = String "+" (String "5" (String "7" (String " "
                (String c0 (String c1 (String c2 (String " "
                  (String c3 (String c4 (String c5 (String c6 (String c7 (String c8
                    (String c9 ""))))))))))))))).
  { unfold formatColombianPhone.
    destruct (startsWith "+57" (keep is_phone_char phone)
              && (10 <=? String.length
                           (substring 3 (String.length (keep is_phone_char phone) - 3)
                              (keep is_phone_char phone)))%nat) eqn:Hfirst.
    - right. apply andb_prop in Hfirst as [Hpre Hlen].
      destruct (keep is_phone_char phone) as [|a [|b [|c rest]]];
        try (cbn in Hpre; rewrite ?andb_false_r in Hpre; discriminate Hpre).
      cbn [startsWith] in Hpre.
      apply andb_prop in Hpre as [Ha Hpre]. apply andb_prop in Hpre as [Hb Hpre].
      apply andb_prop in Hpre as [Hc _].
      apply Ascii.eqb_eq in Ha, Hb, Hc. subst a b c.
      change (substring 3 (String.length (String "+" (String "5" (String "7" rest))) - 3)
                (String "+" (String "5" (String "7" rest))))
        with (substring 0 (String.length rest - 0) rest) in *.
      rewrite Nat.sub_0_r, substring_all in *.
      destruct rest as [|c0 [|c1 [|c2 [|c3 [|c4 [|c5 [|c6 [|c7 [|c8 [|c9 rest]]]]]]]]]];
        try (cbn in Hlen; discriminate Hlen).
      exists c0, c1, c2, c3, c4, c5, c6, c7, c8, c9.
      cbn [test] in Honly.
      repeat (apply orb_false_elim in Honly as [?Hk Honly]).
      repeat match goal with
             | H : negb _ = false |- _ => apply negb_false_iff in H
             end.
      split; [repeat split; assumption|]. try destruct rest; reflexivity.
    - destruct ((String.length (keep is_phone_char phone) =? 10)%nat
                && startsWith "3" (keep is_phone_char phone)) eqn:Hsecond;
        [|left; reflexivity].
      right. apply andb_prop in Hsecond as [Hlen Hpre].
      destruct (keep is_phone_char phone)
        as [|c0 [|c1 [|c2 [|c3 [|c4 [|c5 [|c6 [|c7 [|c8 [|c9 [|c10 rest]]]]]]]]]]];
        try (cbn in Hlen; discriminate Hlen).
      exists c0, c1, c2, c3, c4, c5, c6, c7, c8, c9.
      cbn [test] in Honly.
      repeat (apply orb_false_elim in Honly as [?Hk Honly]).
      repeat match goal with
             | H : negb _ = false |- _ => apply negb_false_iff in H
             end.
      split; [repeat split; assumption|]. try destruct rest; reflexivity. }
  destruct Hshape as [Hsame|(c0 & c1 & c2 & c3 & c4 & c5 & c6 & c7 & c8 & c9 & Hc & ->)].
  - split; [now left|]. now rewrite !Hsame.
  - split; [right; split; reflexivity|].
    destruct Hc as (H0 & H1 & H2 & H3 & H4 & H5 & H6 & H7 & H8 & H9).
    now apply format_formatted.
Qed.

End PhoneFacts.


(** ** The rest of the session core on concrete inputs *)

Lemma X1_witness :
  exists w'' evs',
    SecureStorage.isTokenExpired (Body:=Body) reliable
      (at_time 1701295940000
         (snd (fst (SecureStorage.setTokens (Body:=Body) reliable demo_tokens
                      (fresh_install 1700000000000)))))
    = (Ok (1700000000000 + 15 * 86400000 - 60000 <=? 1701295940000), w'', evs').
Proof.
  destruct (SecureStorage.setTokens (Body:=Body) reliable demo_tokens
              (fresh_install 1700000000000)) as [[[[]|e] w'] evs] eqn:Hset.
  - assert (H0 : 0 <= now (fresh_install 1700000000000)) by (vm_compute; discriminate).
    assert (H1 : now (fresh_install 1700000000000) + Z.of_N 15 * 86400000
                 <= JS.MAX_SAFE_INTEGER) by (vm_compute; discriminate).
    assert (H2 : 0 <= now (at_time 1701295940000 w')) by (vm_compute; discriminate).
    assert (H3 : now (at_time 1701295940000 w') + 60000 <= JS.MAX_SAFE_INTEGER)
      by (vm_compute; discriminate).
    exact (X1_expiry_round_trip reliable demo_tokens 15 "d" 86400000
             (fresh_install 1700000000000) w' evs (at_time 1701295940000 w')
             eq_refl eq_refl H0 H1 H2 H3 Hset eq_refl eq_refl).
  - exfalso. vm_compute in Hset. discriminate.
Defined.

Lemma X2_witness :
  let w' := snd (fst (SecureStorage.setTokens (Body:=Body) reliable vague_tokens
                        (fresh_install 1700000000000))) in
  store w' !! SecureStorage.TOKEN_EXPIRY = Some "NaN"
  /\ exists w'' evs',
       SecureStorage.isTokenExpired (Body:=Body) reliable (at_time 4102444800000 w')
       = (Ok false, w'', evs').
Proof.
  destruct (SecureStorage.setTokens (Body:=Body) reliable vague_tokens
              (fresh_install 1700000000000)) as [[[[]|e] w'] evs] eqn:Hset.
  - exact (X2_unparsable_duration_never_expires reliable vague_tokens "m" 60000
             (fresh_install 1700000000000) w' evs (at_time 4102444800000 w')
             eq_refl eq_refl eq_refl Hset eq_refl eq_refl).
  - exfalso. vm_compute in Hset. discriminate.
Defined.

Lemma X3_witness :
  exists m : Z,
    fst (fst (SessionExpiry.getTimeUntilExpiry (B:=Body) reliable (logged_in 1700000000000)))
    = Ok (JS.Num m)
    /\ 0 <= m
    /\ (1700000900000 <= 1700000000000 -> m = 0)
    /\ (1700000000000 <= 1700000900000 ->
        m * 60000 <= 1700000900000 - 1700000000000 < (m + 1) * 60000).
Proof.
  assert (Hstored : store (logged_in 1700000000000) !! SecureStorage.TOKEN_EXPIRY
                    = Some (JS.toString (JS.Num 1700000900000)))
    by (vm_compute; reflexivity).
  assert (He : 0 <= 1700000900000 <= JS.MAX_SAFE_INTEGER)
    by (split; vm_compute; discriminate).
  assert (Hn : 0 <= now (logged_in 1700000000000) <= JS.MAX_SAFE_INTEGER)
    by (split; vm_compute; discriminate).
  exact (proj2 (proj2 (X3_getTimeUntilExpiry (B:=Body) reliable (logged_in 1700000000000)))
           1700000900000 He Hn Hstored eq_refl).
Defined.

Lemma X4_witness :
  fst (fst (SessionExpiry.shouldRefreshToken (B:=Body) reliable (logged_in 1700000700000)))
  = Ok (1700000900000 - 1700000700000 <? 300000).
Proof.
  assert (Hstored : store (logged_in 1700000700000) !! SecureStorage.TOKEN_EXPIRY
                    = Some (JS.toString (JS.Num 1700000900000)))
    by (vm_compute; reflexivity).
  exact (proj1 (proj2 (X4_shouldRefreshToken (B:=Body) reliable (logged_in 1700000700000)))
           1700000900000 Hstored eq_refl).
Defined.

Lemma X5_witness :
  let w1 := snd (fst (AuthService.logout reliable offline_client (logged_in 0))) in
  fst (fst (SecureStorage.hasStoredTokens (Body:=Body) reliable w1)) = Ok false
  /\ fst (fst (SecureStorage.isTokenExpired (Body:=Body) reliable w1)) = Ok true
  /\ exists w2 evs,
       AuthService.verifySession reliable (rt:=demo_runtime) online_client w1
       = (Ok false, w2, evs)
       /\ http_calls evs = [] /\ store w2 = store w1.
Proof.
  exact (X5_no_session_after_logout reliable (rt:=demo_runtime) offline_client online_client
           (logged_in 0) (fun n k => eq_refl)).
Defined.

Lemma X6_witness :
  exists e,
    AuthService.login reliable (rt:=demo_runtime) rejecting_client demo_credentials
      (fresh_install 0)
    = (Throw e, fresh_install 0,
       [ EvHttp POST_PUBLIC "/auth/login" (Some (LoginBody demo_credentials)) ]).
Proof.
  apply (proj1 (X6_rejected_credentials_store_nothing reliable (rt:=demo_runtime)
                  rejecting_client (fresh_install 0))
           demo_credentials
           (Ok {| success := false; api_message := "Invalid credentials"; data := None |})
           (fresh_install 0) eq_refl).
  intros resp [= <-]. left. reflexivity.
Defined.

Lemma X7_witness :
  match fst (fst (AuthService.login reliable (rt:=demo_runtime) rejecting_client
                    demo_credentials (fresh_install 0))) with
  | Throw e => JS.truthy (message e) = true
  | Ok _ => False
  end.
Proof.
  destruct (AuthService.login reliable (rt:=demo_runtime) rejecting_client demo_credentials
              (fresh_install 0)) as [[[resp|e] w'] evs] eqn:Hlogin; cbn [fst].
  - vm_compute in Hlogin. discriminate.
  - exact (X7_service_errors_carry_message reliable (rt:=demo_runtime) rejecting_client
             (fresh_install 0) e w' evs (or_introl (ex_intro _ demo_credentials Hlogin))).
Defined.

Lemma X8_witness :
  match AuthService.verifySession reliable (rt:=demo_runtime) rejecting_client
          (logged_in 1700000900000) with
  | (Ok false, w', _) => record_cleared w'
  | _ => False
  end.
Proof.
  assert (H1 : SecureStorage.hasStoredTokens (Body:=Body) reliable (logged_in 1700000900000)
               = (Ok true, tick (tick (logged_in 1700000900000)),
                  [ EvStore (OpGet SecureStorage.ACCESS_TOKEN) true;
                    EvStore (OpGet SecureStorage.REFRESH_TOKEN) true ]))
    by (vm_compute; reflexivity).
  assert (H2 : SecureStorage.isTokenExpired (Body:=Body) reliable
                 (tick (tick (logged_in 1700000900000)))
               = (Ok true, tick (tick (tick (logged_in 1700000900000))),
                  [ EvStore (OpGet SecureStorage.TOKEN_EXPIRY) true ]))
    by (vm_compute; reflexivity).
  destruct (AuthService.verifySession reliable (rt:=demo_runtime) rejecting_client
              (logged_in 1700000900000)) as [[[[|]|e] w'] evs] eqn:Hver.
  - vm_compute in Hver. discriminate.
  - exact (X8_failed_check_of_expired_session_clears reliable (rt:=demo_runtime)
             rejecting_client _ _ _ _ _ H1 H2 (fun n k => eq_refl) w' evs Hver).
  - vm_compute in Hver. discriminate.
Defined.

Lemma X10_witness :
  let o := AuthProvider.initializeAuth reliable (rt:=demo_runtime) online_client
             AuthContext.initialState (fresh_install 0) in
  AuthProvider.context o = AuthProvider.signed_out
  /\ http_calls (AuthProvider.events o) = []
  /\ store (AuthProvider.world o) = store (fresh_install 0).
Proof.
  exact (proj2 (proj2 (proj2 (proj2
           (X10_initializeAuth reliable (rt:=demo_runtime) online_client
              AuthContext.initialState (fresh_install 0))))) eq_refl).
Defined.

Lemma X11_witness :
  let o := AuthProvider.login reliable (rt:=demo_runtime) rejecting_client demo_credentials
             AuthContext.initialState (fresh_install 0) in
  AuthContext.state (AuthProvider.context o) = AuthContext.ERROR
  /\ AuthContext.error (AuthProvider.context o) = Some "Invalid credentials"
  /\ AuthContext.isLoading (AuthProvider.context o) = false.
Proof.
  destruct (AuthService.login reliable (rt:=demo_runtime) rejecting_client demo_credentials
              (fresh_install 0)) as [[[resp|e] w'] evs] eqn:Hlogin.
  - exfalso. vm_compute in Hlogin. discriminate.
  - destruct (proj2 (proj2 (X11_provider_login reliable (rt:=demo_runtime) rejecting_client
                              demo_credentials AuthContext.initialState (fresh_install 0)))
                e w' evs Hlogin) as (_ & Hs & He & Hl & _).
    cbv zeta. split; [exact Hs|]. split; [|exact Hl].
    rewrite He. vm_compute in Hlogin. injection Hlogin as <- _ _. reflexivity.
Defined.

Lemma X12_witness :
  let o := AuthProvider.logout reliable offline_client
             (AuthProvider.signed_in demo_user) (logged_in 0) in
  AuthProvider.context o = AuthProvider.signed_out
  /\ AuthProvider.navigations o = ["/auth/login"]
  /\ record_cleared (AuthProvider.world o).
Proof.
  destruct (X12_provider_logout reliable offline_client
              (AuthProvider.signed_in demo_user) (logged_in 0))
    as (_ & Hc & Hn & _ & Hclr).
  cbv zeta. split; [exact Hc|]. split; [exact Hn|]. apply Hclr. intros n k. reflexivity.
Defined.

Lemma X13_witness :
  let o := AuthProvider.refreshSession reliable (rt:=demo_runtime) rejecting_client
             (AuthProvider.signed_in demo_user) (logged_in 0) in
  AuthProvider.context o = AuthProvider.signed_out
  /\ record_cleared (AuthProvider.world o).
Proof.
  destruct (AuthService.refreshTokens reliable rejecting_client (logged_in 0))
    as [[[t|e] w'] evs] eqn:Href.
  - exfalso. vm_compute in Href. discriminate.
  - destruct (proj1 (proj2 (proj2 (proj2
                (X13_refreshSession reliable (rt:=demo_runtime) rejecting_client
                   (AuthProvider.signed_in demo_user) (logged_in 0)))))
                e w' evs Href) as (Hc & _ & Hclr).
    cbv zeta. split; [exact Hc|]. apply Hclr. intros n k. reflexivity.
Defined.

Lemma X14_witness :
  (let o := AuthProvider.checkTokenRefresh reliable (rt:=demo_runtime) online_client
              (AuthProvider.signed_in demo_user) (logged_in 1700000000000) in
   AuthProvider.settled o = Ok tt
   /\ AuthProvider.context o = AuthProvider.signed_in demo_user
   /\ http_calls (AuthProvider.events o) = []
   /\ store (AuthProvider.world o) = store (logged_in 1700000000000))
  /\ (let o := AuthProvider.checkTokenRefresh reliable (rt:=demo_runtime) online_client
                 (AuthProvider.signed_in demo_user)
                 (at_time 1700000700000 (logged_in 1700000000000)) in
      AuthProvider.settled o = Ok tt
      /\ http_calls (AuthProvider.events o)
         = [ EvHttp POST_PUBLIC "/auth/refresh" (Some (RefreshBody "temp_refresh_0"));
             EvHttp GET "/auth/me" None ])
  /\ (let o := AuthProvider.checkTokenRefresh reliable (rt:=demo_runtime) offline_client
                 (AuthProvider.signed_in demo_user) (fresh_install 1700000000000) in
      AuthProvider.settled o = Ok tt
      /\ AuthProvider.context o = AuthProvider.signed_out).
Proof.
  assert (Hstored : store (logged_in 1700000000000) !! SecureStorage.TOKEN_EXPIRY
                    = Some (JS.toString (JS.Num 1700000900000)))
    by (vm_compute; reflexivity).
  assert (He : 0 <= 1700000900000 <= JS.MAX_SAFE_INTEGER)
    by (split; vm_compute; discriminate).
  assert (Hn0 : 0 <= now (logged_in 1700000000000) <= JS.MAX_SAFE_INTEGER)
    by (split; vm_compute; discriminate).
  assert (Hn1 : 0 <= now (at_time 1700000700000 (logged_in 1700000000000))
                <= JS.MAX_SAFE_INTEGER)
    by (split; vm_compute; discriminate).
  split; [|split]; cbv zeta.
  - destruct (X14_checkTokenRefresh reliable (rt:=demo_runtime) online_client
                (AuthProvider.signed_in demo_user) (logged_in 1700000000000))
      as (Hok & _ & Hread).
    split; [exact Hok|].
    apply (Hread 1700000900000 He Hn0 Hstored eq_refl). vm_compute. discriminate.
  - destruct (X14_checkTokenRefresh reliable (rt:=demo_runtime) online_client
                (AuthProvider.signed_in demo_user)
                (at_time 1700000700000 (logged_in 1700000000000)))
      as (Hok & _ & Hread).
    split; [exact Hok|].
    destruct (proj2 (Hread 1700000900000 He Hn1 Hstored eq_refl)) as (_ & _ & Hev).
    { vm_compute. reflexivity. }
    rewrite Hev. vm_compute. reflexivity.
  - destruct (X14_checkTokenRefresh reliable (rt:=demo_runtime) offline_client
                (AuthProvider.signed_in demo_user) (fresh_install 1700000000000))
      as (Hok & Hnone & _).
    split; [exact Hok|].
    destruct Hnone as (Hc & _ & _); [right; vm_compute; reflexivity|].
    rewrite Hc. vm_compute. reflexivity.
Defined.

Lemma X15_witness :
  AuthNavigator.redirect None false (Some "(tabs)") = Some "/auth/login"
  /\ AuthNavigator.redirect None false (AuthNavigator.segment0 "/auth/login") = None
  /\ AuthNavigator.redirect (Some demo_user) false (Some "auth") = Some "/(tabs)".
Proof.
  destruct (X15_route_guard None (Some "(tabs)")) as (_ & Hout & _ & Hloop).
  destruct (X15_route_guard (Some demo_user) (Some "auth")) as (_ & _ & Hin & _).
  split; [exact (Hout eq_refl)|]. split.
  - exact (Hloop "/auth/login" (Hout eq_refl)).
  - apply Hin. discriminate.
Defined.

Lemma X16_witness :
  let c := HttpClient.run (HttpClient.two_in_flight (Some "Bearer stale"))
             [ HttpClient.Response 0 (HttpClient.Status 401);
               HttpClient.Response 1 (HttpClient.Status 401);
               HttpClient.TokenRead 0 (Some "temp_refresh_0");
               HttpClient.RefreshResponse 0 (Some demo_tokens) ] in
  RefreshQueue.queue_sound c
  /\ HttpClient.failedQueue (HttpClient.step c (HttpClient.TokensStored 0 true)) = [].
Proof.
  cbv zeta.
  match goal with
  | |- RefreshQueue.queue_sound ?c /\ _ =>
      destruct (X16_queue_lists_waiting_requests c) as [Hsound Hsettled]
  end.
  - apply (reachable_run _ _ (run_reachable [HttpClient.Send (Some "Bearer stale");
                                             HttpClient.Send (Some "Bearer stale")])).
  - split; [exact Hsound|].
    exact (proj1 (Hsettled 0%nat demo_tokens eq_refl)).
Defined.

Lemma X17_witness :
  HttpClient.phase_of
    (HttpClient.run
       (HttpClient.run HttpClient.created
          [ HttpClient.Send None; HttpClient.Response 0 (HttpClient.Status 200) ])
       [ HttpClient.Response 0 (HttpClient.Status 401); HttpClient.Cleared 0 ]) 0
  = Some HttpClient.Fulfilled.
Proof.
  apply X17_settled_requests_are_final.
  - apply run_reachable.
  - reflexivity.
  - reflexivity.
Defined.

Lemma X18_witness :
  exists r q,
    HttpClient.requests
      (HttpClient.run HttpClient.created
         [ HttpClient.Send None; HttpClient.Response 0 (HttpClient.Status 401) ]) !! r
    = Some q
    /\ HttpClient.is_refresher q = true.
Proof.
  apply (proj1 (proj1 (X18_flag_iff_one_refresher _ (run_reachable
           [ HttpClient.Send None; HttpClient.Response 0 (HttpClient.Status 401) ])))).
  reflexivity.
Defined.

Lemma X19_witness :
  let c := HttpClient.run HttpClient.created
             [ HttpClient.Send None; HttpClient.Response 0 (HttpClient.Status 401);
               HttpClient.TokenRead 0 (Some "temp_refresh_0");
               HttpClient.RefreshResponse 0 (Some demo_tokens);
               HttpClient.TokensStored 0 true ] in
  (HttpClient.refreshCalls c <= RefreshQueue.marked c)%nat
  /\ HttpClient.phase_of (HttpClient.step c (HttpClient.Response 0 (HttpClient.Status 401))) 0
     = Some (HttpClient.Failed (HttpClient.HttpError 401))
  /\ HttpClient.refreshCalls (HttpClient.step c (HttpClient.Response 0 (HttpClient.Status 401)))
     = HttpClient.refreshCalls c.
Proof.
  cbv zeta.
  match goal with
  | |- (HttpClient.refreshCalls ?c <= _)%nat /\ _ =>
      destruct (X19_refresh_calls_bounded c (run_reachable _)) as (Hle & _ & Hagain)
  end.
  split; [exact Hle|].
  destruct (Hagain 0%nat
              {| HttpClient._retry := true;
                 HttpClient.Authorization := Some "Bearer temp_access_1";
                 HttpClient.phase := HttpClient.InFlight |}
              eq_refl eq_refl eq_refl) as (Hp & Hc & _).
  split; assumption.
Defined.

Lemma X20_witness :
  (exists h',
      Mutation.mutate Mutation.useAuthMutation_options broken 3 Mutation.idle
        "credentials" Mutation.mounted = Some h'
      /\ (Mutation.invocations h' <= 3)%nat)
  /\ (exists h',
      Mutation.mutate useCriticalMutation_options broken 1 Mutation.idle
        "credentials" Mutation.mounted = Some h'
      /\ (Mutation.invocations h' <= 1)%nat).
Proof.
  split.
  - exact (proj1 (X20_retries_are_bounded Mutation.useAuthMutation_options broken 3
                    Mutation.idle "credentials" Mutation.mounted) 2 eq_refl (le_n 3)).
  - exact (proj2 (X20_retries_are_bounded useCriticalMutation_options broken 1
                    Mutation.idle "credentials" Mutation.mounted) eq_refl (le_n 1)).
Defined.

Lemma X21_witness :
  Mutation.mutate stubborn_options broken 1000 Mutation.idle "credentials" Mutation.mounted
  = None.
Proof.
  exact (X21_retry_true_never_gives_up stubborn_options broken Mutation.idle "credentials"
           Mutation.mounted eq_refl (fun i => conj eq_refl eq_refl)
           (fun i => ex_intro _ (attempt_error i) eq_refl) eq_refl 1000%nat).
Defined.

Lemma X22_witness :
  exists h',
    Mutation.mutate stubborn_options impatient 5 Mutation.idle "credentials" Mutation.mounted
    = Some h'
    /\ Mutation.invocations h' = 1%nat
    /\ Mutation.isSuccess (Mutation.state h') = false
    /\ Mutation.data (Mutation.state h') = None
    /\ Mutation.calls h'
       = [ Mutation.CallOptimisticUpdate "credentials"; Mutation.CallMutationFn "credentials" ].
Proof.
  pose proof (X22_cancelled_mutation_reports_nothing stubborn_options impatient 5
                Mutation.idle "credentials" Mutation.mounted eq_refl) as [Hquiet Hends].
  destruct (Hends eq_refl ltac:(lia)) as (h' & Hrun & Hc & Hn).
  destruct (Hquiet h' Hrun Hc) as (_ & Hs & _ & Hd & _).
  exists h'. split; [exact Hrun|]. split; [exact Hn|]. split; [exact Hs|].
  split; [exact Hd|].
  vm_compute in Hrun. injection Hrun as <-. reflexivity.
Defined.

Lemma X23_witness :
  (exists h',
      MutationAsync.mutateAsync (fun d => negb (String.eqb d "")) Mutation.useAuthMutation_options
        healthy 1 Mutation.idle "credentials" Mutation.mounted
      = Some (MutationAsync.Pending, h')
      /\ Mutation.isSuccess (Mutation.state h') = true
      /\ Mutation.data (Mutation.state h') = Some "ok"
      /\ Mutation.invocations h' = 1%nat)
  /\ (exists h',
      MutationAsync.mutateAsync (fun d => negb (String.eqb d "")) Mutation.useAuthMutation_options
        broken 3 Mutation.idle "credentials" Mutation.mounted
      = Some (MutationAsync.Pending, h')
      /\ Mutation.isError (Mutation.state h') = true
      /\ Mutation.error (Mutation.state h')
         = Some (Mutation.FnError (match Mutation.settles broken 2 with
                                   | Mutation.Rejected e => e
                                   | Mutation.Resolved d => d
                                   end))
      /\ Mutation.invocations h' = 3%nat)
  /\ (exists h',
      MutationAsync.mutateAsync (fun d => negb (String.eqb d "")) Mutation.useAuthMutation_options
        impatient 3 Mutation.idle "credentials" Mutation.mounted
      = Some (MutationAsync.Pending, h')).
Proof.
  split; [|split].
  - destruct (X23_mutateAsync_first_use_never_settles
                Mutation.useAuthMutation_options healthy (fun d => negb (String.eqb d "")) "credentials" Mutation.mounted
                eq_refl eq_refl) as (_ & _ & Hrun).
    refine (proj1 (Hrun eq_refl (fun i => conj eq_refl eq_refl) 0%nat (fun _ => "") 1%nat
                     (le_n 1) _) "ok" eq_refl).
    intros i Hi. exfalso. inversion Hi.
  - destruct (X23_mutateAsync_first_use_never_settles
                Mutation.useAuthMutation_options broken (fun d => negb (String.eqb d "")) "credentials" Mutation.mounted
                eq_refl eq_refl) as (_ & _ & Hrun).
    refine (proj2 (Hrun eq_refl (fun i => conj eq_refl eq_refl) 2%nat
                     (fun i => match Mutation.settles broken i with
                               | Mutation.Rejected e => e
                               | Mutation.Resolved d => d
                               end) 3%nat (le_n 3) _) _ eq_refl eq_refl).
    intros i Hi.
    destruct i as [|[|i]]; [split; reflexivity | split; reflexivity |].
    exfalso. apply Nat.succ_lt_mono, Nat.succ_lt_mono in Hi. inversion Hi.
  - destruct (X23_mutateAsync_first_use_never_settles
                Mutation.useAuthMutation_options impatient (fun d => negb (String.eqb d "")) "credentials" Mutation.mounted
                eq_refl eq_refl) as (_ & Hends & _).
    apply (Hends 2 2%nat 3%nat); [|discriminate|apply le_n].
    intros a Ha. apply Z.leb_gt. exact Ha.
Defined.

Lemma X24_witness :
  Validation.isValid (Validation.validatePasswordStrength "Tolima2025") = true
  /\ Validation.isValid (Validation.validatePasswordStrength "Tolima2025!") = true
  /\ (1 <= Validation.score (Validation.validatePasswordStrength "x"))%nat.
Proof.
  destruct (X24_password_strength "Tolima2025" "!") as (_ & Hv & _ & _ & _ & _ & Hmore).
  destruct (X24_password_strength "x" "") as (_ & _ & _ & _ & Hne & _).
  assert (H : Validation.isValid (Validation.validatePasswordStrength "Tolima2025") = true).
  { apply Hv. vm_compute. lia. }
  split; [exact H|]. split; [exact (Hmore H)|]. apply Hne. discriminate.
Defined.

Lemma X25_witness :
  Validation.sanitizeTextInput "Felipe Sanchez" = "Felipe Sanchez".
Proof.
  exact (proj1 (proj2 (X25_sanitizeTextInput "Felipe Sanchez")) eq_refl).
Defined.

Lemma X26_witness :
  match fst (fst (AuthService.register reliable (rt:=demo_runtime)
                    (PublicRequest.over_axios refusing_axios refusing_axios offline_client)
                    visitor (fresh_install 0))) with
  | Throw e => field e = None
  | Ok _ => False
  end.
Proof.
  destruct (AuthService.register reliable (rt:=demo_runtime)
              (PublicRequest.over_axios refusing_axios refusing_axios offline_client)
              visitor (fresh_install 0)) as [[[resp|e] w'] evs] eqn:Hreg; cbn [fst].
  - vm_compute in Hreg. discriminate.
  - exact (proj1 (proj2 (X26_validation_field_is_dropped reliable (rt:=demo_runtime)
                           refusing_axios refusing_axios offline_client (fresh_install 0)))
             visitor e w' evs Hreg).
Defined.
